(** * OutlookAgent: recipient normalisation, address validation, payload
      construction and delivery fan-out

    A shallow embedding of the Python sources under [mcp_server/]:

    - [utils/input_utils.py]        ([normalize_email_list])
    - [utils/validators.py]         ([validate_email_format])
    - [utils/email/email_utils.py]  ([build_recipients], [build_email_payload],
                                     [build_forward_payload])
    - [utils/template_utils.py]     ([render_template])
    - [services/auth/graph_auth.py] ([get_graph_auth_headers], [load_cached_token],
                                     [save_token], [authenticate_and_get_token],
                                     [get_token])
    - [services/email/send_email.py]    ([send_outlook_email])
    - [services/email/forward_email.py] ([forward_outlook_email])
    - [services/email/fetch_emails.py]  ([fetch_outlook_emails])
    - [services/email/reply_email.py]   ([reply_to_outlook_email])
    - [services/email/delete_email.py]  ([delete_outlook_email])
    - [server/mcp_email_server.py]      (the tools)

    Python values are an inductive type, dictionaries are insertion-ordered
    association lists, strings are lists of Unicode code points.  The
    asynchronous HTTP client is a state-and-exception monad over the log of
    requests issued so far; the replies of the remote service come from a
    [world] that the theorems quantify over.  The token cache lives on a
    [machine]: a finite map from paths to what the files hold. *)

From Stdlib Require Import List ZArith NArith Bool Lia Ascii String DecimalString.
From stdpp Require Import prelude gmap.

Set Warnings "-register-all".

(* ================================================================== *)
(** * Python values *)
(* ================================================================== *)

(** A Python [str] is a sequence of Unicode code points. *)
Definition pystr := list N.

(** Source-code string literals (all of them are ASCII). *)
Definition lit (s : string) : pystr := map N_of_ascii (list_ascii_of_string s).
Arguments lit s%_string.

Fixpoint str_eqb (a b : pystr) : bool :=
  match a, b with
  | [], [] => true
  | x :: a', y :: b' => N.eqb x y && str_eqb a' b'
  | _, _ => false
  end.

(** [str(n)] for an [int]. *)
Definition str_of_int (n : Z) : pystr := lit (NilZero.string_of_int (Z.to_int n)).

(** [sep.join(parts)]. *)
Fixpoint str_join (sep : pystr) (parts : list pystr) : pystr :=
  match parts with
  | [] => []
  | [p] => p
  | p :: rest => p ++ sep ++ str_join sep rest
  end.

(** [needle in haystack] for two strings. *)
Fixpoint str_startswith (s prefix : pystr) {struct prefix} : bool :=
  match prefix, s with
  | [], _ => true
  | p :: prefix', c :: s' => N.eqb p c && str_startswith s' prefix'
  | _ :: _, [] => false
  end.

Fixpoint str_contains (haystack needle : pystr) : bool :=
  str_startswith haystack needle ||
  match haystack with
  | [] => false
  | _ :: rest => str_contains rest needle
  end.

(** The values that flow through the services: JSON-like data. *)
Inductive pyval : Type :=
| VNone
| VBool (b : bool)
| VInt (n : Z)
| VStr (s : pystr)
| VList (l : list pyval)
| VDict (d : list (pystr * pyval)).

(** Dictionaries keep insertion order, as Python's [dict] does. *)
Definition pydict := list (pystr * pyval).

Fixpoint dict_get (k : pystr) (d : pydict) : option pyval :=
  match d with
  | [] => None
  | (k', v) :: d' => if str_eqb k k' then Some v else dict_get k d'
  end.

Definition dict_has (k : pystr) (d : pydict) : bool :=
  match dict_get k d with Some _ => true | None => false end.

(** [d[k] = v]: overwrite in place when the key exists, append otherwise. *)
Fixpoint dict_set (k : pystr) (v : pyval) (d : pydict) : pydict :=
  match d with
  | [] => [(k, v)]
  | (k', v') :: d' =>
      if str_eqb k k' then (k', v) :: d' else (k', v') :: dict_set k v d'
  end.

(** Truthiness of a list ([if cc:], [if invalid:], [if not to_recipients:]). *)
Definition truthy_list {A} (l : list A) : bool :=
  match l with [] => false | _ :: _ => true end.

(** Truthiness of a string ([if email.strip()], [if sender:]). *)
Definition truthy_str (s : pystr) : bool := truthy_list s.

(* ================================================================== *)
(** * What the interpreter, the libraries and the deployment provide *)
(* ================================================================== *)

(** The parts of the behaviour that are fixed outside the repository:
    the Unicode tables behind [\w] and [str.lower], the configured base
    URL, and the text [httpx] gives to an [HTTPStatusError]. *)
Class Runtime := {
  (** [str.isalnum] on code points above the ASCII range. *)
  unicode_isalnum : N -> bool;
  (** [str.lower]. *)
  str_lower : pystr -> pystr;
  (** [config.settings.GRAPH_API_URL], read from the environment. *)
  GRAPH_API_URL : pystr;
  (** [str(e)] of the [HTTPStatusError] that [raise_for_status] builds:
      [httpx] formats it from the request URL, the status code and the
      reason phrase (for a redirect it adds the [Location] header, which
      the model leaves out). *)
  httpx_status_message : pystr -> Z -> pystr -> pystr
}.

(* ================================================================== *)
(** * utils/validators.py *)
(* ================================================================== *)

Module Re.

(** The fragment of Python's [re] syntax that the pattern uses. *)
Inductive atom : Type :=
| Word            (* \w *)
| Chr (c : N).    (* a literal, possibly escaped, character *)

Inductive node : Type :=
| Bol                                  (* ^ *)
| Eol                                  (* $ *)
| Lit (c : N)                          (* a literal character *)
| Repeat (cs : list atom) (min : nat). (* [cs]{min,}; + is {1,} *)

Definition is_ascii_alnum (c : N) : bool :=
  (((48 <=? c) && (c <=? 57)) || ((65 <=? c) && (c <=? 90))
   || ((97 <=? c) && (c <=? 122)))%N.

(** [\w] on a [str] pattern: alphanumeric in the Unicode sense, or [_]. *)
Definition is_word `{Runtime} (c : N) : bool :=
  ((if c <? 128 then is_ascii_alnum c else unicode_isalnum c) || (c =? 95))%N.

Definition atom_matches `{Runtime} (a : atom) (c : N) : bool :=
  match a with
  | Word => is_word c
  | Chr c' => (c =? c')%N
  end.

Definition in_set `{Runtime} (cs : list atom) (c : N) : bool :=
  existsb (fun a => atom_matches a c) cs.

(** [$] without [re.MULTILINE]: at the end of the string, or just before
    a newline that is the last character. *)
Definition at_eol (rest : pystr) : bool :=
  match rest with
  | [] => true
  | [c] => (c =? 10)%N
  | _ => false
  end.

(** Backtracking match of the node sequence [p] against [s]; [bos] tells
    whether [s] still starts at the beginning of the subject.  As
    [re.match] does, it succeeds once the pattern is used up, wherever
    that is in the subject. *)
Fixpoint run `{Runtime} (p : list node) (bos : bool) (s : pystr) {struct p} : bool :=
  match p with
  | [] => true
  | Bol :: p' => bos && run p' bos s
  | Eol :: p' => at_eol s && run p' bos s
  | Lit c :: p' =>
      match s with
      | c' :: s' => (c' =? c)%N && run p' false s'
      | [] => false
      end
  | Repeat cs m :: p' =>
      (fix rep (m : nat) (bos : bool) (s : pystr) {struct s} : bool :=
         match s with
         | c :: s' =>
             (in_set cs c && rep (pred m) false s')
             || (Nat.eqb m 0 && run p' bos s)
         | [] => Nat.eqb m 0 && run p' bos []
         end) m bos s
  end.

(** [bool(re.match(pattern, s))]. *)
Definition re_match `{Runtime} (p : list node) (s : pystr) : bool := run p true s.

End Re.

(** [r"^[\w\.-]+@[\w\.-]+\.\w{2,}$"] *)
Definition email_pattern : list Re.node :=
  [ Re.Bol;
    Re.Repeat [Re.Word; Re.Chr 46; Re.Chr 45] 1;
    Re.Lit 64;
    Re.Repeat [Re.Word; Re.Chr 46; Re.Chr 45] 1;
    Re.Lit 46;
    Re.Repeat [Re.Word] 2;
    Re.Eol ].

Definition validate_email_format `{Runtime} (email : pystr) : bool :=
  Re.re_match email_pattern email.

(* ================================================================== *)
(** * utils/input_utils.py *)
(* ================================================================== *)

(** [re.split] on a pattern that is one character class: the subject is
    scanned from the left, every matching character closes the piece
    collected so far. *)
Fixpoint re_split_go `{Runtime} (cs : list Re.atom) (piece : pystr) (s : pystr)
  : list pystr :=
  match s with
  | [] => [piece]
  | c :: s' =>
      if Re.in_set cs c then piece :: re_split_go cs [] s'
      else re_split_go cs (piece ++ [c]) s'
  end.

Definition re_split `{Runtime} (cs : list Re.atom) (s : pystr) : list pystr :=
  re_split_go cs [] s.

(** [str.isspace] of one character: the code points Python treats as
    whitespace. *)
Definition is_space (c : N) : bool :=
  (((9 <=? c) && (c <=? 13)) || ((28 <=? c) && (c <=? 32))
   || (c =? 133) || (c =? 160) || (c =? 5760)
   || ((8192 <=? c) && (c <=? 8202))
   || (c =? 8232) || (c =? 8233) || (c =? 8239) || (c =? 8287)
   || (c =? 12288))%N.

Fixpoint str_lstrip (s : pystr) : pystr :=
  match s with
  | c :: s' => if is_space c then str_lstrip s' else s
  | [] => []
  end.

Definition str_rstrip (s : pystr) : pystr := rev (str_lstrip (rev s)).

(** [s.strip()] *)
Definition str_strip (s : pystr) : pystr := str_rstrip (str_lstrip s).

(** [r"[;,]"] *)
Definition separator_class : list Re.atom := [Re.Chr 59; Re.Chr 44].

(** [normalize_email_list(value)]: the argument is any Python value. *)
Definition normalize_email_list `{Runtime} (value : pyval) : list pyval :=
  match value with
  | VStr s =>
      (* [email.strip() for email in re.split(r"[;,]", value) if email.strip()] *)
      map (fun email => VStr (str_strip email))
          (List.filter (fun email => truthy_str (str_strip email))
                       (re_split separator_class s))
  | VList l => l
  | _ => []
  end.

(* ================================================================== *)
(** * utils/email/email_utils.py *)
(* ================================================================== *)

(** [[{"emailAddress": {"address": email}} for email in addresses]] *)
Definition build_recipients (addresses : list pystr) : list pyval :=
  map (fun email =>
         VDict [(lit "emailAddress", VDict [(lit "address", VStr email)])])
      addresses.

Definition build_email_payload
    (to : list pystr) (subject body content_type : pystr)
    (cc bcc : list pystr) : pydict :=
  [ (lit "message",
      VDict [ (lit "subject", VStr subject);
              (lit "body", VDict [ (lit "contentType", VStr content_type);
                                   (lit "content", VStr body) ]);
              (lit "toRecipients", VList (build_recipients to));
              (lit "ccRecipients", VList (build_recipients cc));
              (lit "bccRecipients", VList (build_recipients bcc)) ]);
    (lit "saveToSentItems", VStr (lit "true")) ].

Definition build_forward_payload
    (to cc bcc : list pystr) (additional_message : pystr) : pydict :=
  let payload :=
    [ (lit "comment", VStr additional_message);
      (lit "toRecipients", VList (build_recipients to)) ] in
  let payload :=
    if truthy_list cc
    then dict_set (lit "ccRecipients") (VList (build_recipients cc)) payload
    else payload in
  let payload :=
    if truthy_list bcc
    then dict_set (lit "bccRecipients") (VList (build_recipients bcc)) payload
    else payload in
  payload.

(* ================================================================== *)
(** * Exceptions, the HTTP client and the remote service *)
(* ================================================================== *)

(** The exceptions the services can see.  [HTTPStatusError] carries the
    response it was raised for; every other subclass of [Exception] is
    known to the code only through [str(e)]. *)
Inductive exn : Type :=
| HTTPStatusError (message : pystr) (status_code : Z) (text : pystr)
| Exception (message : pystr).

(** [str(e)] *)
Definition str_exn (e : exn) : pystr :=
  match e with
  | HTTPStatusError message _ _ => message
  | Exception message => message
  end.

Inductive outcome (A : Type) : Type :=
| Return (a : A)
| Raise (e : exn).
Arguments Return {A} a.
Arguments Raise {A} e.

(** One call on the [httpx.AsyncClient]. *)
Record request := {
  req_method : pystr;
  req_url : pystr;
  req_headers : pydict;
  req_params : option pydict;   (* [params=] of a GET *)
  req_json : option pydict      (* [json=] of a POST *)
}.

(** What the remote service sends back. *)
Record response := {
  resp_url : pystr;             (* the URL of the request it answers *)
  status_code : Z;
  reason_phrase : pystr;
  text : pystr;                 (* [response.text] *)
  json_body : outcome pyval     (* [response.json()] *)
}.

(** The answer to one call: a response, or a failure below HTTP (DNS,
    connection, timeout) that [httpx] raises as an exception. *)
Inductive reply : Type :=
| Responded (status : Z) (reason body_text : pystr) (body_json : outcome pyval)
| Failed (description : pystr).

(** Everything outside the process, for one invocation: what [get_token()]
    yields, and how the remote service answers the n-th call. *)
Record world := {
  token : outcome pystr;
  upstream : nat -> request -> reply
}.

(** Computations that issue requests and may raise: the log of requests
    is threaded through, and survives an exception. *)
Definition M (A : Type) : Type := list request -> outcome A * list request.

Definition ret {A} (a : A) : M A := fun log => (Return a, log).

Definition raise {A} (e : exn) : M A := fun log => (Raise e, log).

Definition bind {A B} (m : M A) (k : A -> M B) : M B :=
  fun log =>
    match m log with
    | (Return a, log') => k a log'
    | (Raise e, log') => (Raise e, log')
    end.

Notation "x <~ m ;; k" := (bind m (fun x => k))
  (at level 100, m at next level, right associativity).

Definition lift {A} (o : outcome A) : M A := fun log => (o, log).

(** [try: body  except Exception as e: handler(e)] *)
Definition try_except {A} (body : M A) (handler : exn -> M A) : M A :=
  fun log =>
    match body log with
    | (Return a, log') => (Return a, log')
    | (Raise e, log') => handler e log'
    end.

(** The request reaches the log, the world answers it. *)
Definition client_call (w : world) (req : request) : M response :=
  fun log =>
    let log' := log ++ [req] in
    match upstream w (length log) req with
    | Responded status reason body_text body_json =>
        (Return {| resp_url := req_url req; status_code := status;
                   reason_phrase := reason; text := body_text;
                   json_body := body_json |}, log')
    | Failed description => (Raise (Exception description), log')
    end.

(** [client.post(url, json=payload, headers=headers)] *)
Definition client_post (w : world) (url : pystr) (json : pydict) (headers : pydict)
  : M response :=
  client_call w {| req_method := lit "POST"; req_url := url;
                   req_headers := headers; req_params := None;
                   req_json := Some json |}.

(** [client.get(url, headers=headers, params=params)] *)
Definition client_get (w : world) (url : pystr) (headers : pydict)
    (params : option pydict) : M response :=
  client_call w {| req_method := lit "GET"; req_url := url;
                   req_headers := headers; req_params := params;
                   req_json := None |}.

Definition is_success (status : Z) : bool := ((200 <=? status) && (status <=? 299))%Z.

(** [response.raise_for_status()] *)
Definition raise_for_status `{Runtime} (r : response) : M unit :=
  if is_success (status_code r) then ret tt
  else raise (HTTPStatusError
                (httpx_status_message (resp_url r) (status_code r) (reason_phrase r))
                (status_code r) (text r)).

(* ================================================================== *)
(** * services/auth/graph_auth.py *)
(* ================================================================== *)

Definition get_graph_auth_headers (w : world) : outcome pydict :=
  match token w with
  | Raise e => Raise e
  | Return tok =>
      if negb (truthy_str tok)
      then Raise (Exception
                    (lit "Unable to acquire access token for Graph API requests"))
      else Return [ (lit "Authorization", VStr (lit "Bearer " ++ tok));
                    (lit "Content-Type", VStr (lit "application/json")) ]
  end.

(* ================================================================== *)
(** * services/email/send_email.py *)
(* ================================================================== *)

Definition error_result (message : pystr) : pyval :=
  VDict [ (lit "status", VStr (lit "error")); (lit "message", VStr message) ].

Definition complete_result (results : list pyval) : pyval :=
  VDict [ (lit "status", VStr (lit "complete")); (lit "results", VList results) ].

(** [[email for email in all_addresses if not validate_email_format(email)]] *)
Definition invalid_addresses `{Runtime} (all_addresses : list pystr) : list pystr :=
  List.filter (fun email => negb (validate_email_format email)) all_addresses.

Definition invalid_message (invalid : list pystr) : pystr :=
  lit "Invalid email address(es): " ++ str_join (lit ", ") invalid.

Section SendEmail.
Context `{Runtime}.
Variable w : world.
Variables (subject body content_type : pystr) (cc bcc : list pystr).
Variable headers : pydict.

Definition send_url : pystr := GRAPH_API_URL ++ lit "/me/sendMail".

(** One pass of the body of [for recipient in recipients:]. *)
Definition send_to_one (recipient : pystr) (results : list pyval)
  : M (list pyval) :=
  let payload :=
    build_email_payload [recipient] subject body content_type cc bcc in
  try_except
    (response <~ client_post w send_url payload headers ;;
     _ <~ raise_for_status response ;;
     ret (results ++ [VDict [ (lit "recipient", VStr recipient);
                              (lit "status", VStr (lit "sent")) ]]))
    (fun e =>
       ret (results ++ [VDict [ (lit "recipient", VStr recipient);
                                (lit "status", VStr (lit "error"));
                                (lit "message", VStr (str_exn e)) ]])).

Fixpoint send_individually (recipients : list pystr) (results : list pyval)
  : M (list pyval) :=
  match recipients with
  | [] => ret results
  | recipient :: rest =>
      results' <~ send_to_one recipient results ;;
      send_individually rest results'
  end.

Definition send_as_group (recipients : list pystr) (results : list pyval)
  : M (list pyval) :=
  let payload :=
    build_email_payload recipients subject body content_type cc bcc in
  try_except
    (response <~ client_post w send_url payload headers ;;
     _ <~ raise_for_status response ;;
     ret (results ++ [VDict [ (lit "recipients", VList (map VStr recipients));
                              (lit "status", VStr (lit "sent")) ]]))
    (fun e =>
       ret (results ++ [VDict [ (lit "status", VStr (lit "error"));
                                (lit "message", VStr (str_exn e)) ]])).
End SendEmail.

Definition send_outlook_email `{Runtime} (w : world)
    (recipients : list pystr) (subject body content_type : pystr)
    (send_individual : bool) (cc bcc : list pystr) : M pyval :=
  headers <~ lift (get_graph_auth_headers w) ;;
  let results := [] in
  let all_addresses := recipients ++ cc ++ bcc in
  let invalid := invalid_addresses all_addresses in
  if truthy_list invalid then ret (error_result (invalid_message invalid))
  else
    results <~ (if send_individual
                then send_individually w subject body content_type cc bcc headers
                                       recipients results
                else send_as_group w subject body content_type cc bcc headers
                                   recipients results) ;;
    ret (complete_result results).

(* ================================================================== *)
(** * services/email/forward_email.py *)
(* ================================================================== *)

(** [f"HTTP Error {http_err.response.status_code}: {http_err.response.text}"] *)
Definition http_error_message (status : Z) (body_text : pystr) : pystr :=
  lit "HTTP Error " ++ str_of_int status ++ lit ": " ++ body_text.

Section ForwardEmail.
Context `{Runtime}.
Variable w : world.
Variable email_id : pystr.
Variables (cc_recipients bcc_recipients : list pystr).
Variable additional_message : pystr.
Variable headers : pydict.

Definition forward_url : pystr :=
  GRAPH_API_URL ++ lit "/me/messages/" ++ email_id ++ lit "/forward".

(** The two [except] clauses, in the order Python tries them. *)
Definition forward_error_message (e : exn) : pystr :=
  match e with
  | HTTPStatusError _ status body_text => http_error_message status body_text
  | Exception _ => lit "Error forwarding email: " ++ str_exn e
  end.

Definition forward_to_one (recipient : pystr) (results : list pyval)
  : M (list pyval) :=
  let forward_data :=
    build_forward_payload [recipient] cc_recipients bcc_recipients
                          additional_message in
  try_except
    (response <~ client_post w forward_url forward_data headers ;;
     _ <~ raise_for_status response ;;
     ret (results ++ [VDict [ (lit "recipient", VStr recipient);
                              (lit "status", VStr (lit "forwarded")) ]]))
    (fun e =>
       ret (results ++ [VDict [ (lit "recipient", VStr recipient);
                                (lit "status", VStr (lit "error"));
                                (lit "message", VStr (forward_error_message e)) ]])).

Fixpoint forward_individually (to_recipients : list pystr) (results : list pyval)
  : M (list pyval) :=
  match to_recipients with
  | [] => ret results
  | recipient :: rest =>
      results' <~ forward_to_one recipient results ;;
      forward_individually rest results'
  end.

Definition forward_as_group (to_recipients : list pystr) (results : list pyval)
  : M (list pyval) :=
  let forward_data :=
    build_forward_payload to_recipients cc_recipients bcc_recipients
                          additional_message in
  try_except
    (response <~ client_post w forward_url forward_data headers ;;
     _ <~ raise_for_status response ;;
     ret (results ++ [VDict [ (lit "recipients", VList (map VStr to_recipients));
                              (lit "status", VStr (lit "forwarded")) ]]))
    (fun e =>
       ret (results ++ [VDict [ (lit "status", VStr (lit "error"));
                                (lit "message", VStr (forward_error_message e)) ]])).
End ForwardEmail.

Definition forward_outlook_email `{Runtime} (w : world)
    (email_id : pystr) (to_recipients cc_recipients bcc_recipients : list pystr)
    (additional_message content_type : pystr) (send_individual : bool) : M pyval :=
  headers <~ lift (get_graph_auth_headers w) ;;
  let results := [] in
  let all_addresses := to_recipients ++ cc_recipients ++ bcc_recipients in
  let invalid := invalid_addresses all_addresses in
  if truthy_list invalid then ret (error_result (invalid_message invalid))
  else if negb (truthy_list to_recipients)
  then ret (error_result (lit "At least one TO recipient is required"))
  else
    results <~ (if send_individual
                then forward_individually w email_id cc_recipients bcc_recipients
                                          additional_message headers
                                          to_recipients results
                else forward_as_group w email_id cc_recipients bcc_recipients
                                      additional_message headers
                                      to_recipients results) ;;
    ret (complete_result results).

(* ================================================================== *)
(** * services/email/fetch_emails.py *)
(* ================================================================== *)

(** [type(v).__name__] *)
Definition type_name (v : pyval) : pystr :=
  match v with
  | VNone => lit "NoneType"
  | VBool _ => lit "bool"
  | VInt _ => lit "int"
  | VStr _ => lit "str"
  | VList _ => lit "list"
  | VDict _ => lit "dict"
  end.

Definition attribute_error {A} (v : pyval) (attribute : string) : M A :=
  raise (Exception (lit "'" ++ type_name v ++ lit "' object has no attribute '"
                    ++ lit attribute ++ lit "'")).

(** [v.get(key, default)] *)
Definition py_get (v : pyval) (key : pystr) (default : pyval) : M pyval :=
  match v with
  | VDict d => ret (match dict_get key d with Some x => x | None => default end)
  | _ => attribute_error v "get"
  end.

(** [v.lower()] *)
Definition py_lower `{Runtime} (v : pyval) : M pystr :=
  match v with
  | VStr s => ret (str_lower s)
  | _ => attribute_error v "lower"
  end.

(** The items a [for] loop over [v] visits. *)
Definition py_iter (v : pyval) : M (list pyval) :=
  match v with
  | VList l => ret l
  | VDict d => ret (map (fun kv => VStr (fst kv)) d)
  | VStr s => ret (map (fun c => VStr [c]) s)
  | _ => raise (Exception (lit "'" ++ type_name v ++ lit "' object is not iterable"))
  end.

(** [s.split()]: the maximal runs of non-whitespace characters. *)
Fixpoint str_split_go (word : pystr) (s : pystr) : list pystr :=
  match s with
  | [] => if truthy_str word then [word] else []
  | c :: s' =>
      if is_space c
      then (if truthy_str word then word :: str_split_go [] s'
            else str_split_go [] s')
      else str_split_go (word ++ [c]) s'
  end.

Definition str_split (s : pystr) : list pystr := str_split_go [] s.

(** [str(b)] for a [bool]. *)
Definition str_of_bool (b : bool) : pystr := if b then lit "True" else lit "False".

(** Truthiness of an optional string argument whose default is [None]. *)
Definition truthy_opt (o : option pystr) : bool :=
  match o with Some s => truthy_str s | None => false end.

Definition DEFAULT_TOP : Z := 10.

Section FetchEmails.
Context `{Runtime}.
Variable w : world.
Variable headers : pydict.

(** [email.get("from", {}).get("emailAddress", {}).get("address", "")] *)
Definition from_address (email : pyval) : M pyval :=
  sender <~ py_get email (lit "from") (VDict []) ;;
  address <~ py_get sender (lit "emailAddress") (VDict []) ;;
  py_get address (lit "address") (VStr []).

Definition fetch_by_id (email_id : pystr) : M pyval :=
  let url := GRAPH_API_URL ++ lit "/me/messages/" ++ email_id in
  try_except
    (response <~ client_get w url headers None ;;
     _ <~ raise_for_status response ;;
     email_data <~ lift (json_body response) ;;
     id <~ py_get email_data (lit "id") (VStr []) ;;
     subject <~ py_get email_data (lit "subject") (VStr []) ;;
     sender <~ from_address email_data ;;
     ret (VDict [ (lit "status", VStr (lit "success"));
                  (lit "email", email_data);
                  (lit "email_id", id);
                  (lit "subject", subject);
                  (lit "from", sender) ]))
    (fun e =>
       match e with
       | HTTPStatusError _ status body_text =>
           ret (error_result (http_error_message status body_text))
       | Exception _ =>
           ret (error_result (lit "Error fetching email: " ++ str_exn e))
       end).

(** [all(term in email_subject for term in subject_terms)], after
    [email_subject = email.get("subject", "").lower()]. *)
Definition subject_matches (subject_terms : list pystr) (email : pyval) : M bool :=
  raw <~ py_get email (lit "subject") (VStr []) ;;
  email_subject <~ py_lower raw ;;
  ret (forallb (fun term => str_contains email_subject term) subject_terms).

Fixpoint filter_by_subject (subject_terms : list pystr) (emails : list pyval)
    (filtered_emails : list pyval) : M (list pyval) :=
  match emails with
  | [] => ret filtered_emails
  | email :: rest =>
      keep <~ subject_matches subject_terms email ;;
      filter_by_subject subject_terms rest
        (if keep then filtered_emails ++ [email] else filtered_emails)
  end.

Definition summary_of (email : pyval) : M pyval :=
  id <~ py_get email (lit "id") (VStr []) ;;
  subject <~ py_get email (lit "subject") (VStr []) ;;
  sender <~ from_address email ;;
  received <~ py_get email (lit "receivedDateTime") (VStr []) ;;
  is_read <~ py_get email (lit "isRead") (VBool false) ;;
  preview <~ py_get email (lit "bodyPreview") (VStr []) ;;
  ret (VDict [ (lit "id", id); (lit "subject", subject); (lit "from", sender);
               (lit "received", received); (lit "is_read", is_read);
               (lit "preview", preview) ]).

Fixpoint summarize (emails : list pyval) (email_summaries : list pyval)
  : M (list pyval) :=
  match emails with
  | [] => ret email_summaries
  | email :: rest =>
      s <~ summary_of email ;;
      summarize rest (email_summaries ++ [s])
  end.

Definition fetch_list (folder : pystr) (is_read : option bool)
    (sender subject : option pystr) (top : Z) : M pyval :=
  let url := GRAPH_API_URL ++ lit "/me/mailFolders/" ++ folder ++ lit "/messages" in
  let query_params := [ (lit "$top", VInt top) ] in
  let filters := [] in
  let filters :=
    match is_read with
    | Some b => filters ++ [lit "isRead eq " ++ str_lower (str_of_bool b)]
    | None => filters
    end in
  let filters :=
    match sender with
    | Some s =>
        if truthy_str s
        then filters ++ [lit "from/emailAddress/address eq '" ++ s ++ lit "'"]
        else filters
    | None => filters
    end in
  (* The assignment rebinds the local name only: [query_params] was
     built from the earlier value and is not rebuilt. *)
  let top := if truthy_opt subject then 50%Z else top in
  let query_params :=
    if truthy_list filters
    then dict_set (lit "$filter") (VStr (str_join (lit " and ") filters))
                  query_params
    else query_params in
  try_except
    (response <~ client_get w url headers (Some query_params) ;;
     _ <~ raise_for_status response ;;
     data <~ lift (json_body response) ;;
     emails <~ py_get data (lit "value") (VList []) ;;
     emails <~
       (match subject with
        | Some subj =>
            if truthy_str subj
               && negb (existsb (fun f => str_startswith f (lit "contains(subject,"))
                                filters)
            then
              let subject_terms := str_split (str_lower subj) in
              items <~ py_iter emails ;;
              filtered_emails <~ filter_by_subject subject_terms items [] ;;
              ret (VList filtered_emails)
            else ret emails
        | None => ret emails
        end) ;;
     items <~ py_iter emails ;;
     email_summaries <~ summarize items [] ;;
     ret (VDict [ (lit "status", VStr (lit "success"));
                  (lit "emails", emails);
                  (lit "email_summaries", VList email_summaries) ]))
    (fun e =>
       match e with
       | HTTPStatusError _ status body_text =>
           ret (error_result (http_error_message status body_text))
       | Exception _ =>
           ret (error_result (lit "Error fetching emails: " ++ str_exn e))
       end).
End FetchEmails.

Definition fetch_outlook_emails `{Runtime} (w : world)
    (folder : pystr) (is_read : option bool)
    (sender email_id subject : option pystr) (top : Z) : M pyval :=
  headers <~ lift (get_graph_auth_headers w) ;;
  match email_id with
  | Some id =>
      if truthy_str id then fetch_by_id w headers id
      else fetch_list w headers folder is_read sender subject top
  | None => fetch_list w headers folder is_read sender subject top
  end.

(* ================================================================== *)
(** * The specification's reference definitions *)
(* ================================================================== *)

Module Reference.

(** "the whole string matches [^[\w.-]+@[\w.-]+\.\w{2,}$], anchored at
    both its start and its very end": a name, an at sign, a name, a dot
    and at least two word characters, and nothing else. *)
Definition name_char `{Runtime} (c : N) : bool :=
  (Re.is_word c || (c =? 46) || (c =? 45))%N.

Definition full_match `{Runtime} (s : pystr) : Prop :=
  exists name domain tld : pystr,
    s = name ++ [64%N] ++ domain ++ [46%N] ++ tld
    /\ name <> [] /\ forallb name_char name = true
    /\ domain <> [] /\ forallb name_char domain = true
    /\ 2 <= length tld /\ forallb Re.is_word tld = true.

(** "split on commas and semicolons" *)
Definition is_separator (c : N) : bool := ((c =? 44) || (c =? 59))%N.

Fixpoint split_on_separators (s : pystr) : list pystr :=
  match s with
  | [] => [[]]
  | c :: s' =>
      if is_separator c then [] :: split_on_separators s'
      else match split_on_separators s' with
           | piece :: pieces => (c :: piece) :: pieces
           | [] => [[c]]
           end
  end.

(** "whitespace": the characters of Unicode that count as white space
    for a Python string, one by one. *)
Definition whitespace : list N :=
  [ 9; 10; 11; 12; 13; 28; 29; 30; 31; 32; 133; 160; 5760;
    8192; 8193; 8194; 8195; 8196; 8197; 8198; 8199; 8200; 8201; 8202;
    8232; 8233; 8239; 8287; 12288 ]%N.

Definition is_whitespace (c : N) : bool := existsb (N.eqb c) whitespace.

(** "whitespace-stripped": without the whitespace it begins with, and
    without the whitespace it ends with.  The end is found from the
    right: a character stays when something stays after it, or when it is
    itself no whitespace. *)
Fixpoint without_leading_whitespace (s : pystr) : pystr :=
  match s with
  | [] => []
  | c :: rest => if is_whitespace c then without_leading_whitespace rest else s
  end.

Fixpoint without_trailing_whitespace (s : pystr) : pystr :=
  match s with
  | [] => []
  | c :: rest =>
      match without_trailing_whitespace rest with
      | [] => if is_whitespace c then [] else [c]
      | kept => c :: kept
      end
  end.

Definition stripped (piece : pystr) : pystr :=
  without_trailing_whitespace (without_leading_whitespace piece).

(** "pieces that become empty are dropped" *)
Definition became_empty (piece : pystr) : bool := Nat.eqb (length piece) 0.

(** "each piece whitespace-stripped, pieces that become empty are
    dropped, and order is preserved; a list input is returned unchanged;
    any other input yields the empty list". *)
Definition normalize (value : pyval) : list pyval :=
  match value with
  | VStr s =>
      map VStr
          (List.filter (fun piece => negb (became_empty piece))
                       (map stripped (split_on_separators s)))
  | VList l => l
  | _ => []
  end.

End Reference.

(** The shapes of a delivery outcome. *)
Definition individual_success (status_word : string) (recipient : pystr) : pyval :=
  VDict [ (lit "recipient", VStr recipient); (lit "status", VStr (lit status_word)) ].

Definition individual_error (recipient message : pystr) : pyval :=
  VDict [ (lit "recipient", VStr recipient); (lit "status", VStr (lit "error"));
          (lit "message", VStr message) ].

Definition group_success (status_word : string) (recipients : list pystr) : pyval :=
  VDict [ (lit "recipients", VList (map VStr recipients));
          (lit "status", VStr (lit status_word)) ].

Definition group_error (message : pystr) : pyval :=
  VDict [ (lit "status", VStr (lit "error")); (lit "message", VStr message) ].

(** The reply is a response whose status is in the success range. *)
Definition delivered (r : reply) : bool :=
  match r with
  | Responded status _ _ _ => is_success status
  | Failed _ => false
  end.

(** [str(e)] of the exception a reply outside the success range ends in. *)
Definition failure_text `{Runtime} (url : pystr) (r : reply) : pystr :=
  match r with
  | Responded status reason _ _ => httpx_status_message url status reason
  | Failed description => description
  end.

(** The message [forward_outlook_email] records for such a reply. *)
Definition forward_failure_text (r : reply) : pystr :=
  match r with
  | Responded status _ body_text _ => http_error_message status body_text
  | Failed description => lit "Error forwarding email: " ++ description
  end.

Definition post_request (url : pystr) (headers payload : pydict) : request :=
  {| req_method := lit "POST"; req_url := url; req_headers := headers;
     req_params := None; req_json := Some payload |}.

(** Field access on an outcome record. *)
Definition outcome_field (key : pystr) (v : pyval) : option pyval :=
  match v with
  | VDict d => dict_get key d
  | _ => None
  end.

(** The requests of the two services, for a given TO section. *)
Definition send_request `{Runtime} (headers : pydict)
    (subject body content_type : pystr) (cc bcc : list pystr) (to : list pystr)
  : request :=
  post_request send_url headers (build_email_payload to subject body content_type cc bcc).

Definition forward_request `{Runtime} (headers : pydict) (email_id : pystr)
    (cc bcc : list pystr) (additional_message : pystr) (to : list pystr) : request :=
  post_request (forward_url email_id) headers
               (build_forward_payload to cc bcc additional_message).

(** The outcome recorded for a reply, per recipient and per group. *)
Definition send_outcome `{Runtime} (r : reply) (recipient : pystr) : pyval :=
  if delivered r then individual_success "sent" recipient
  else individual_error recipient (failure_text send_url r).

Definition forward_outcome (r : reply) (recipient : pystr) : pyval :=
  if delivered r then individual_success "forwarded" recipient
  else individual_error recipient (forward_failure_text r).

Definition send_group_outcome `{Runtime} (r : reply) (recipients : list pystr) : pyval :=
  if delivered r then group_success "sent" recipients
  else group_error (failure_text send_url r).

Definition forward_group_outcome (r : reply) (recipients : list pystr) : pyval :=
  if delivered r then group_success "forwarded" recipients
  else group_error (forward_failure_text r).

(** A run that completes with one outcome per TO recipient, in the order
    of the TO list: the i-th call is the request for the i-th recipient
    and the i-th outcome is the one its reply calls for. *)
Definition fan_out_report (w : world) (to : list pystr)
    (request_for : pystr -> request) (outcome_for : reply -> pystr -> pyval)
    (run : outcome pyval * list request) : Prop :=
  exists results log,
    run = (Return (complete_result results), log)
    /\ length results = length to
    /\ length log = length to
    /\ forall i recipient,
         to !! i = Some recipient ->
         log !! i = Some (request_for recipient)
         /\ results !! i
            = Some (outcome_for (upstream w i (request_for recipient)) recipient).

(** Every address of the list passes [validate_email_format]. *)
Definition all_valid `{Runtime} (addresses : list pystr) : Prop :=
  forall a, In a addresses -> validate_email_format a = true.

(** A computation that issues no request. *)
Definition silent {A} (m : M A) : Prop := forall log, snd (m log) = log.

(** A computation that ends in a value, not in an exception. *)
Definition returns {A} (m : M A) : Prop := forall log, exists a, fst (m log) = Return a.

(* ================================================================== *)
(** * A concrete runtime and concrete worlds *)
(* ================================================================== *)

Definition ascii_lower (s : pystr) : pystr :=
  map (fun c => if ((65 <=? c) && (c <=? 90))%N then (c + 32)%N else c) s.

(** The text of an [HTTPStatusError] in the shape [httpx] gives it for a
    response that is not a redirect: the kind of error, the status line,
    the URL, and on a second line a link to the documentation of the
    status code. *)
Definition status_line_message (url : pystr) (status : Z) (reason : pystr) : pystr :=
  (if (status / 100 =? 4)%Z then lit "Client error '"
   else if (status / 100 =? 5)%Z then lit "Server error '"
   else if (status / 100 =? 3)%Z then lit "Redirect response '"
   else if (status / 100 =? 1)%Z then lit "Informational response '"
   else lit "Invalid status code '")
  ++ str_of_int status ++ lit " " ++ reason ++ lit "' for url '" ++ url ++ lit "'"
  ++ [10%N]
  ++ lit "For more information check: https://developer.mozilla.org/en-US/docs/Web/HTTP/Status/"
  ++ str_of_int status.

(** ASCII-only text, the default base URL. *)
Definition ascii_runtime : Runtime :=
  {| unicode_isalnum := fun _ => false;
     str_lower := ascii_lower;
     GRAPH_API_URL := lit "https://graph.microsoft.com/v1.0";
     httpx_status_message := status_line_message |}.

Definition accepted : reply := Responded 202 (lit "Accepted") [] (Raise (Exception [])).

Definition throttled : reply :=
  Responded 429 (lit "Too Many Requests") (lit "{quota exceeded}")
            (Return (VDict [])).

(** A cached token; every call is accepted. *)
Definition world_ok : world :=
  {| token := Return (lit "tok"); upstream := fun _ _ => accepted |}.

(** A cached token; the second call (index 1) is throttled. *)
Definition world_second_fails : world :=
  {| token := Return (lit "tok");
     upstream := fun n _ => if Nat.eqb n 1 then throttled else accepted |}.

(** A cached token; every call is throttled. *)
Definition world_throttled : world :=
  {| token := Return (lit "tok"); upstream := fun _ _ => throttled |}.

Definition message_json (id subject : string) : pyval :=
  VDict [ (lit "id", VStr (lit id)); (lit "subject", VStr (lit subject)) ].

(** A cached token; every call is answered with a two-message page. *)
Definition world_inbox : world :=
  {| token := Return (lit "tok");
     upstream := fun _ _ =>
       Responded 200 (lit "OK") []
         (Return (VDict [ (lit "value",
                            VList [ message_json "m1" "Meeting Notes Q1";
                                    message_json "m2" "Lunch" ]) ])) |}.

(** The headers built from the cached token of the worlds above. *)
Definition bearer_headers : pydict :=
  [ (lit "Authorization", VStr (lit "Bearer tok"));
    (lit "Content-Type", VStr (lit "application/json")) ].

(** What [world_throttled] makes of a call on [/me/sendMail]. *)
Definition throttled_send_text : pystr :=
  lit "Client error '429 Too Many Requests' for url 'https://graph.microsoft.com/v1.0/me/sendMail'"
  ++ [10%N]
  ++ lit "For more information check: https://developer.mozilla.org/en-US/docs/Web/HTTP/Status/429".

Definition alice : pystr := lit "alice@example.com".
Definition bob : pystr := lit "bob@example.org".
Definition carol : pystr := lit "carol@example.net".

(* ================================================================== *)
(** * Further notions used in the statements *)
(* ================================================================== *)

(** An address as the normaliser hands it on: it is not empty, it neither
    starts nor ends with a whitespace character, and it holds no comma and
    no semicolon. *)
Definition clean_address (a : pystr) : bool :=
  match a with
  | [] => false
  | c :: _ =>
      negb (is_space c) && negb (is_space (List.last a c))
      && forallb (fun x => negb (Reference.is_separator x)) a
  end.

(** No token is cached and the device flow fails: [get_token()] raises
    the [RuntimeError] of [authenticate_and_get_token]. *)
Definition world_login_failed : world :=
  {| token := Raise (Exception
                       (lit "Authentication failed: The user declined the request"));
     upstream := fun _ _ => accepted |}.

(** No token is cached and none can be had: [get_token()] yields an empty
    token. *)
Definition world_no_token : world :=
  {| token := Return []; upstream := fun _ _ => accepted |}.

(* ================================================================== *)
(** * services/email/reply_email.py *)
(* ================================================================== *)

Definition reply_url `{Runtime} (email_id : pystr) : pystr :=
  GRAPH_API_URL ++ lit "/me/messages/" ++ email_id ++ lit "/reply".

Definition reply_payload (reply_message content_type : pystr) : pydict :=
  [ (lit "message",
      VDict [ (lit "body", VDict [ (lit "contentType", VStr content_type);
                                   (lit "content", VStr reply_message) ]) ]) ].

Definition reply_to_outlook_email `{Runtime} (w : world)
    (email_id reply_message content_type : pystr) : M pyval :=
  headers <~ lift (get_graph_auth_headers w) ;;
  let reply_data := reply_payload reply_message content_type in
  try_except
    (response <~ client_post w (reply_url email_id) reply_data headers ;;
     _ <~ raise_for_status response ;;
     ret (VDict [ (lit "status", VStr (lit "success"));
                  (lit "message", VStr (lit "Reply sent successfully.")) ]))
    (fun e =>
       match e with
       | HTTPStatusError _ status body_text =>
           ret (error_result (http_error_message status body_text))
       | Exception _ =>
           ret (error_result (lit "Error sending reply: " ++ str_exn e))
       end).

(* ================================================================== *)
(** * services/email/delete_email.py *)
(* ================================================================== *)

(** [client.delete(url, headers=headers)] *)
Definition client_delete (w : world) (url : pystr) (headers : pydict) : M response :=
  client_call w {| req_method := lit "DELETE"; req_url := url;
                   req_headers := headers; req_params := None;
                   req_json := None |}.

Definition delete_url `{Runtime} (email_id : pystr) : pystr :=
  GRAPH_API_URL ++ lit "/me/messages/" ++ email_id.

Definition delete_outlook_email `{Runtime} (w : world) (email_id : pystr) : M pyval :=
  headers <~ lift (get_graph_auth_headers w) ;;
  try_except
    (response <~ client_delete w (delete_url email_id) headers ;;
     _ <~ raise_for_status response ;;
     ret (VDict [ (lit "status", VStr (lit "success"));
                  (lit "message", VStr (lit "Deleting email was successfull.")) ]))
    (fun e =>
       match e with
       | HTTPStatusError _ status body_text =>
           ret (error_result (http_error_message status body_text))
       | Exception _ =>
           ret (error_result (lit "Error deleting email: " ++ str_exn e))
       end).

(* ================================================================== *)
(** * server/mcp_email_server.py: the tools that call the services *)
(* ================================================================== *)

(** The addresses of a normalised list, as the services take them.  For a
    string argument every item of the list is a [str], so nothing is
    left out. *)
Definition str_items (items : list pyval) : list pystr :=
  flat_map (fun v => match v with VStr s => [s] | _ => [] end) items.

(** The tool's parameters are declared [str] and [bool]. *)
Definition send_email_tool `{Runtime} (w : world)
    (recipient subject body content_type cc bcc : pystr) (send_individual : bool)
  : M pyval :=
  let to_list := str_items (normalize_email_list (VStr recipient)) in
  let cc_list := str_items (normalize_email_list (VStr cc)) in
  let bcc_list := str_items (normalize_email_list (VStr bcc)) in
  send_outlook_email w to_list subject body content_type send_individual
                     cc_list bcc_list.

Definition forward_email_tool `{Runtime} (w : world)
    (email_id to_recipients cc_recipients bcc_recipients : pystr)
    (additional_message content_type : pystr) (send_individual : bool) : M pyval :=
  let to_list := str_items (normalize_email_list (VStr to_recipients)) in
  let cc_list := str_items (normalize_email_list (VStr cc_recipients)) in
  let bcc_list := str_items (normalize_email_list (VStr bcc_recipients)) in
  forward_outlook_email w email_id to_list cc_list bcc_list
                        additional_message content_type send_individual.

(** [fetch_outlook_emails(folder, is_read, sender, email_id, subject)]:
    [top] keeps its default. *)
Definition fetch_email_tool `{Runtime} (w : world) (folder : pystr)
    (is_read : option bool) (sender email_id subject : option pystr) : M pyval :=
  fetch_outlook_emails w folder is_read sender email_id subject DEFAULT_TOP.

(** [reply_to_outlook_email(email_id, reply_message)]: [content_type]
    keeps its default. *)
Definition reply_email_tool `{Runtime} (w : world) (email_id reply_message : pystr)
  : M pyval :=
  reply_to_outlook_email w email_id reply_message (lit "Text").

Definition delete_email_tool `{Runtime} (w : world) (email_id : pystr) : M pyval :=
  delete_outlook_email w email_id.

(* ================================================================== *)
(** * Further notions used in the statements, continued *)
(* ================================================================== *)

(** Every value the computation can return satisfies [P]. *)
Definition ensures {A} (P : A -> Prop) (m : M A) : Prop :=
  forall log a log', m log = (Return a, log') -> P a.

(** [email.get(key, default)] on a message that is a JSON object. *)
Definition field_or (key : pystr) (default : pyval) (email : pyval) : pyval :=
  match email with
  | VDict d => match dict_get key d with Some x => x | None => default end
  | _ => default
  end.

(** The message is an object whose [subject], when it has one, is a
    string. *)
Definition subject_ok (email : pyval) : bool :=
  match email with
  | VDict d =>
      match dict_get (lit "subject") d with
      | None | Some (VStr _) => true
      | Some _ => false
      end
  | _ => false
  end.

(** The message is an object whose [from], when it has one, is an object
    whose [emailAddress], when it has one, is an object. *)
Definition sender_ok (email : pyval) : bool :=
  match email with
  | VDict d =>
      match dict_get (lit "from") d with
      | None => true
      | Some (VDict sender) =>
          match dict_get (lit "emailAddress") sender with
          | None | Some (VDict _) => true
          | Some _ => false
          end
      | Some _ => false
      end
  | _ => false
  end.

Definition subject_text (email : pyval) : pystr :=
  match field_or (lit "subject") (VStr []) email with
  | VStr s => s
  | _ => []
  end.

(** Every term occurs in the lower-cased subject. *)
Definition matches_subject `{Runtime} (terms : list pystr) (email : pyval) : bool :=
  forallb (fun term => str_contains (str_lower (subject_text email)) term) terms.

Definition sender_address (email : pyval) : pyval :=
  field_or (lit "address") (VStr [])
    (field_or (lit "emailAddress") (VDict [])
       (field_or (lit "from") (VDict []) email)).

(** The compact summary of one message. *)
Definition summary (email : pyval) : pyval :=
  VDict [ (lit "id", field_or (lit "id") (VStr []) email);
          (lit "subject", field_or (lit "subject") (VStr []) email);
          (lit "from", sender_address email);
          (lit "received", field_or (lit "receivedDateTime") (VStr []) email);
          (lit "is_read", field_or (lit "isRead") (VBool false) email);
          (lit "preview", field_or (lit "bodyPreview") (VStr []) email) ].

(** The clauses of the server-side filter. *)
Definition fetch_filters `{Runtime} (is_read : option bool) (sender : option pystr)
  : list pystr :=
  match is_read with
  | Some b => [lit "isRead eq " ++ str_lower (str_of_bool b)]
  | None => []
  end
  ++ match sender with
     | Some s =>
         if truthy_str s then [lit "from/emailAddress/address eq '" ++ s ++ lit "'"]
         else []
     | None => []
     end.

(** The query parameters of a list request: [$top], and [$filter] when
    there is a clause. *)
Definition fetch_params `{Runtime} (is_read : option bool) (sender : option pystr)
    (top : Z) : pydict :=
  (lit "$top", VInt top)
  :: match fetch_filters is_read sender with
     | [] => []
     | filters => [(lit "$filter", VStr (str_join (lit " and ") filters))]
     end.

Definition list_request `{Runtime} (headers : pydict) (folder : pystr)
    (is_read : option bool) (sender : option pystr) (top : Z) : request :=
  {| req_method := lit "GET";
     req_url := GRAPH_API_URL ++ lit "/me/mailFolders/" ++ folder ++ lit "/messages";
     req_headers := headers;
     req_params := Some (fetch_params is_read sender top);
     req_json := None |}.

Definition by_id_request `{Runtime} (headers : pydict) (email_id : pystr) : request :=
  {| req_method := lit "GET";
     req_url := GRAPH_API_URL ++ lit "/me/messages/" ++ email_id;
     req_headers := headers; req_params := None; req_json := None |}.

(** The one request a fetch issues. *)
Definition fetch_request `{Runtime} (headers : pydict) (folder : pystr)
    (is_read : option bool) (sender email_id : option pystr) (top : Z) : request :=
  match email_id with
  | Some id =>
      if truthy_str id then by_id_request headers id
      else list_request headers folder is_read sender top
  | None => list_request headers folder is_read sender top
  end.

(** A page of two messages: one complete, one with no subject
    ([null]). *)
Definition world_null_subject : world :=
  {| token := Return (lit "tok");
     upstream := fun _ _ =>
       Responded 200 (lit "OK") []
         (Return (VDict [ (lit "value",
                            VList [ message_json "m1" "Meeting Notes Q1";
                                    VDict [ (lit "id", VStr (lit "m2"));
                                            (lit "subject", VNone) ] ]) ])) |}.

(** The message the worlds below hold under an id. *)
Definition stored_message : pyval :=
  VDict [ (lit "id", VStr (lit "m7"));
          (lit "subject", VStr (lit "Quarterly report"));
          (lit "from",
            VDict [ (lit "emailAddress",
                      VDict [ (lit "address", VStr (lit "alice@example.com")) ]) ]) ].

(** A cached token; every call is answered with that message. *)
Definition world_message : world :=
  {| token := Return (lit "tok");
     upstream := fun _ _ => Responded 200 (lit "OK") [] (Return stored_message) |}.

(** A text that holds no address: nothing but whitespace, commas and
    semicolons (the empty text is one). *)
Definition blank_text (s : pystr) : bool :=
  forallb (fun c => is_space c || Reference.is_separator c) s.

(* ================================================================== *)
(** * services/auth/graph_auth.py: the token cache and the device flow *)
(* ================================================================== *)

(** The ways [json.load] can fail on a file that was opened, other than
    by a [JSONDecodeError]: the bytes are not text in the encoding of the
    locale ([UnicodeDecodeError]), an integer has more digits than the
    interpreter converts ([ValueError]), the nesting is deeper than the
    recursion limit ([RecursionError]). *)
Inductive load_failure : Type :=
| NotText
| IntegerTooLong (message : pystr)
| NestedTooDeep (message : pystr).

(** What a file holds, as the code that reads it finds out: a JSON text
    ([json.load] returns its value; a number with a fraction is not among
    the values, at the top level it behaves as an integer does),
    something [json.load] rejects with [JSONDecodeError] (the empty file
    and the half-written file among them), something [json.load] fails on
    with another exception, or a file that cannot be opened for reading
    ([OSError], which [IOError] is an alias of). *)
Inductive file_content : Type :=
| Json (data : pyval)
| Malformed
| Unloadable (failure : load_failure)
| Unreadable.

(** What the file system lets the process do: everything; nothing that
    changes it (a directory or a file cannot be created, opened for
    writing or removed: [OSError] before anything changes); or no more
    data (a file can be opened for writing, which empties it, and removed,
    but what is written to it does not reach it: [OSError] from the write
    or the close). *)
Inductive storage_state : Type :=
| Writable
| ReadOnly
| Full.

(** The machine the server runs on.  Both paths the code uses are relative
    to the working directory; files are keyed by the path text, which
    identifies them as long as no link makes two paths name one file.
    [device_flows] counts the device flows started so far. *)
Record machine := {
  files : gmap pystr file_content;
  storage : storage_state;
  device_flows : nat
}.

(** Directories and files can be created, written and removed. *)
Definition writable (m : machine) : bool :=
  match storage m with Writable => true | ReadOnly | Full => false end.

Definition with_files (fs : gmap pystr file_content) (m : machine) : machine :=
  {| files := fs; storage := storage m; device_flows := device_flows m |}.

(** The exceptions of this module, by class.  The message of a
    [RuntimeError] built by an f-string is kept as its literal part and
    the value formatted into it. *)
Inductive auth_exn : Type :=
| ValueError (message : pystr)
| RuntimeError (message : pystr) (formatted : pyval)
| RecursionError (message : pystr)
| UnicodeDecodeError
| KeyError (key : pystr)
| TypeError
| OSError.

(** The exception of a failed [json.load]. *)
Definition load_exception (failure : load_failure) : auth_exn :=
  match failure with
  | NotText => UnicodeDecodeError
  | IntegerTooLong message => ValueError message
  | NestedTooDeep message => RecursionError message
  end.

Inductive attempt (A : Type) : Type :=
| Success (a : A)
| Failure (e : auth_exn).
Arguments Success {A} a.
Arguments Failure {A} e.

(** What MSAL's client gives for one run of the device flow: the
    dictionary of [initiate_device_flow] and that of
    [acquire_token_by_device_flow]. *)
Record identity_provider := {
  device_flow : pydict;
  flow_result : pydict
}.

(** [bool(v)] *)
Definition py_truthy (v : pyval) : bool :=
  match v with
  | VNone => false
  | VBool b => b
  | VInt n => negb (n =? 0)%Z
  | VStr s => truthy_str s
  | VList l => truthy_list l
  | VDict d => truthy_list d
  end.

(** [key in container] for a string [key]: a key of a dictionary, an
    element of a list, a substring of a string; [TypeError] for a value
    that is not a container. *)
Definition py_contains (key : pystr) (container : pyval) : attempt bool :=
  match container with
  | VDict d => Success (dict_has key d)
  | VList l =>
      Success (existsb (fun x => match x with VStr s => str_eqb s key | _ => false end) l)
  | VStr s => Success (str_contains s key)
  | VNone | VBool _ | VInt _ => Failure TypeError
  end.

(** [container[key]] for a string [key]: only a dictionary can be indexed
    by a string. *)
Definition py_getitem (container : pyval) (key : pystr) : attempt pyval :=
  match container with
  | VDict d =>
      match dict_get key d with
      | Some v => Success v
      | None => Failure (KeyError key)
      end
  | _ => Failure TypeError
  end.

Definition TOKEN_CACHE_FILE : pystr := lit "./services/auth/.token.json".

(** The [except] clause catches [JSONDecodeError] and [IOError] only:
    any other exception of [json.load], and a [TypeError] of the
    membership test or of the subscript, leave the function. *)
Definition load_cached_token (m : machine) : attempt pyval :=
  match files m !! TOKEN_CACHE_FILE with
  | None => Success VNone
  | Some Unreadable => Success VNone
  | Some Malformed => Success VNone
  | Some (Unloadable failure) => Failure (load_exception failure)
  | Some (Json data) =>
      match py_contains (lit "access_token") data with
      | Failure e => Failure e
      | Success true => py_getitem data (lit "access_token")
      | Success false => Success VNone
      end
  end.

(** [os.makedirs] and [open(TOKEN_CACHE_FILE, "w")] come first, and the
    latter empties the file; then the body of the [with] looks the key up
    and writes; the [except] clause re-raises what it catches.  So a
    failure after the file was opened leaves it empty or half written. *)
Definition save_token (token_result : pydict) (m : machine) : attempt unit * machine :=
  match storage m with
  | ReadOnly => (Failure OSError, m)
  | Full =>
      (match dict_get (lit "access_token") token_result with
       | None => Failure (KeyError (lit "access_token"))
       | Some _ => Failure OSError
       end,
       with_files (<[TOKEN_CACHE_FILE := Malformed]> (files m)) m)
  | Writable =>
      match dict_get (lit "access_token") token_result with
      | None =>
          (Failure (KeyError (lit "access_token")),
           with_files (<[TOKEN_CACHE_FILE := Malformed]> (files m)) m)
      | Some tok =>
          (Success tt,
           with_files (<[TOKEN_CACHE_FILE := Json (VDict [(lit "access_token", tok)])]>
                         (files m)) m)
      end
  end.

(** [result.get('error_description', 'Unknown authentication error')] *)
Definition error_description (result : pydict) : pyval :=
  match dict_get (lit "error_description") result with
  | Some v => v
  | None => VStr (lit "Unknown authentication error")
  end.

Definition authenticate_and_get_token (idp : identity_provider) (m : machine)
  : attempt pyval * machine :=
  let m := {| files := files m; storage := storage m;
              device_flows := S (device_flows m) |} in
  if negb (dict_has (lit "user_code") (device_flow idp))
  then (Failure (ValueError
                   (lit "Failed to start device flow - check client configuration")), m)
  else
    match dict_get (lit "message") (device_flow idp) with
    | None => (Failure (KeyError (lit "message")), m)
    | Some _ =>
        let result := flow_result idp in
        if dict_has (lit "access_token") result then
          match save_token result m with
          | (Failure e, m') => (Failure e, m')
          | (Success _, m') => (py_getitem (VDict result) (lit "access_token"), m')
          end
        else (Failure (RuntimeError (lit "Authentication failed: ")
                                    (error_description result)), m)
    end.

Definition get_token (idp : identity_provider) (m : machine) : attempt pyval * machine :=
  match load_cached_token m with
  | Failure e => (Failure e, m)
  | Success cached =>
      if py_truthy cached then (Success cached, m)
      else authenticate_and_get_token idp m
  end.

(* ================================================================== *)
(** * server/mcp_email_server.py: login and logout *)
(* ================================================================== *)

Definition login_tool (idp : identity_provider) (m : machine) : attempt pystr * machine :=
  match authenticate_and_get_token idp m with
  | (Failure e, m') => (Failure e, m')
  | (Success _, m') =>
      (Success ([9989%N] ++ lit " Login successful. You can now use Outlook tools."), m')
  end.

Definition logout_token_path : pystr := lit "mcp_server/.token.json".

Definition logout_tool (m : machine) : attempt pystr * machine :=
  match files m !! logout_token_path with
  | Some _ =>
      match storage m with
      | ReadOnly => (Failure OSError, m)
      | Writable | Full =>
          (Success ([128274%N] ++ lit " Logout successful. Access token deleted."),
           with_files (delete logout_token_path (files m)) m)
      end
  | None => (Success ([8505%N; 65039%N] ++ lit " No token was found to delete."), m)
  end.

(* ================================================================== *)
(** * utils/template_utils.py *)
(* ================================================================== *)

(** [s.replace(old, new)] for a non-empty [old]: the occurrences of [old]
    are found from the left and do not overlap; [skip] counts the
    characters of an occurrence still to be passed over. *)
Fixpoint str_replace_go (old new : pystr) (skip : nat) (s : pystr) : pystr :=
  match s with
  | [] => []
  | c :: rest =>
      match skip with
      | S k => str_replace_go old new k rest
      | O =>
          if str_startswith s old
          then new ++ str_replace_go old new (length old - 1) rest
          else c :: str_replace_go old new 0 rest
      end
  end.

(** For an empty [old], Python puts [new] before every character and at
    the end. *)
Definition str_replace (old new s : pystr) : pystr :=
  match old with
  | [] => new ++ concat (map (fun c => c :: new) s)
  | _ :: _ => str_replace_go old new 0 s
  end.

(** [f"{{{{ {key} }}}}"]: the key between [{{ ] and [ }}]. *)
Definition placeholder (key : pystr) : pystr := lit "{{ " ++ key ++ lit " }}".

Section RenderTemplate.
(** [str(value)] *)
Variable str_of_value : pyval -> pystr.

Fixpoint render_template (template : pystr) (context : pydict) : pystr :=
  match context with
  | [] => template
  | (key, value) :: rest =>
      render_template (str_replace (placeholder key) (str_of_value value) template) rest
  end.

End RenderTemplate.

(** [str(value)] for the values whose text does not depend on [repr]. *)
Definition str_of_scalar (v : pyval) : pystr :=
  match v with
  | VStr s => s
  | VInt n => str_of_int n
  | VBool b => lit (if b then "True" else "False")
  | _ => lit "None"
  end.

(* ================================================================== *)
(** * Concrete machines and identity providers *)
(* ================================================================== *)

(** A writable machine with no file on it. *)
Definition machine_empty : machine :=
  {| files := ∅; storage := Writable; device_flows := 0 |}.

(** A token response as MSAL gives it: more than the access token. *)
Definition token_response : pydict :=
  [ (lit "token_type", VStr (lit "Bearer"));
    (lit "access_token", VStr (lit "eyJ0"));
    (lit "refresh_token", VStr (lit "0.AS8")) ].

(** An identity provider whose user completes the device flow. *)
Definition provider_ok : identity_provider :=
  {| device_flow :=
       [ (lit "user_code", VStr (lit "ABC123DEF"));
         (lit "message",
          VStr (lit "To sign in, use a web browser to open the page https://microsoft.com/devicelogin")) ];
     flow_result := token_response |}.

(** An identity provider whose user declines. *)
Definition provider_declined : identity_provider :=
  {| device_flow := device_flow provider_ok;
     flow_result :=
       [ (lit "error", VStr (lit "authorization_declined"));
         (lit "error_description", VStr (lit "The user declined the request")) ] |}.

(** A machine whose cache file holds the JSON text [null]. *)
Definition machine_null_cache : machine :=
  {| files := {[ TOKEN_CACHE_FILE := Json VNone ]};
     storage := Writable; device_flows := 0 |}.

(** A machine with a cached token whose file system takes no more data. *)
Definition machine_full : machine :=
  {| files := {[ TOKEN_CACHE_FILE :=
                   Json (VDict [(lit "access_token", VStr (lit "eyJ0"))]) ]};
     storage := Full; device_flows := 0 |}.

(** A machine whose cache file is not text. *)
Definition machine_binary_cache : machine :=
  {| files := {[ TOKEN_CACHE_FILE := Unloadable NotText ]};
     storage := Writable; device_flows := 0 |}.

(* ================================================================== *)
(** * The matcher and the validator *)
(* ================================================================== *)

Section Matcher.
Context `{Runtime}.

Lemma run_bol p bos s : Re.run (Re.Bol :: p) bos s = bos && Re.run p bos s.
Proof. reflexivity. Qed.

Lemma run_eol p bos s : Re.run (Re.Eol :: p) bos s = Re.at_eol s && Re.run p bos s.
Proof. reflexivity. Qed.

Lemma run_lit c p bos s :
  Re.run (Re.Lit c :: p) bos s = true <->
  exists s', s = c :: s' /\ Re.run p false s' = true.
Proof.
  destruct s as [|c' s']; cbn [Re.run].
  - split; [discriminate | intros (? & ? & _); discriminate].
  - rewrite andb_true_iff, N.eqb_eq. split.
    + intros [-> Hr]. eauto.
    + intros (s'' & Heq & Hr). injection Heq as -> ->. auto.
Qed.

Lemma run_repeat_nil cs m p bos :
  Re.run (Re.Repeat cs m :: p) bos [] = Nat.eqb m 0 && Re.run p bos [].
Proof. reflexivity. Qed.

Lemma run_repeat_cons cs m p bos c s :
  Re.run (Re.Repeat cs m :: p) bos (c :: s) =
  (Re.in_set cs c && Re.run (Re.Repeat cs (pred m) :: p) false s)
  || (Nat.eqb m 0 && Re.run p bos (c :: s)).
Proof. reflexivity. Qed.

(** A repetition takes some prefix made of characters of the class, at
    least [m] of them, and the rest of the pattern matches what is left. *)
Lemma run_repeat cs p s : forall m bos,
  Re.run (Re.Repeat cs m :: p) bos s = true <->
  exists a b, s = a ++ b /\ forallb (Re.in_set cs) a = true /\ m <= length a
              /\ Re.run p (bos && negb (truthy_list a)) b = true.
Proof.
  induction s as [|c s IH]; intros m bos.
  - rewrite run_repeat_nil, andb_true_iff, Nat.eqb_eq. split.
    + intros [-> Hr]. exists [], []. rewrite andb_true_r. auto.
    + intros (a & b & Heq & _ & Hm & Hr).
      symmetry in Heq. apply app_eq_nil in Heq as [-> ->].
      cbn in Hm, Hr. rewrite andb_true_r in Hr. split; [lia | assumption].
  - rewrite run_repeat_cons, orb_true_iff, !andb_true_iff, Nat.eqb_eq, IH.
    split.
    + intros [[Hc (a & b & -> & Ha & Hm & Hr)] | [-> Hr]].
      * exists (c :: a), b. cbn. rewrite Hc, Ha, andb_false_r.
        repeat split; [lia | assumption].
      * exists [], (c :: s). rewrite andb_true_r. auto.
    + intros (a & b & Heq & Ha & Hm & Hr). destruct a as [|c' a].
      * right. cbn in Heq, Hm, Hr. subst b. rewrite andb_true_r in Hr.
        split; [lia | assumption].
      * left. cbn in Heq, Ha, Hm, Hr. injection Heq as <- ->.
        apply andb_true_iff in Ha as [Hc Ha]. rewrite andb_false_r in Hr.
        split; [assumption |]. exists a, b. repeat split; [assumption | lia | assumption].
Qed.

Lemma at_eol_true s : Re.at_eol s = true <-> s = [] \/ s = [10%N].
Proof.
  destruct s as [|c [|c' s]]; cbn.
  - tauto.
  - rewrite N.eqb_eq. split; [intros ->; tauto | intros [?|?]; congruence].
  - split; [discriminate | intros [?|?]; discriminate].
Qed.

Lemma in_set_name c :
  Re.in_set [Re.Word; Re.Chr 46; Re.Chr 45] c = Reference.name_char c.
Proof.
  unfold Re.in_set, Reference.name_char. cbn. rewrite orb_false_r, orb_assoc.
  reflexivity.
Qed.

Lemma in_set_word c : Re.in_set [Re.Word] c = Re.is_word c.
Proof. unfold Re.in_set. cbn. apply orb_false_r. Qed.

End Matcher.

Lemma forallb_pointwise {A} (f g : A -> bool) (l : list A) :
  (forall x, f x = g x) -> forallb f l = forallb g l.
Proof.
  intros Hfg. induction l as [|x l IH]; cbn; [reflexivity |].
  rewrite Hfg, IH. reflexivity.
Qed.

Section Validator.
Context `{Runtime}.

(** What [re.match] accepts for the e-mail pattern: the three parts of
    an address, followed by nothing or by one final newline. *)
Lemma validate_email_format_matches s :
  validate_email_format s = true <->
  exists name domain tld tail : pystr,
    s = name ++ [64%N] ++ domain ++ [46%N] ++ tld ++ tail
    /\ name <> [] /\ forallb Reference.name_char name = true
    /\ domain <> [] /\ forallb Reference.name_char domain = true
    /\ 2 <= length tld /\ forallb Re.is_word tld = true
    /\ (tail = [] \/ tail = [10%N]).
Proof.
  unfold validate_email_format, Re.re_match, email_pattern.
  rewrite run_bol, andb_true_l, run_repeat. split.
  - intros (a & b & -> & Ha & Hm & Hr).
    apply run_lit in Hr as (b' & -> & Hr).
    apply run_repeat in Hr as (d & e & -> & Hd & Hmd & Hr).
    apply run_lit in Hr as (e' & -> & Hr).
    apply run_repeat in Hr as (t & tail & -> & Ht & Hmt & Hr).
    rewrite run_eol, andb_true_iff, at_eol_true in Hr. destruct Hr as [Htail _].
    exists a, d, t, tail.
    rewrite (forallb_pointwise _ _ _ in_set_name) in Ha.
    rewrite (forallb_pointwise _ _ _ in_set_name) in Hd.
    rewrite (forallb_pointwise _ _ _ in_set_word) in Ht.
    repeat split; try assumption.
    + intros ->. cbn in Hm. lia.
    + intros ->. cbn in Hmd. lia.
  - intros (a & d & t & tail & -> & Hna & Ha & Hnd & Hd & Hmt & Ht & Htail).
    exists a, ([64%N] ++ d ++ [46%N] ++ t ++ tail).
    rewrite (forallb_pointwise _ _ _ in_set_name). repeat split; try assumption.
    { destruct a; [congruence | cbn; lia]. }
    apply run_lit. eexists. split; [reflexivity |].
    apply run_repeat. exists d, ([46%N] ++ t ++ tail).
    rewrite (forallb_pointwise _ _ _ in_set_name). repeat split; try assumption.
    { destruct d; [congruence | cbn; lia]. }
    apply run_lit. eexists. split; [reflexivity |].
    apply run_repeat. exists t, tail.
    rewrite (forallb_pointwise _ _ _ in_set_word). repeat split; try assumption.
    rewrite run_eol, andb_true_iff, at_eol_true. split; [assumption | reflexivity].
Qed.

(** The validator accepts exactly the full matches and the full matches
    followed by one newline. *)
Theorem validate_email_format_spec s :
  validate_email_format s = true <->
  Reference.full_match s \/ exists p, s = p ++ [10%N] /\ Reference.full_match p.
Proof.
  rewrite validate_email_format_matches. unfold Reference.full_match. split.
  - intros (a & d & t & tail & -> & Hrest).
    destruct Hrest as (? & ? & ? & ? & ? & ? & [-> | ->]).
    + left. exists a, d, t. rewrite app_nil_r. auto 10.
    + right. exists (a ++ [64%N] ++ d ++ [46%N] ++ t). split.
      * rewrite <- !app_assoc. reflexivity.
      * exists a, d, t. auto 10.
  - intros [(a & d & t & -> & Hrest) | (p & -> & a & d & t & -> & Hrest)].
    + exists a, d, t, []. rewrite app_nil_r. intuition.
    + exists a, d, t, [10%N]. rewrite <- !app_assoc. intuition.
Qed.

(** A full match ends in a word character. *)
Lemma full_match_last s :
  Reference.full_match s -> exists front c, s = front ++ [c] /\ Re.is_word c = true.
Proof.
  intros (a & d & t & -> & _ & _ & _ & _ & Hlen & Ht).
  destruct (exists_last (l := t)) as (t' & c & ->).
  { intros ->. cbn in Hlen. lia. }
  exists (a ++ [64%N] ++ d ++ [46%N] ++ t'), c. split.
  - rewrite <- !app_assoc. reflexivity.
  - rewrite forallb_app in Ht. apply andb_true_iff in Ht as [_ Hc].
    cbn in Hc. rewrite andb_true_r in Hc. exact Hc.
Qed.

Lemma full_match_no_trailing_newline p : ~ Reference.full_match (p ++ [10%N]).
Proof.
  intros Hm. apply full_match_last in Hm as (front & c & Heq & Hc).
  apply app_inj_tail in Heq as [_ <-]. discriminate Hc.
Qed.

End Validator.

(** C5 (the code departs from it): the validator accepts a string that is
    a valid address followed by one newline, [a@b.co] and a line feed,
    although that string is not a full match of the pattern: [$] also
    matches just before a final newline. *)
Theorem validate_email_format_trailing_newline `{Runtime} :
  validate_email_format (lit "a@b.co" ++ [10%N]) = true
  /\ ~ Reference.full_match (lit "a@b.co" ++ [10%N]).
Proof.
  split.
  - reflexivity.
  - apply full_match_no_trailing_newline.
Qed.

(** Every full match is accepted; the converse is what fails. *)
Lemma full_match_accepted `{Runtime} s :
  Reference.full_match s -> validate_email_format s = true.
Proof. intros Hm. apply validate_email_format_spec. left. exact Hm. Qed.

Example validate_examples :
  map (@validate_email_format ascii_runtime)
      [lit "good@x.com"; lit "bad"; lit "a@b.c"; lit "a.b-c@d.e.fg"; lit "a@b.co "]
  = [true; false; false; true; false].
Proof. reflexivity. Qed.

(* ================================================================== *)
(** * The normaliser *)
(* ================================================================== *)

Section Normalizer.
Context `{Runtime}.

Lemma in_set_separator c :
  Re.in_set separator_class c = Reference.is_separator c.
Proof.
  unfold Re.in_set, Reference.is_separator. cbn.
  rewrite orb_false_r. apply orb_comm.
Qed.

Lemma split_on_separators_cons s :
  exists piece pieces, Reference.split_on_separators s = piece :: pieces.
Proof.
  destruct s as [|c s]; cbn; [eauto |].
  destruct (Reference.is_separator c); [eauto |].
  destruct (Reference.split_on_separators s); eauto.
Qed.

(** The scan with an open piece is the structural split with that piece
    put in front of the first one. *)
Lemma re_split_go_reference s : forall piece,
  re_split_go separator_class piece s =
  match Reference.split_on_separators s with
  | first :: pieces => (piece ++ first) :: pieces
  | [] => [piece]
  end.
Proof.
  induction s as [|c s IH]; intros piece;
    cbn [re_split_go Reference.split_on_separators].
  - rewrite app_nil_r. reflexivity.
  - rewrite in_set_separator. destruct (Reference.is_separator c).
    + rewrite IH, app_nil_r.
      destruct (split_on_separators_cons s) as (first & pieces & ->).
      reflexivity.
    + rewrite IH.
      destruct (split_on_separators_cons s) as (first & pieces & ->).
      rewrite <- app_assoc. reflexivity.
Qed.

Lemma re_split_reference s :
  re_split separator_class s = Reference.split_on_separators s.
Proof.
  unfold re_split. rewrite re_split_go_reference.
  destruct (split_on_separators_cons s) as (first & pieces & ->). reflexivity.
Qed.

(** Filtering on the stripped piece and then stripping is stripping and
    then filtering. *)
Lemma strip_filter_commute (pieces : list pystr) :
  map (fun email => VStr (str_strip email))
      (List.filter (fun email => truthy_str (str_strip email)) pieces)
  = map VStr (List.filter truthy_str (map str_strip pieces)).
Proof.
  induction pieces as [|piece pieces IH]; cbn; [reflexivity |].
  destruct (truthy_str (str_strip piece)); cbn; rewrite IH; reflexivity.
Qed.

End Normalizer.

(** ** The reference definitions of stripping *)

Lemma is_space_whitespace (c : N) : is_space c = Reference.is_whitespace c.
Proof.
  apply eq_true_iff_eq.
  unfold is_space, Reference.is_whitespace, Reference.whitespace. cbn [existsb].
  rewrite !orb_true_iff, !andb_true_iff, !N.leb_le, !N.eqb_eq. lia.
Qed.

Lemma str_lstrip_reference (s : pystr) :
  str_lstrip s = Reference.without_leading_whitespace s.
Proof.
  induction s as [|c s IH]; [reflexivity |].
  cbn [str_lstrip Reference.without_leading_whitespace].
  rewrite <- is_space_whitespace, IH. reflexivity.
Qed.

(** Stripping on the left a text that got one more character at its
    end. *)
Lemma str_lstrip_snoc (s : pystr) (c : N) :
  str_lstrip (s ++ [c]) =
  match str_lstrip s with
  | [] => if is_space c then [] else [c]
  | kept => kept ++ [c]
  end.
Proof.
  induction s as [|x s IH]; cbn [app str_lstrip].
  - destruct (is_space c); reflexivity.
  - destruct (is_space x); [exact IH | reflexivity].
Qed.

Lemma str_rstrip_reference (s : pystr) :
  str_rstrip s = Reference.without_trailing_whitespace s.
Proof.
  unfold str_rstrip. induction s as [|c s IH]; [reflexivity |].
  cbn [rev Reference.without_trailing_whitespace].
  rewrite str_lstrip_snoc, <- IH, <- is_space_whitespace.
  destruct (str_lstrip (rev s)) as [|x kept] eqn:Hkept.
  - cbn [rev]. destruct (is_space c); reflexivity.
  - rewrite rev_app_distr. cbn [rev app].
    destruct (rev kept ++ [x]) as [|y l] eqn:Hrev; [| reflexivity].
    apply app_eq_nil in Hrev as [_ Hx]. discriminate Hx.
Qed.

Lemma str_strip_reference (s : pystr) : str_strip s = Reference.stripped s.
Proof.
  unfold str_strip, Reference.stripped.
  rewrite str_rstrip_reference, str_lstrip_reference. reflexivity.
Qed.

Lemma truthy_str_reference (s : pystr) :
  truthy_str s = negb (Reference.became_empty s).
Proof. destruct s; reflexivity. Qed.

Lemma strip_and_drop_reference (pieces : list pystr) :
  List.filter truthy_str (map str_strip pieces)
  = List.filter (fun piece => negb (Reference.became_empty piece))
                (map Reference.stripped pieces).
Proof.
  induction pieces as [|piece pieces IH]; [reflexivity |].
  cbn [map List.filter].
  rewrite <- str_strip_reference, <- truthy_str_reference, IH. reflexivity.
Qed.

(** C6: for every Python value, [normalize_email_list] returns what the
    reference definition returns: a string is split on commas and
    semicolons, the pieces are stripped of the whitespace at their two
    ends, the pieces that became empty are dropped and the order is kept;
    a list comes back unchanged; anything else gives the empty list.  The
    reference definition has its own splitting, its own list of whitespace
    characters, its own stripping and its own test for an empty piece.
    The function is total: no branch raises. *)
Theorem normalize_email_list_reference `{Runtime} (value : pyval) :
  normalize_email_list value = Reference.normalize value.
Proof.
  destruct value as [| b | n | s | l | d]; try reflexivity.
  unfold normalize_email_list, Reference.normalize.
  rewrite re_split_reference, strip_filter_commute, strip_and_drop_reference.
  reflexivity.
Qed.

Example normalize_example :
  @normalize_email_list ascii_runtime (VStr (lit "a@x.com; b@x.com, ,c@x.com"))
  = [VStr (lit "a@x.com"); VStr (lit "b@x.com"); VStr (lit "c@x.com")].
Proof. reflexivity. Qed.

Example normalize_list_example :
  @normalize_email_list ascii_runtime (VList [VStr (lit " a@x.com "); VNone])
  = [VStr (lit " a@x.com "); VNone].
Proof. reflexivity. Qed.

(* ================================================================== *)
(** * The payload builders *)
(* ================================================================== *)

(** C7: the forward payload has the [ccRecipients] key exactly when [cc]
    is non-empty, and the [bccRecipients] key exactly when [bcc] is
    non-empty, so both are left out for empty lists; the message payload
    always has [toRecipients], [ccRecipients] and [bccRecipients] under
    [message], each holding the rendered list, which is the empty list
    for an empty [cc] or [bcc]. *)
Theorem payload_recipient_keys
    (to cc bcc : list pystr) (additional_message subject body content_type : pystr) :
  dict_has (lit "ccRecipients") (build_forward_payload to cc bcc additional_message)
    = truthy_list cc
  /\ dict_has (lit "bccRecipients") (build_forward_payload to cc bcc additional_message)
    = truthy_list bcc
  /\ (exists message,
        dict_get (lit "message")
                 (build_email_payload to subject body content_type cc bcc)
          = Some (VDict message)
        /\ dict_get (lit "toRecipients") message = Some (VList (build_recipients to))
        /\ dict_get (lit "ccRecipients") message = Some (VList (build_recipients cc))
        /\ dict_get (lit "bccRecipients") message = Some (VList (build_recipients bcc)))
  /\ build_recipients [] = [].
Proof.
  repeat split.
  - destruct cc, bcc; reflexivity.
  - destruct cc, bcc; reflexivity.
  - eexists. repeat split; reflexivity.
Qed.

Example forward_payload_without_copies :
  build_forward_payload [alice] [] [] []
  = [ (lit "comment", VStr []);
      (lit "toRecipients",
        VList [VDict [(lit "emailAddress", VDict [(lit "address", VStr alice)])]]) ].
Proof. reflexivity. Qed.

Example message_payload_without_copies :
  dict_get (lit "message") (build_email_payload [alice] (lit "s") (lit "b") (lit "Text") [] [])
  = Some (VDict [ (lit "subject", VStr (lit "s"));
                  (lit "body", VDict [ (lit "contentType", VStr (lit "Text"));
                                       (lit "content", VStr (lit "b")) ]);
                  (lit "toRecipients",
                    VList [VDict [(lit "emailAddress",
                                    VDict [(lit "address", VStr alice)])]]);
                  (lit "ccRecipients", VList []);
                  (lit "bccRecipients", VList []) ]).
Proof. reflexivity. Qed.

(* ================================================================== *)
(** * The delivery fan-out *)
(* ================================================================== *)

Section Orchestrator.
Context `{Runtime}.
Variable w : world.
Variable headers : pydict.

Section Send.
Variables (subject body content_type : pystr) (cc bcc : list pystr).

Local Abbreviation request_for to :=
  (send_request headers subject body content_type cc bcc to).

Lemma send_to_one_run recipient results log :
  send_to_one w subject body content_type cc bcc headers recipient results log
  = (Return (results
             ++ [send_outcome (upstream w (length log) (request_for [recipient]))
                              recipient]),
     log ++ [request_for [recipient]]).
Proof.
  unfold send_to_one, try_except, bind, client_post, client_call,
    send_outcome, send_request, post_request.
  destruct (upstream w (length log) _) as [status reason body_text body_json | d];
    cbn [delivered failure_text]; [| reflexivity].
  unfold raise_for_status. cbn [status_code resp_url reason_phrase text].
  destruct (is_success status); reflexivity.
Qed.

Lemma send_individually_run recipients : forall results log,
  send_individually w subject body content_type cc bcc headers recipients results log
  = (Return (results
             ++ imap (fun i r =>
                        send_outcome (upstream w (length log + i) (request_for [r])) r)
                     recipients),
     log ++ map (fun r => request_for [r]) recipients).
Proof.
  induction recipients as [|r rest IH]; intros results log; cbn [send_individually].
  - cbn. rewrite !app_nil_r. reflexivity.
  - unfold bind at 1. rewrite send_to_one_run, IH.
    rewrite length_app. cbn [length map imap].
    rewrite <- !app_assoc. cbn [app]. rewrite Nat.add_0_r.
    do 4 f_equal. apply imap_ext. intros i x _. cbn.
    replace (length log + 1 + i) with (length log + S i) by lia.
    reflexivity.
Qed.

Lemma send_as_group_run recipients results log :
  send_as_group w subject body content_type cc bcc headers recipients results log
  = (Return (results
             ++ [send_group_outcome (upstream w (length log) (request_for recipients))
                                    recipients]),
     log ++ [request_for recipients]).
Proof.
  unfold send_as_group, try_except, bind, client_post, client_call,
    send_group_outcome, send_request, post_request.
  destruct (upstream w (length log) _) as [status reason body_text body_json | d];
    cbn [delivered failure_text]; [| reflexivity].
  unfold raise_for_status. cbn [status_code resp_url reason_phrase text].
  destruct (is_success status); reflexivity.
Qed.
End Send.

Section Forward.
Variable email_id : pystr.
Variables (cc_recipients bcc_recipients : list pystr).
Variable additional_message : pystr.

Local Abbreviation request_for to :=
  (forward_request headers email_id cc_recipients bcc_recipients
                   additional_message to).

Lemma forward_to_one_run recipient results log :
  forward_to_one w email_id cc_recipients bcc_recipients additional_message
                 headers recipient results log
  = (Return (results
             ++ [forward_outcome (upstream w (length log) (request_for [recipient]))
                                 recipient]),
     log ++ [request_for [recipient]]).
Proof.
  unfold forward_to_one, try_except, bind, client_post, client_call,
    forward_outcome, forward_request, post_request.
  destruct (upstream w (length log) _) as [status reason body_text body_json | d];
    cbn [delivered forward_failure_text]; [| reflexivity].
  unfold raise_for_status. cbn [status_code resp_url reason_phrase text].
  destruct (is_success status); reflexivity.
Qed.

Lemma forward_individually_run to_recipients : forall results log,
  forward_individually w email_id cc_recipients bcc_recipients additional_message
                       headers to_recipients results log
  = (Return (results
             ++ imap (fun i r =>
                        forward_outcome
                          (upstream w (length log + i) (request_for [r])) r)
                     to_recipients),
     log ++ map (fun r => request_for [r]) to_recipients).
Proof.
  induction to_recipients as [|r rest IH]; intros results log;
    cbn [forward_individually].
  - cbn. rewrite !app_nil_r. reflexivity.
  - unfold bind at 1. rewrite forward_to_one_run, IH.
    rewrite length_app. cbn [length map imap].
    rewrite <- !app_assoc. cbn [app]. rewrite Nat.add_0_r.
    do 4 f_equal. apply imap_ext. intros i x _. cbn.
    replace (length log + 1 + i) with (length log + S i) by lia.
    reflexivity.
Qed.

Lemma forward_as_group_run to_recipients results log :
  forward_as_group w email_id cc_recipients bcc_recipients additional_message
                   headers to_recipients results log
  = (Return (results
             ++ [forward_group_outcome
                   (upstream w (length log) (request_for to_recipients))
                   to_recipients]),
     log ++ [request_for to_recipients]).
Proof.
  unfold forward_as_group, try_except, bind, client_post, client_call,
    forward_group_outcome, forward_request, post_request.
  destruct (upstream w (length log) _) as [status reason body_text body_json | d];
    cbn [delivered forward_failure_text]; [| reflexivity].
  unfold raise_for_status. cbn [status_code resp_url reason_phrase text].
  destruct (is_success status); reflexivity.
Qed.
End Forward.

Lemma lookup_map {A B} (f : A -> B) (l : list A) i :
  map f l !! i = f <$> (l !! i).
Proof.
  revert i. induction l as [|x l IH]; intros [|i]; cbn; auto.
Qed.

(** The run that issues the recipients' requests in order and records
    what each reply calls for is a fan-out report. *)
Lemma fan_out_report_intro (to : list pystr) request_for outcome_for :
  fan_out_report w to request_for outcome_for
    (Return (complete_result
               (imap (fun i r => outcome_for (upstream w i (request_for r)) r) to)),
     map request_for to).
Proof.
  eexists _, _. split; [reflexivity |].
  rewrite length_imap, length_map. split; [reflexivity |]. split; [reflexivity |].
  intros i recipient Hto. split.
  - rewrite lookup_map, Hto. reflexivity.
  - rewrite list_lookup_imap, Hto. reflexivity.
Qed.

Hypothesis authenticated : get_graph_auth_headers w = Return headers.

(** The three ways [send_outlook_email] ends once the headers are there. *)
Lemma send_outlook_email_run recipients subject body content_type
    (send_individual : bool) cc bcc :
  send_outlook_email w recipients subject body content_type send_individual cc bcc []
  = let invalid := invalid_addresses (recipients ++ cc ++ bcc) in
    let request_for := send_request headers subject body content_type cc bcc in
    if truthy_list invalid
    then (Return (error_result (invalid_message invalid)), [])
    else if send_individual
    then (Return (complete_result
                    (imap (fun i r =>
                             send_outcome (upstream w i (request_for [r])) r)
                          recipients)),
          map (fun r => request_for [r]) recipients)
    else (Return (complete_result
                    [send_group_outcome (upstream w 0 (request_for recipients))
                                        recipients]),
          [request_for recipients]).
Proof.
  unfold send_outlook_email, bind at 1, lift. rewrite authenticated. cbv zeta.
  destruct (truthy_list _); [reflexivity |].
  unfold bind. destruct send_individual.
  - rewrite send_individually_run. reflexivity.
  - rewrite send_as_group_run. reflexivity.
Qed.

(** The four ways [forward_outlook_email] ends once the headers are there. *)
Lemma forward_outlook_email_run email_id to_recipients cc_recipients
    bcc_recipients additional_message content_type (send_individual : bool) :
  forward_outlook_email w email_id to_recipients cc_recipients bcc_recipients
                        additional_message content_type send_individual []
  = let invalid :=
      invalid_addresses (to_recipients ++ cc_recipients ++ bcc_recipients) in
    let request_for :=
      forward_request headers email_id cc_recipients bcc_recipients
                      additional_message in
    if truthy_list invalid
    then (Return (error_result (invalid_message invalid)), [])
    else if negb (truthy_list to_recipients)
    then (Return (error_result (lit "At least one TO recipient is required")), [])
    else if send_individual
    then (Return (complete_result
                    (imap (fun i r =>
                             forward_outcome (upstream w i (request_for [r])) r)
                          to_recipients)),
          map (fun r => request_for [r]) to_recipients)
    else (Return (complete_result
                    [forward_group_outcome (upstream w 0 (request_for to_recipients))
                                           to_recipients]),
          [request_for to_recipients]).
Proof.
  unfold forward_outlook_email, bind at 1, lift. rewrite authenticated. cbv zeta.
  destruct (truthy_list (invalid_addresses _)); [reflexivity |].
  destruct (negb (truthy_list to_recipients)); [reflexivity |].
  unfold bind. destruct send_individual.
  - rewrite forward_individually_run. reflexivity.
  - rewrite forward_as_group_run. reflexivity.
Qed.
End Orchestrator.

(* ================================================================== *)
(** * Validation before delivery *)
(* ================================================================== *)

Lemma truthy_list_false {A} (l : list A) : truthy_list l = false <-> l = [].
Proof. destruct l; cbn; split; congruence. Qed.

Lemma truthy_list_true {A} (l : list A) : truthy_list l = true <-> l <> [].
Proof. destruct l; cbn; split; congruence. Qed.

Lemma all_valid_invalid_addresses `{Runtime} (addresses : list pystr) :
  all_valid addresses <-> invalid_addresses addresses = [].
Proof.
  unfold all_valid, invalid_addresses.
  induction addresses as [|a l IH]; cbn [List.filter In].
  - split; [reflexivity | intros _ ? []].
  - destruct (validate_email_format a) eqn:Ha; cbn [negb].
    + rewrite <- IH. split.
      * intros Hall b Hb. apply Hall. right. exact Hb.
      * intros Hall b [<- | Hb]; [exact Ha | apply Hall, Hb].
    + split; [| discriminate].
      intros Hall. specialize (Hall a (or_introl eq_refl)). congruence.
Qed.

Lemma invalid_addresses_found `{Runtime} (addresses : list pystr) a :
  In a addresses -> validate_email_format a = false ->
  In a (invalid_addresses addresses).
Proof.
  intros Hin Ha. unfold invalid_addresses. apply filter_In.
  split; [exact Hin |]. rewrite Ha. reflexivity.
Qed.

(** ** Substrings *)

Lemma str_startswith_app (a rest : pystr) : str_startswith (a ++ rest) a = true.
Proof.
  induction a as [|c a IH]; cbn; [reflexivity |].
  rewrite N.eqb_refl, IH. reflexivity.
Qed.

Lemma str_contains_app (front a rest : pystr) :
  str_contains (front ++ a ++ rest) a = true.
Proof.
  induction front as [|c front IH]; cbn [app].
  - destruct (a ++ rest) eqn:E; cbn; rewrite <- E, str_startswith_app; reflexivity.
  - cbn [str_contains]. rewrite IH. apply orb_true_r.
Qed.

Lemma str_join_contains (sep : pystr) (parts : list pystr) a :
  In a parts -> exists front rest, str_join sep parts = front ++ a ++ rest.
Proof.
  induction parts as [|p parts IH]; intros Hin; [destruct Hin |].
  destruct parts as [|q parts].
  - destruct Hin as [<- | []]. exists [], []. cbn. rewrite app_nil_r. reflexivity.
  - destruct Hin as [<- | Hin].
    + exists [], (sep ++ str_join sep (q :: parts)). reflexivity.
    + destruct (IH Hin) as (front & rest & Heq).
      exists (p ++ sep ++ front), rest.
      change (str_join sep (p :: q :: parts))
        with (p ++ sep ++ str_join sep (q :: parts)).
      rewrite Heq, <- !app_assoc. reflexivity.
Qed.

(** The rejection message names every rejected address. *)
Lemma invalid_message_lists (invalid : list pystr) :
  forallb (fun a => str_contains (invalid_message invalid) a) invalid = true.
Proof.
  apply forallb_forall. intros a Hin. unfold invalid_message.
  destruct (str_join_contains (lit ", ") invalid a Hin) as (front & rest & ->).
  rewrite app_assoc. apply str_contains_app.
Qed.

(* ================================================================== *)
(** * Send and forward: the delivery results *)
(* ================================================================== *)

(** When no token can be had, the exception of the token collaborator
    leaves both services before anything else happens. *)
Lemma send_without_token `{Runtime} (w : world) (e : exn)
    (to cc bcc : list pystr) (subject body content_type : pystr)
    (send_individual : bool) :
  get_graph_auth_headers w = Raise e ->
  send_outlook_email w to subject body content_type send_individual cc bcc []
  = (Raise e, []).
Proof.
  intros Hauth. unfold send_outlook_email, bind, lift. rewrite Hauth. reflexivity.
Qed.

Lemma forward_without_token `{Runtime} (w : world) (e : exn)
    (email_id : pystr) (to cc bcc : list pystr)
    (additional_message content_type : pystr) (send_individual : bool) :
  get_graph_auth_headers w = Raise e ->
  forward_outlook_email w email_id to cc bcc additional_message content_type
                        send_individual []
  = (Raise e, []).
Proof.
  intros Hauth. unfold forward_outlook_email, bind, lift. rewrite Hauth. reflexivity.
Qed.

(** C1, as the code has it.  Take an Individual-mode send whose addresses
    are all valid, and an Individual-mode forward whose addresses are all
    valid and whose TO list is not empty.  When the headers are obtained,
    each completes with one outcome per TO recipient in the order of the
    TO list: the i-th call is the request addressed to the i-th recipient
    alone, whatever the earlier replies were, and the i-th outcome is the
    success record of that recipient when the i-th reply is in the success
    range and the error record of that recipient otherwise.  When the
    headers are not obtained, each raises the exception of the token
    collaborator and issues no request. *)
Theorem individual_mode_report `{Runtime} (w : world)
    (recipients cc bcc : list pystr) (subject body content_type : pystr)
    (email_id : pystr) (to_recipients cc_recipients bcc_recipients : list pystr)
    (additional_message forward_content_type : pystr) :
  all_valid (recipients ++ cc ++ bcc) ->
  all_valid (to_recipients ++ cc_recipients ++ bcc_recipients) ->
  to_recipients <> [] ->
  match get_graph_auth_headers w with
  | Return headers =>
      fan_out_report w recipients
        (fun r => send_request headers subject body content_type cc bcc [r])
        send_outcome
        (send_outlook_email w recipients subject body content_type true cc bcc [])
      /\ fan_out_report w to_recipients
           (fun r => forward_request headers email_id cc_recipients bcc_recipients
                                     additional_message [r])
           forward_outcome
           (forward_outlook_email w email_id to_recipients cc_recipients
                                  bcc_recipients additional_message
                                  forward_content_type true [])
  | Raise e =>
      send_outlook_email w recipients subject body content_type true cc bcc []
        = (Raise e, [])
      /\ forward_outlook_email w email_id to_recipients cc_recipients bcc_recipients
                               additional_message forward_content_type true []
         = (Raise e, [])
  end.
Proof.
  intros Hsend Hforward Hto.
  destruct (get_graph_auth_headers w) as [headers | e] eqn:Hauth;
    [| split; [apply send_without_token | apply forward_without_token];
       exact Hauth].
  apply all_valid_invalid_addresses in Hsend, Hforward.
  apply truthy_list_true in Hto. split.
  - rewrite (send_outlook_email_run w headers Hauth). cbv zeta.
    rewrite Hsend. cbn [truthy_list]. apply fan_out_report_intro.
  - rewrite (forward_outlook_email_run w headers Hauth). cbv zeta.
    rewrite Hforward, Hto. cbn [truthy_list negb]. apply fan_out_report_intro.
Qed.

(** C2, as the code has it.  Take a send or a forward, in either delivery
    mode, in which some address of TO, CC or BCC fails the format rule.
    When the headers are obtained, it returns the top-level error whose
    message is built from the failing addresses and contains each of
    them; when the headers are not obtained, it raises the exception of
    the token collaborator, which comes before the validation.  In both
    cases the log of requests stays empty. *)
Theorem invalid_address_rejected `{Runtime} (w : world)
    (to cc bcc : list pystr) (subject body content_type : pystr)
    (email_id additional_message : pystr) (send_individual : bool) (a : pystr) :
  In a (to ++ cc ++ bcc) ->
  validate_email_format a = false ->
  let invalid := invalid_addresses (to ++ cc ++ bcc) in
  match get_graph_auth_headers w with
  | Return _ =>
      send_outlook_email w to subject body content_type send_individual cc bcc []
        = (Return (error_result (invalid_message invalid)), [])
      /\ forward_outlook_email w email_id to cc bcc additional_message content_type
                               send_individual []
         = (Return (error_result (invalid_message invalid)), [])
  | Raise e =>
      send_outlook_email w to subject body content_type send_individual cc bcc []
        = (Raise e, [])
      /\ forward_outlook_email w email_id to cc bcc additional_message content_type
                               send_individual []
         = (Raise e, [])
  end
  /\ In a invalid
  /\ forallb (fun bad => str_contains (invalid_message invalid) bad) invalid = true.
Proof.
  intros Hin Ha invalid.
  assert (Hbad : In a invalid) by (apply invalid_addresses_found; assumption).
  assert (Htruthy : truthy_list invalid = true).
  { apply truthy_list_true. intros Hnil. rewrite Hnil in Hbad. destruct Hbad. }
  split; [| split; [exact Hbad | apply invalid_message_lists]].
  destruct (get_graph_auth_headers w) as [headers | e] eqn:Hauth;
    [| split; [apply send_without_token | apply forward_without_token];
       exact Hauth].
  split.
  - rewrite (send_outlook_email_run w headers Hauth). cbv zeta.
    fold invalid. rewrite Htruthy. reflexivity.
  - rewrite (forward_outlook_email_run w headers Hauth). cbv zeta.
    fold invalid. rewrite Htruthy. reflexivity.
Qed.

(** C3, as the code has it.  Take a Group-mode send whose addresses are
    all valid, and a Group-mode forward whose addresses are all valid and
    whose TO list is not empty.  When the headers are obtained, each
    issues one request carrying the whole TO list and completes with
    exactly one outcome: the group record with the full TO list and status
    [sent], respectively [forwarded], when the reply is in the success
    range, and otherwise an error record, which has neither a [recipient]
    nor a [recipients] field.  When the headers are not obtained, each
    raises the exception of the token collaborator and issues no
    request. *)
Theorem group_mode_single_outcome `{Runtime} (w : world)
    (recipients cc bcc : list pystr) (subject body content_type : pystr)
    (email_id : pystr) (to_recipients cc_recipients bcc_recipients : list pystr)
    (additional_message forward_content_type : pystr) :
  all_valid (recipients ++ cc ++ bcc) ->
  all_valid (to_recipients ++ cc_recipients ++ bcc_recipients) ->
  to_recipients <> [] ->
  match get_graph_auth_headers w with
  | Return headers =>
      let send_req :=
        send_request headers subject body content_type cc bcc recipients in
      let forward_req :=
        forward_request headers email_id cc_recipients bcc_recipients
                        additional_message to_recipients in
      send_outlook_email w recipients subject body content_type false cc bcc []
        = (Return (complete_result
                     [if delivered (upstream w 0 send_req)
                      then group_success "sent" recipients
                      else group_error
                             (failure_text send_url (upstream w 0 send_req))]),
           [send_req])
      /\ forward_outlook_email w email_id to_recipients cc_recipients bcc_recipients
                               additional_message forward_content_type false []
         = (Return (complete_result
                      [if delivered (upstream w 0 forward_req)
                       then group_success "forwarded" to_recipients
                       else group_error
                              (forward_failure_text (upstream w 0 forward_req))]),
            [forward_req])
  | Raise e =>
      send_outlook_email w recipients subject body content_type false cc bcc []
        = (Raise e, [])
      /\ forward_outlook_email w email_id to_recipients cc_recipients bcc_recipients
                               additional_message forward_content_type false []
         = (Raise e, [])
  end
  /\ (forall message,
        outcome_field (lit "recipient") (group_error message) = None
        /\ outcome_field (lit "recipients") (group_error message) = None)
  /\ (forall status_word,
        outcome_field (lit "recipients") (group_success status_word recipients)
        = Some (VList (map VStr recipients))).
Proof.
  intros Hsend Hforward Hto.
  split; [| split; [intros message; split; reflexivity | reflexivity]].
  destruct (get_graph_auth_headers w) as [headers | e] eqn:Hauth;
    [| split; [apply send_without_token | apply forward_without_token];
       exact Hauth].
  apply all_valid_invalid_addresses in Hsend, Hforward.
  apply truthy_list_true in Hto. cbv zeta. split.
  - rewrite (send_outlook_email_run w headers Hauth). cbv zeta.
    rewrite Hsend. reflexivity.
  - rewrite (forward_outlook_email_run w headers Hauth). cbv zeta.
    rewrite Hforward, Hto. reflexivity.
Qed.

(** C4, as the code has it.  A forward with an empty TO list issues no
    request, in either delivery mode and whatever CC and BCC hold.  When
    the headers are obtained, it returns a top-level error: the error
    names the invalid addresses when CC or BCC has one, and asks for a TO
    recipient otherwise.  When the headers are not obtained, it raises the
    exception of the token collaborator, which comes before the guard. *)
Theorem forward_empty_to_rejected `{Runtime} (w : world)
    (email_id : pystr) (cc_recipients bcc_recipients : list pystr)
    (additional_message content_type : pystr) (send_individual : bool) :
  let invalid := invalid_addresses ([] ++ cc_recipients ++ bcc_recipients) in
  forward_outlook_email w email_id [] cc_recipients bcc_recipients
                        additional_message content_type send_individual []
  = (match get_graph_auth_headers w with
     | Return _ =>
         Return (error_result
                   (if truthy_list invalid then invalid_message invalid
                    else lit "At least one TO recipient is required"))
     | Raise e => Raise e
     end,
     []).
Proof.
  intros invalid.
  destruct (get_graph_auth_headers w) as [headers | e] eqn:Hauth.
  - rewrite (forward_outlook_email_run w headers Hauth). cbv zeta. fold invalid.
    destruct (truthy_list invalid); reflexivity.
  - rewrite (forward_without_token w e _ _ _ _ _ _ _ Hauth). reflexivity.
Qed.

(** C10, as the code has it.  An Individual-mode send with an empty TO
    list and valid CC and BCC addresses issues no request.  When the
    headers are obtained, it completes with an empty results list; when
    they are not, it raises the exception of the token collaborator. *)
Theorem send_individual_empty_to `{Runtime} (w : world)
    (subject body content_type : pystr) (cc bcc : list pystr) :
  all_valid (cc ++ bcc) ->
  send_outlook_email w [] subject body content_type true cc bcc []
  = (match get_graph_auth_headers w with
     | Return _ => Return (complete_result [])
     | Raise e => Raise e
     end,
     []).
Proof.
  intros Hvalid. apply all_valid_invalid_addresses in Hvalid.
  destruct (get_graph_auth_headers w) as [headers | e] eqn:Hauth.
  - rewrite (send_outlook_email_run w headers Hauth). cbv zeta.
    cbn [app]. rewrite Hvalid. reflexivity.
  - rewrite (send_without_token w e _ _ _ _ _ _ _ Hauth). reflexivity.
Qed.

(** Every per-recipient outcome names its recipient and has status [sent],
    respectively [forwarded], or [error]. *)
Lemma individual_outcomes_name_recipient `{Runtime} (r : reply) (recipient : pystr) :
  outcome_field (lit "recipient") (send_outcome r recipient) = Some (VStr recipient)
  /\ outcome_field (lit "recipient") (forward_outcome r recipient)
     = Some (VStr recipient)
  /\ outcome_field (lit "status") (send_outcome r recipient)
     = Some (VStr (if delivered r then lit "sent" else lit "error"))
  /\ outcome_field (lit "status") (forward_outcome r recipient)
     = Some (VStr (if delivered r then lit "forwarded" else lit "error")).
Proof.
  unfold send_outcome, forward_outcome. destruct (delivered r); repeat split.
Qed.

(** What the error record of a send holds when the reply is outside the
    success range: [str(e)] of the [HTTPStatusError], which [httpx] builds
    from the URL and the status line; the body text is not part of it. *)
Lemma send_outcomes_on_http_error `{Runtime} status reason body_text body_json
    (recipients : list pystr) (recipient : pystr) :
  is_success status = false ->
  send_group_outcome (Responded status reason body_text body_json) recipients
    = group_error (httpx_status_message send_url status reason)
  /\ send_outcome (Responded status reason body_text body_json) recipient
    = individual_error recipient (httpx_status_message send_url status reason).
Proof.
  intros Hstatus. unfold send_group_outcome, send_outcome. cbn [delivered failure_text].
  rewrite Hstatus. split; reflexivity.
Qed.

(** The same reply in a forward: the record holds the status code and the
    body text. *)
Lemma forward_outcomes_on_http_error status reason body_text body_json
    (recipients : list pystr) (recipient : pystr) :
  is_success status = false ->
  forward_group_outcome (Responded status reason body_text body_json) recipients
    = group_error (http_error_message status body_text)
  /\ forward_outcome (Responded status reason body_text body_json) recipient
    = individual_error recipient (http_error_message status body_text)
  /\ str_contains (http_error_message status body_text) (str_of_int status) = true
  /\ str_contains (http_error_message status body_text) body_text = true.
Proof.
  intros Hstatus. unfold forward_group_outcome, forward_outcome.
  cbn [delivered forward_failure_text]. rewrite Hstatus.
  repeat split; unfold http_error_message.
  - apply str_contains_app.
  - replace (lit "HTTP Error " ++ str_of_int status ++ lit ": " ++ body_text)
      with ((lit "HTTP Error " ++ str_of_int status ++ lit ": ") ++ body_text ++ []).
    + apply str_contains_app.
    + rewrite app_nil_r, <- !app_assoc. reflexivity.
Qed.

(** C8 (the code departs from it): once the headers are obtained and the
    addresses are valid, a Group-mode send whose one call is answered with
    a status outside the success range, and an Individual-mode send to one
    recipient answered that way, complete with an error record whose
    message is the text [httpx] gives the exception, computed from the URL,
    the status code and the reason phrase: the response body text does not
    enter it. *)
Theorem send_http_error_message `{Runtime} (w : world) (headers : pydict)
    (recipients cc bcc : list pystr) (recipient : pystr)
    (subject body content_type : pystr)
    (status : Z) (reason body_text : pystr) (body_json : outcome pyval) :
  get_graph_auth_headers w = Return headers ->
  all_valid (recipients ++ cc ++ bcc) ->
  all_valid ([recipient] ++ cc ++ bcc) ->
  upstream w 0 (send_request headers subject body content_type cc bcc recipients)
    = Responded status reason body_text body_json ->
  upstream w 0 (send_request headers subject body content_type cc bcc [recipient])
    = Responded status reason body_text body_json ->
  is_success status = false ->
  send_outlook_email w recipients subject body content_type false cc bcc []
    = (Return (complete_result
                 [group_error (httpx_status_message send_url status reason)]),
       [send_request headers subject body content_type cc bcc recipients])
  /\ send_outlook_email w [recipient] subject body content_type true cc bcc []
    = (Return (complete_result
                 [individual_error recipient
                                   (httpx_status_message send_url status reason)]),
       [send_request headers subject body content_type cc bcc [recipient]]).
Proof.
  intros Hauth Hgroup Hone Hreply Hreply1 Hstatus.
  apply all_valid_invalid_addresses in Hgroup, Hone.
  destruct (send_outcomes_on_http_error status reason body_text body_json
              recipients recipient Hstatus) as [Hg Hi].
  split; rewrite (send_outlook_email_run w headers Hauth); cbv zeta.
  - rewrite Hgroup. cbn [truthy_list]. rewrite Hreply, Hg. reflexivity.
  - rewrite Hone. cbn [truthy_list imap map]. rewrite Hreply1, Hi. reflexivity.
Qed.

(* ================================================================== *)
(** * Fetch: the request that goes out *)
(* ================================================================== *)

Create HintDb silent.

Section Silent.
Context `{Runtime}.

Lemma silent_ret {A} (a : A) : silent (ret a).
Proof. intros log. reflexivity. Qed.

Lemma silent_raise {A} (e : exn) : silent (@raise A e).
Proof. intros log. reflexivity. Qed.

Lemma silent_lift {A} (o : outcome A) : silent (lift o).
Proof. intros log. reflexivity. Qed.

Lemma silent_bind {A B} (m : M A) (k : A -> M B) :
  silent m -> (forall a, silent (k a)) -> silent (bind m k).
Proof.
  intros Hm Hk log. unfold bind. specialize (Hm log).
  destruct (m log) as [[a | e] log']; cbn in Hm; subst log'.
  - apply Hk.
  - reflexivity.
Qed.

Lemma silent_raise_for_status r : silent (raise_for_status r).
Proof.
  unfold raise_for_status.
  destruct (is_success _); [apply silent_ret | apply silent_raise].
Qed.

Lemma silent_py_get v key default : silent (py_get v key default).
Proof. destruct v; first [apply silent_ret | apply silent_raise]. Qed.

Lemma silent_py_lower v : silent (py_lower v).
Proof. destruct v; first [apply silent_ret | apply silent_raise]. Qed.

Lemma silent_py_iter v : silent (py_iter v).
Proof. destruct v; first [apply silent_ret | apply silent_raise]. Qed.

#[local] Hint Resolve silent_ret silent_raise silent_lift silent_raise_for_status
  silent_py_get silent_py_lower silent_py_iter : silent.

Ltac silent_steps :=
  repeat first [ apply silent_bind; [ | intros ? ] | solve [ auto with silent ] ].

Lemma silent_from_address email : silent (from_address email).
Proof. unfold from_address. silent_steps. Qed.

Lemma silent_subject_matches terms email : silent (subject_matches terms email).
Proof. unfold subject_matches. silent_steps. Qed.

Lemma silent_filter_by_subject terms emails : forall kept,
  silent (filter_by_subject terms emails kept).
Proof.
  induction emails as [|email rest IH]; intros kept; cbn [filter_by_subject].
  - apply silent_ret.
  - apply silent_bind; [apply silent_subject_matches | intros keep; apply IH].
Qed.

Lemma silent_summary_of email : silent (summary_of email).
Proof.
  unfold summary_of. pose proof (silent_from_address email). silent_steps.
Qed.

Lemma silent_summarize emails : forall summaries,
  silent (summarize emails summaries).
Proof.
  induction emails as [|email rest IH]; intros summaries; cbn [summarize].
  - apply silent_ret.
  - apply silent_bind; [apply silent_summary_of | intros s; apply IH].
Qed.

(** A guarded call: when what follows the call issues no request and
    the handler neither issues one nor raises, the guarded block returns
    and the log gains exactly the call. *)
Lemma try_except_call {A} (w : world) (req : request)
    (k : response -> M A) (handler : exn -> M A) log :
  (forall r, silent (k r)) ->
  (forall e, silent (handler e)) ->
  (forall e, returns (handler e)) ->
  exists a, try_except (bind (client_call w req) k) handler log
            = (Return a, log ++ [req]).
Proof.
  intros Hk Hsilent Hreturns.
  assert (Hhandler : forall e, exists a,
             handler e (log ++ [req]) = (Return a, log ++ [req])).
  { intros e. destruct (Hreturns e (log ++ [req])) as [a Ha].
    specialize (Hsilent e (log ++ [req])).
    destruct (handler e (log ++ [req])) as [o log']. cbn in Ha, Hsilent.
    subst. eauto. }
  unfold try_except, bind, client_call.
  destruct (upstream w (length log) req) as [status reason body_text body_json | d].
  - match goal with |- context [k ?r (log ++ [req])] =>
      specialize (Hk r (log ++ [req])); destruct (k r (log ++ [req])) as [[a | e] log']
    end; cbn in Hk; subst log'; [eauto | apply Hhandler].
  - apply Hhandler.
Qed.

(** The list branch issues one GET, and the [$top] it sends is the value
    of [top] the function was called with. *)
Lemma fetch_list_request (w : world) (headers : pydict) folder is_read sender
    subject (top : Z) :
  exists result params,
    fetch_list w headers folder is_read sender subject top []
    = (Return result,
       [ {| req_method := lit "GET";
            req_url := GRAPH_API_URL ++ lit "/me/mailFolders/" ++ folder
                       ++ lit "/messages";
            req_headers := headers;
            req_params := Some params;
            req_json := None |} ])
    /\ dict_get (lit "$top") params = Some (VInt top).
Proof.
  unfold fetch_list. cbv zeta.
  match goal with
  | |- context [client_get _ _ _ (Some ?p)] => set (params := p)
  end.
  assert (Htop : dict_get (lit "$top") params = Some (VInt top)).
  { subst params. destruct (truthy_list _); reflexivity. }
  unfold client_get.
  match goal with
  | |- context [try_except (bind (client_call w ?req) ?k) ?h] =>
      destruct (try_except_call w req k h []) as [result Hrun]
  end.
  - intros r. apply silent_bind; [apply silent_raise_for_status | intros _].
    apply silent_bind; [apply silent_lift | intros data].
    apply silent_bind; [apply silent_py_get | intros emails].
    apply silent_bind.
    + destruct subject as [subj |]; [| apply silent_ret].
      destruct (_ && _); [| apply silent_ret].
      apply silent_bind; [apply silent_py_iter | intros items].
      apply silent_bind; [apply silent_filter_by_subject | intros kept].
      apply silent_ret.
    + intros emails'.
      apply silent_bind; [apply silent_py_iter | intros items].
      apply silent_bind; [apply silent_summarize | intros summaries].
      apply silent_ret.
  - intros [message status body_text | message]; apply silent_ret.
  - intros [message status body_text | message] log; eexists; reflexivity.
  - exists result, params. split; [exact Hrun | exact Htop].
Qed.

End Silent.

(** C9 (the code departs from it): once the headers are obtained, a fetch
    with a subject filter and no [email_id] issues one GET on the folder's
    messages whose [$top] parameter is the [top] the function was called
    with, which is the default of 10 for every caller: the request is not
    widened to 50. *)
Theorem fetch_subject_filter_page_size `{Runtime} (w : world) (headers : pydict)
    (folder : pystr) (is_read : option bool) (sender email_id : option pystr)
    (subject : pystr) (top : Z) :
  get_graph_auth_headers w = Return headers ->
  truthy_opt email_id = false ->
  truthy_str subject = true ->
  exists result params,
    fetch_outlook_emails w folder is_read sender email_id (Some subject) top []
    = (Return result,
       [ {| req_method := lit "GET";
            req_url := GRAPH_API_URL ++ lit "/me/mailFolders/" ++ folder
                       ++ lit "/messages";
            req_headers := headers;
            req_params := Some params;
            req_json := None |} ])
    /\ dict_get (lit "$top") params = Some (VInt top).
Proof.
  intros Hauth Hid _. unfold fetch_outlook_emails, bind at 1, lift.
  rewrite Hauth.
  destruct email_id as [id |]; cbn in Hid; [rewrite Hid |];
    apply fetch_list_request.
Qed.

(* ================================================================== *)
(** * The theorems at concrete invocations *)
(* ================================================================== *)

Lemma all_valid_checked `{Runtime} (addresses : list pystr) :
  invalid_addresses addresses = [] -> all_valid addresses.
Proof. apply all_valid_invalid_addresses. Qed.

(** Two TO recipients, the call for the second is throttled: a success
    record for the first, an error record for the second, status
    [complete]. *)
Example send_individual_partial_failure :
  @send_outlook_email ascii_runtime world_second_fails [alice; bob]
    (lit "Hello") (lit "Body") (lit "Text") true [] [] []
  = (Return (complete_result
               [ individual_success "sent" alice;
                 individual_error bob throttled_send_text ]),
     [ @send_request ascii_runtime bearer_headers (lit "Hello") (lit "Body")
                     (lit "Text") [] [] [alice];
       @send_request ascii_runtime bearer_headers (lit "Hello") (lit "Body")
                     (lit "Text") [] [] [bob] ]).
Proof. reflexivity. Qed.

Example send_group_success :
  fst (@send_outlook_email ascii_runtime world_ok [alice; bob]
         (lit "Hello") (lit "Body") (lit "Text") false [] [] [])
  = Return (complete_result [group_success "sent" [alice; bob]]).
Proof. reflexivity. Qed.

Lemma individual_mode_report_witness :
  get_graph_auth_headers world_second_fails = Return bearer_headers
  /\ @all_valid ascii_runtime ([alice; bob] ++ [carol] ++ [])
  /\ @all_valid ascii_runtime ([bob; carol] ++ [] ++ [alice])
  /\ [bob; carol] <> []
  /\ fan_out_report world_second_fails [alice; bob]
       (fun r => @send_request ascii_runtime bearer_headers (lit "Hello") (lit "Body")
                               (lit "Text") [carol] [] [r])
       (@send_outcome ascii_runtime)
       (@send_outlook_email ascii_runtime world_second_fails [alice; bob]
          (lit "Hello") (lit "Body") (lit "Text") true [carol] [] [])
  /\ fan_out_report world_second_fails [bob; carol]
       (fun r => @forward_request ascii_runtime bearer_headers (lit "AAMkAD")
                                  [] [alice] (lit "FYI") [r])
       forward_outcome
       (@forward_outlook_email ascii_runtime world_second_fails (lit "AAMkAD")
          [bob; carol] [] [alice] (lit "FYI") (lit "Text") true []).
Proof.
  assert (Hauth : get_graph_auth_headers world_second_fails = Return bearer_headers)
    by reflexivity.
  assert (Hsend : @all_valid ascii_runtime ([alice; bob] ++ [carol] ++ []))
    by (apply all_valid_checked; reflexivity).
  assert (Hforward : @all_valid ascii_runtime ([bob; carol] ++ [] ++ [alice]))
    by (apply all_valid_checked; reflexivity).
  assert (Hto : [bob; carol] <> []) by discriminate.
  exact (conj Hauth (conj Hsend (conj Hforward (conj Hto
    (@individual_mode_report ascii_runtime world_second_fails
       [alice; bob] [carol] [] (lit "Hello") (lit "Body") (lit "Text")
       (lit "AAMkAD") [bob; carol] [] [alice] (lit "FYI") (lit "Text")
       Hsend Hforward Hto))))).
Defined.

(** C1 as stated fails: an Individual-mode forward with an empty TO list
    has no invalid address, yet it returns the top-level error and not a
    [complete] result. *)
Lemma individual_forward_empty_to_counterexample :
  get_graph_auth_headers world_ok = Return bearer_headers
  /\ @all_valid ascii_runtime ([] ++ [] ++ [])
  /\ @forward_outlook_email ascii_runtime world_ok (lit "AAMkAD") [] [] []
       (lit "FYI") (lit "Text") true []
     = (Return (error_result (lit "At least one TO recipient is required")), [])
  /\ ~ fan_out_report world_ok []
         (fun r => @forward_request ascii_runtime bearer_headers (lit "AAMkAD")
                                    [] [] (lit "FYI") [r])
         forward_outcome
         (@forward_outlook_email ascii_runtime world_ok (lit "AAMkAD") [] [] []
            (lit "FYI") (lit "Text") true []).
Proof.
  split; [reflexivity |]. split; [intros a [] |]. split; [reflexivity |].
  intros (results & log & Hrun & _). vm_compute in Hrun. discriminate Hrun.
Qed.

Lemma invalid_address_rejected_witness :
  get_graph_auth_headers world_ok = Return bearer_headers
  /\ In (lit "bad") ([alice] ++ [lit "bad"] ++ [lit "worse@"])
  /\ @validate_email_format ascii_runtime (lit "bad") = false
  /\ @send_outlook_email ascii_runtime world_ok [alice] (lit "Hello") (lit "Body")
       (lit "Text") true [lit "bad"] [lit "worse@"] []
     = (Return (error_result (lit "Invalid email address(es): bad, worse@")), [])
  /\ @forward_outlook_email ascii_runtime world_ok (lit "AAMkAD") [alice]
       [lit "bad"] [lit "worse@"] (lit "FYI") (lit "Text") true []
     = (Return (error_result (lit "Invalid email address(es): bad, worse@")), []).
Proof.
  assert (Hauth : get_graph_auth_headers world_ok = Return bearer_headers)
    by reflexivity.
  assert (Hin : In (lit "bad") ([alice] ++ [lit "bad"] ++ [lit "worse@"]))
    by (right; left; reflexivity).
  assert (Hbad : @validate_email_format ascii_runtime (lit "bad") = false)
    by reflexivity.
  exact (conj Hauth (conj Hin (conj Hbad
    (proj1 (@invalid_address_rejected ascii_runtime world_ok
              [alice] [lit "bad"] [lit "worse@"] (lit "Hello") (lit "Body")
              (lit "Text") (lit "AAMkAD") (lit "FYI") true (lit "bad")
              Hin Hbad))))).
Defined.

(** C2 as stated fails: with an invalid address and no token to be had,
    neither service returns an error result; each raises the exception of
    the token collaborator, which is asked before the addresses are
    looked at. *)
Lemma invalid_address_without_token_counterexample :
  @validate_email_format ascii_runtime (lit "bad") = false
  /\ @send_outlook_email ascii_runtime world_login_failed [alice] (lit "Hello")
       (lit "Body") (lit "Text") true [lit "bad"] [] []
     = (Raise (Exception
                 (lit "Authentication failed: The user declined the request")), [])
  /\ @forward_outlook_email ascii_runtime world_login_failed (lit "AAMkAD") [alice]
       [lit "bad"] [] (lit "FYI") (lit "Text") true []
     = (Raise (Exception
                 (lit "Authentication failed: The user declined the request")), [])
  /\ ~ exists (message : pystr) (log : list request),
         @send_outlook_email ascii_runtime world_login_failed [alice] (lit "Hello")
           (lit "Body") (lit "Text") true [lit "bad"] [] []
         = (Return (error_result message), log).
Proof.
  split; [reflexivity |]. split; [reflexivity |]. split; [reflexivity |].
  intros (message & log & Hrun). vm_compute in Hrun. discriminate Hrun.
Qed.

Lemma group_mode_single_outcome_witness :
  get_graph_auth_headers world_ok = Return bearer_headers
  /\ @all_valid ascii_runtime ([alice; bob] ++ [carol] ++ [])
  /\ @all_valid ascii_runtime ([bob; carol] ++ [] ++ [alice])
  /\ [bob; carol] <> []
  /\ fst (@send_outlook_email ascii_runtime world_ok [alice; bob]
            (lit "Hello") (lit "Body") (lit "Text") false [carol] [] [])
     = Return (complete_result [group_success "sent" [alice; bob]])
  /\ fst (@forward_outlook_email ascii_runtime world_ok (lit "AAMkAD")
            [bob; carol] [] [alice] (lit "FYI") (lit "Text") false [])
     = Return (complete_result [group_success "forwarded" [bob; carol]]).
Proof.
  assert (Hauth : get_graph_auth_headers world_ok = Return bearer_headers)
    by reflexivity.
  assert (Hsend : @all_valid ascii_runtime ([alice; bob] ++ [carol] ++ []))
    by (apply all_valid_checked; reflexivity).
  assert (Hforward : @all_valid ascii_runtime ([bob; carol] ++ [] ++ [alice]))
    by (apply all_valid_checked; reflexivity).
  assert (Hto : [bob; carol] <> []) by discriminate.
  destruct (proj1 (@group_mode_single_outcome ascii_runtime world_ok
                     [alice; bob] [carol] [] (lit "Hello") (lit "Body") (lit "Text")
                     (lit "AAMkAD") [bob; carol] [] [alice] (lit "FYI") (lit "Text")
                     Hsend Hforward Hto)) as [Hs Hf].
  split; [exact Hauth |]. split; [exact Hsend |]. split; [exact Hforward |].
  split; [exact Hto |]. split.
  - rewrite Hs. reflexivity.
  - rewrite Hf. reflexivity.
Defined.

(** C3 as stated fails: a Group-mode forward with an empty TO list has no
    invalid address, yet it returns the top-level error, which has no
    results list at all. *)
Lemma group_forward_empty_to_counterexample :
  get_graph_auth_headers world_ok = Return bearer_headers
  /\ @all_valid ascii_runtime ([] ++ [] ++ [])
  /\ @forward_outlook_email ascii_runtime world_ok (lit "AAMkAD") [] [] []
       (lit "FYI") (lit "Text") false []
     = (Return (error_result (lit "At least one TO recipient is required")), [])
  /\ outcome_field (lit "results")
       (error_result (lit "At least one TO recipient is required")) = None
  /\ ~ exists (outcome : pyval) (log : list request),
         @forward_outlook_email ascii_runtime world_ok (lit "AAMkAD") [] [] []
           (lit "FYI") (lit "Text") false []
         = (Return (complete_result [outcome]), log).
Proof.
  split; [reflexivity |]. split; [intros a [] |]. split; [reflexivity |].
  split; [reflexivity |].
  intros (outcome & log & Hrun). vm_compute in Hrun. discriminate Hrun.
Qed.

Lemma forward_empty_to_rejected_witness :
  get_graph_auth_headers world_ok = Return bearer_headers
  /\ @forward_outlook_email ascii_runtime world_ok (lit "AAMkAD") [] [carol] []
       (lit "FYI") (lit "Text") false []
     = (Return (error_result (lit "At least one TO recipient is required")), []).
Proof.
  assert (Hauth : get_graph_auth_headers world_ok = Return bearer_headers)
    by reflexivity.
  split; [exact Hauth |].
  exact (@forward_empty_to_rejected ascii_runtime world_ok
           (lit "AAMkAD") [carol] [] (lit "FYI") (lit "Text") false).
Defined.

(** C4 as stated fails: with an empty TO list and no token to be had, the
    forward returns no error result; it raises the exception of the token
    collaborator, which is asked before the guard on the TO list. *)
Lemma forward_empty_to_without_token_counterexample :
  @forward_outlook_email ascii_runtime world_login_failed (lit "AAMkAD") [] [] []
    (lit "FYI") (lit "Text") false []
  = (Raise (Exception
              (lit "Authentication failed: The user declined the request")), [])
  /\ ~ exists (message : pystr) (log : list request),
         @forward_outlook_email ascii_runtime world_login_failed (lit "AAMkAD")
           [] [] [] (lit "FYI") (lit "Text") false []
         = (Return (error_result message), log).
Proof.
  split; [reflexivity |].
  intros (message & log & Hrun). vm_compute in Hrun. discriminate Hrun.
Qed.

Lemma send_individual_empty_to_witness :
  get_graph_auth_headers world_throttled = Return bearer_headers
  /\ @all_valid ascii_runtime ([carol] ++ [bob])
  /\ @send_outlook_email ascii_runtime world_throttled [] (lit "Hello") (lit "Body")
       (lit "Text") true [carol] [bob] []
     = (Return (complete_result []), []).
Proof.
  assert (Hauth : get_graph_auth_headers world_throttled = Return bearer_headers)
    by reflexivity.
  assert (Hvalid : @all_valid ascii_runtime ([carol] ++ [bob]))
    by (apply all_valid_checked; reflexivity).
  exact (conj Hauth (conj Hvalid
           (@send_individual_empty_to ascii_runtime world_throttled
              (lit "Hello") (lit "Body") (lit "Text") [carol] [bob] Hvalid))).
Defined.

(** C10 as stated fails: with an empty TO list, valid CC and BCC and no
    token to be had, the Individual-mode send does not complete; it raises
    the exception of the token collaborator. *)
Lemma send_individual_empty_to_without_token_counterexample :
  @all_valid ascii_runtime ([carol] ++ [bob])
  /\ @send_outlook_email ascii_runtime world_login_failed [] (lit "Hello")
       (lit "Body") (lit "Text") true [carol] [bob] []
     = (Raise (Exception
                 (lit "Authentication failed: The user declined the request")), [])
  /\ @send_outlook_email ascii_runtime world_login_failed [] (lit "Hello")
       (lit "Body") (lit "Text") true [carol] [bob] []
     <> (Return (complete_result []), []).
Proof.
  split; [apply all_valid_checked; reflexivity |]. split; [reflexivity |].
  discriminate.
Qed.

Lemma send_http_error_message_witness :
  get_graph_auth_headers world_throttled = Return bearer_headers
  /\ @all_valid ascii_runtime ([alice; bob] ++ [] ++ [])
  /\ @all_valid ascii_runtime ([alice] ++ [] ++ [])
  /\ is_success 429 = false
  /\ @send_outlook_email ascii_runtime world_throttled [alice; bob]
       (lit "Hello") (lit "Body") (lit "Text") false [] [] []
     = (Return (complete_result
                  [group_error throttled_send_text]),
        [@send_request ascii_runtime bearer_headers (lit "Hello") (lit "Body")
                       (lit "Text") [] [] [alice; bob]])
  /\ str_contains throttled_send_text (lit "{quota exceeded}") = false.
Proof.
  assert (Hauth : get_graph_auth_headers world_throttled = Return bearer_headers)
    by reflexivity.
  assert (Hgroup : @all_valid ascii_runtime ([alice; bob] ++ [] ++ []))
    by (apply all_valid_checked; reflexivity).
  assert (Hone : @all_valid ascii_runtime ([alice] ++ [] ++ []))
    by (apply all_valid_checked; reflexivity).
  assert (Hstatus : is_success 429 = false) by reflexivity.
  destruct (@send_http_error_message ascii_runtime world_throttled bearer_headers
              [alice; bob] [] [] alice (lit "Hello") (lit "Body") (lit "Text")
              429 (lit "Too Many Requests") (lit "{quota exceeded}")
              (Return (VDict []))
              Hauth Hgroup Hone eq_refl eq_refl Hstatus) as [Hrun _].
  split; [exact Hauth |]. split; [exact Hgroup |]. split; [exact Hone |].
  split; [exact Hstatus |]. split; [| reflexivity].
  rewrite Hrun. reflexivity.
Defined.

(** The same reply in a forward is reported with its status code and its
    body text. *)
Example forward_group_http_error :
  fst (@forward_outlook_email ascii_runtime world_throttled (lit "AAMkAD")
         [alice; bob] [] [] (lit "FYI") (lit "Text") false [])
  = Return (complete_result [group_error (lit "HTTP Error 429: {quota exceeded}")]).
Proof. reflexivity. Qed.

Lemma fetch_subject_filter_page_size_witness :
  get_graph_auth_headers world_inbox = Return bearer_headers
  /\ truthy_opt None = false
  /\ truthy_str (lit "meeting notes") = true
  /\ exists result params,
       @fetch_outlook_emails ascii_runtime world_inbox (lit "inbox") None None None
         (Some (lit "meeting notes")) DEFAULT_TOP []
       = (Return result,
          [ {| req_method := lit "GET";
               req_url := lit "https://graph.microsoft.com/v1.0/me/mailFolders/inbox/messages";
               req_headers := bearer_headers;
               req_params := Some params;
               req_json := None |} ])
       /\ dict_get (lit "$top") params = Some (VInt 10).
Proof.
  assert (Hauth : get_graph_auth_headers world_inbox = Return bearer_headers)
    by reflexivity.
  exact (conj Hauth (conj eq_refl (conj eq_refl
    (@fetch_subject_filter_page_size ascii_runtime world_inbox bearer_headers
       (lit "inbox") None None None (lit "meeting notes") DEFAULT_TOP
       Hauth eq_refl eq_refl)))).
Defined.

(** The request of that fetch, and what the client-side filter keeps. *)
Example fetch_by_subject :
  @fetch_outlook_emails ascii_runtime world_inbox (lit "inbox") None None None
    (Some (lit "Meeting Notes")) DEFAULT_TOP []
  = (Return (VDict
       [ (lit "status", VStr (lit "success"));
         (lit "emails", VList [message_json "m1" "Meeting Notes Q1"]);
         (lit "email_summaries",
           VList [VDict [ (lit "id", VStr (lit "m1"));
                          (lit "subject", VStr (lit "Meeting Notes Q1"));
                          (lit "from", VStr []);
                          (lit "received", VStr []);
                          (lit "is_read", VBool false);
                          (lit "preview", VStr []) ]]) ]),
     [ {| req_method := lit "GET";
          req_url := lit "https://graph.microsoft.com/v1.0/me/mailFolders/inbox/messages";
          req_headers := bearer_headers;
          req_params := Some [ (lit "$top", VInt 10) ];
          req_json := None |} ]).
Proof. reflexivity. Qed.

(* ================================================================== *)
(** * Whitespace stripping *)
(* ================================================================== *)

Lemma str_lstrip_spaces (ws s : pystr) :
  forallb is_space ws = true -> str_lstrip (ws ++ s) = str_lstrip s.
Proof.
  induction ws as [|c ws IH]; cbn [forallb app str_lstrip]; [reflexivity |].
  intros Hws. apply andb_true_iff in Hws as [Hc Hws]. rewrite Hc. auto.
Qed.

Lemma str_lstrip_suffix (s : pystr) :
  exists ws, s = ws ++ str_lstrip s /\ forallb is_space ws = true.
Proof.
  induction s as [|c s (ws & Heq & Hws)]; cbn [str_lstrip].
  - exists []. split; reflexivity.
  - destruct (is_space c) eqn:Hc.
    + exists (c :: ws). cbn. rewrite Hc, Hws, <- Heq. split; reflexivity.
    + exists []. split; reflexivity.
Qed.

Lemma str_lstrip_head (s : pystr) c rest :
  str_lstrip s = c :: rest -> is_space c = false.
Proof.
  induction s as [|x s IH]; cbn [str_lstrip]; [discriminate |].
  destruct (is_space x) eqn:Hx; [exact IH |].
  intros Heq. injection Heq as <- _. exact Hx.
Qed.

Lemma str_lstrip_fixed c (s : pystr) :
  is_space c = false -> str_lstrip (c :: s) = c :: s.
Proof. intros Hc. cbn [str_lstrip]. rewrite Hc. reflexivity. Qed.

Lemma forallb_rev {A} (f : A -> bool) (l : list A) :
  forallb f (rev l) = forallb f l.
Proof.
  induction l as [|x l IH]; [reflexivity |].
  cbn [rev forallb]. rewrite forallb_app, IH. cbn. rewrite andb_true_r.
  apply andb_comm.
Qed.

Lemma str_rstrip_spaces (s ws : pystr) :
  forallb is_space ws = true -> str_rstrip (s ++ ws) = str_rstrip s.
Proof.
  intros Hws. unfold str_rstrip. rewrite rev_app_distr, str_lstrip_spaces;
    [reflexivity | rewrite forallb_rev; exact Hws].
Qed.

Lemma str_rstrip_prefix (s : pystr) :
  exists ws, s = str_rstrip s ++ ws /\ forallb is_space ws = true.
Proof.
  unfold str_rstrip. destruct (str_lstrip_suffix (rev s)) as (ws & Heq & Hws).
  exists (rev ws). split; [| rewrite forallb_rev; exact Hws].
  rewrite <- rev_app_distr, <- Heq, rev_involutive. reflexivity.
Qed.

Lemma str_rstrip_last (s front : pystr) c :
  str_rstrip s = front ++ [c] -> is_space c = false.
Proof.
  unfold str_rstrip. intros Heq.
  apply (f_equal (@rev N)) in Heq. rewrite rev_involutive, rev_app_distr in Heq.
  exact (str_lstrip_head _ _ _ Heq).
Qed.

Lemma str_rstrip_fixed (front : pystr) c :
  is_space c = false -> str_rstrip (front ++ [c]) = front ++ [c].
Proof.
  intros Hc. unfold str_rstrip. rewrite rev_app_distr. cbn [rev app].
  rewrite str_lstrip_fixed by exact Hc.
  change (c :: rev front) with ([c] ++ rev front).
  rewrite rev_app_distr, rev_involutive. reflexivity.
Qed.

(** [s.strip()] is [s] without a run of whitespace at either end. *)
Lemma str_strip_inside (s : pystr) :
  exists ws1 ws2,
    s = ws1 ++ str_strip s ++ ws2
    /\ forallb is_space ws1 = true /\ forallb is_space ws2 = true.
Proof.
  unfold str_strip.
  destruct (str_lstrip_suffix s) as (ws1 & Hs & Hws1).
  destruct (str_rstrip_prefix (str_lstrip s)) as (ws2 & Hl & Hws2).
  exists ws1, ws2. rewrite <- Hl, <- Hs. auto.
Qed.

Lemma str_strip_head (s : pystr) c rest :
  str_strip s = c :: rest -> is_space c = false.
Proof.
  unfold str_strip. intros Heq.
  destruct (str_rstrip_prefix (str_lstrip s)) as (ws & Hl & _).
  rewrite Heq in Hl. exact (str_lstrip_head _ _ _ Hl).
Qed.

Lemma str_strip_last (s front : pystr) c :
  str_strip s = front ++ [c] -> is_space c = false.
Proof. unfold str_strip. apply str_rstrip_last. Qed.

(** Whitespace around a text that has none at its ends is all that
    [strip] takes away. *)
Lemma str_strip_padded (ws1 ws2 a : pystr) c rest :
  forallb is_space ws1 = true -> forallb is_space ws2 = true ->
  a = c :: rest -> is_space c = false -> is_space (List.last a c) = false ->
  str_strip (ws1 ++ a ++ ws2) = a.
Proof.
  intros Hws1 Hws2 Ha Hc Hlast. unfold str_strip.
  rewrite str_lstrip_spaces by exact Hws1.
  rewrite Ha at 1. cbn [app]. rewrite str_lstrip_fixed by exact Hc.
  change (c :: rest ++ ws2) with ((c :: rest) ++ ws2). rewrite <- Ha.
  rewrite str_rstrip_spaces by exact Hws2.
  destruct (exists_last (l := a)) as (front & x & Hfront);
    [rewrite Ha; discriminate |].
  rewrite Hfront in Hlast |- *. rewrite last_last in Hlast.
  apply str_rstrip_fixed, Hlast.
Qed.

(* ================================================================== *)
(** * What the normaliser hands on *)
(* ================================================================== *)

Lemma space_not_separator c : is_space c = true -> Reference.is_separator c = false.
Proof.
  intros Hc. destruct (Reference.is_separator c) eqn:Hsep; [| reflexivity].
  unfold Reference.is_separator in Hsep.
  apply orb_true_iff in Hsep as [Heq | Heq]; apply N.eqb_eq in Heq; subst c;
    discriminate Hc.
Qed.

Lemma spaces_no_separator (ws : pystr) :
  forallb is_space ws = true ->
  forallb (fun x => negb (Reference.is_separator x)) ws = true.
Proof.
  rewrite !forallb_forall. intros Hws x Hx.
  rewrite (space_not_separator x (Hws x Hx)). reflexivity.
Qed.

Lemma split_pieces_no_separator (s p : pystr) :
  In p (Reference.split_on_separators s) ->
  forallb (fun x => negb (Reference.is_separator x)) p = true.
Proof.
  revert p. induction s as [|c s IH]; intros p; cbn [Reference.split_on_separators].
  - intros [<- | []]. reflexivity.
  - destruct (Reference.is_separator c) eqn:Hc.
    + intros [<- | Hin]; [reflexivity | apply IH, Hin].
    + destruct (Reference.split_on_separators s) as [|first pieces].
      * intros [<- | []]. cbn. rewrite Hc. reflexivity.
      * intros [<- | Hin].
        -- cbn [forallb]. rewrite Hc, (IH first (or_introl eq_refl)). reflexivity.
        -- apply IH. right. exact Hin.
Qed.

Lemma split_first_prefix (s first : pystr) pieces :
  Reference.split_on_separators s = first :: pieces -> exists post, s = first ++ post.
Proof.
  revert first pieces.
  induction s as [|c s IH]; intros first pieces; cbn [Reference.split_on_separators].
  - intros Heq. injection Heq as <- _. exists []. reflexivity.
  - destruct (Reference.is_separator c).
    + intros Heq. injection Heq as <- _. exists (c :: s). reflexivity.
    + destruct (Reference.split_on_separators s) as [|first' pieces'].
      * intros Heq. injection Heq as <- _. exists s. reflexivity.
      * intros Heq. injection Heq as <- _.
        destruct (IH first' pieces' eq_refl) as (post & ->).
        exists post. reflexivity.
Qed.

(** Every piece is a part of the text that was split. *)
Lemma split_pieces_inside (s p : pystr) :
  In p (Reference.split_on_separators s) -> exists pre post, s = pre ++ p ++ post.
Proof.
  revert p. induction s as [|c s IH]; intros p; cbn [Reference.split_on_separators].
  - intros [<- | []]. exists [], []. reflexivity.
  - destruct (Reference.is_separator c).
    + intros [<- | Hin].
      * exists [], (c :: s). reflexivity.
      * destruct (IH p Hin) as (pre & post & ->). exists (c :: pre), post. reflexivity.
    + destruct (Reference.split_on_separators s) as [|first pieces] eqn:Hsplit.
      * intros [<- | []]. exists [], s. reflexivity.
      * intros [<- | Hin].
        -- destruct (split_first_prefix s first pieces Hsplit) as (post & ->).
           exists [], post. reflexivity.
        -- destruct (IH p (or_intror Hin)) as (pre & post & ->).
           exists (c :: pre), post. reflexivity.
Qed.

Lemma forallb_inside {A} (f : A -> bool) (pre a post : list A) :
  forallb f (pre ++ a ++ post) = true -> forallb f a = true.
Proof.
  rewrite !forallb_app, !andb_true_iff. tauto.
Qed.

(** X1: every item the normaliser returns for a string is a [str] that is
    not empty, has no whitespace at either end and no comma or semicolon
    in it, and is a part of the text it came from. *)
Theorem normalize_email_list_clean `{Runtime} (s : pystr) (v : pyval) :
  In v (normalize_email_list (VStr s)) ->
  exists a pre post,
    v = VStr a /\ clean_address a = true /\ s = pre ++ a ++ post.
Proof.
  unfold normalize_email_list. rewrite re_split_reference.
  intros Hin. apply in_map_iff in Hin as (p & <- & Hp).
  apply filter_In in Hp as [Hp Hfull].
  destruct (str_strip_inside p) as (ws1 & ws2 & Hpad & _ & _).
  destruct (split_pieces_inside s p Hp) as (pre & post & Hs).
  exists (str_strip p), (pre ++ ws1), (ws2 ++ post). split; [reflexivity |]. split.
  - pose proof (split_pieces_no_separator s p Hp) as Hsep.
    rewrite Hpad in Hsep. apply forallb_inside in Hsep.
    unfold clean_address.
    destruct (str_strip p) as [|c rest] eqn:Hstrip; [discriminate Hfull |].
    rewrite (str_strip_head p c rest Hstrip), Hsep.
    destruct (exists_last (l := c :: rest)) as (front & x & Hlast); [discriminate |].
    rewrite Hlast, last_last. rewrite Hlast in Hstrip.
    rewrite (str_strip_last p front x Hstrip). reflexivity.
  - rewrite Hs. rewrite Hpad at 1. rewrite <- !app_assoc. reflexivity.
Qed.

Lemma normalize_email_list_clean_witness :
  In (VStr (lit "b@x.com"))
     (@normalize_email_list ascii_runtime (VStr (lit " a@x.com ;b@x.com ,, ")))
  /\ exists a pre post,
       VStr (lit "b@x.com") = VStr a /\ clean_address a = true
       /\ lit " a@x.com ;b@x.com ,, " = pre ++ a ++ post.
Proof.
  assert (Hin : In (VStr (lit "b@x.com"))
                   (@normalize_email_list ascii_runtime
                      (VStr (lit " a@x.com ;b@x.com ,, "))))
    by (right; left; reflexivity).
  exact (conj Hin (@normalize_email_list_clean ascii_runtime _ _ Hin)).
Defined.

Lemma split_clean_prefix (a rest : pystr) :
  forallb (fun x => negb (Reference.is_separator x)) a = true ->
  Reference.split_on_separators (a ++ rest)
  = match Reference.split_on_separators rest with
    | first :: pieces => (a ++ first) :: pieces
    | [] => [a]
    end.
Proof.
  induction a as [|c a IH]; cbn [forallb app Reference.split_on_separators].
  - intros _. destruct (split_on_separators_cons rest) as (first & pieces & ->).
    reflexivity.
  - intros Ha. apply andb_true_iff in Ha as [Hc Ha].
    apply negb_true_iff in Hc. rewrite Hc, (IH Ha).
    destruct (split_on_separators_cons rest) as (first & pieces & ->). reflexivity.
Qed.

Lemma clean_address_parts (a : pystr) :
  clean_address a = true ->
  exists c rest,
    a = c :: rest /\ is_space c = false /\ is_space (List.last a c) = false
    /\ forallb (fun x => negb (Reference.is_separator x)) a = true.
Proof.
  unfold clean_address. destruct a as [|c rest]; [discriminate |].
  rewrite !andb_true_iff, !negb_true_iff. intros [[Hc Hlast] Hsep].
  exists c, rest. auto.
Qed.

Section JoinThenSplit.
Variables (ws1 ws2 : pystr) (c : N).
Hypothesis spaces1 : forallb is_space ws1 = true.
Hypothesis spaces2 : forallb is_space ws2 = true.
Hypothesis separator : Reference.is_separator c = true.

(** Splitting the joined text gives the addresses back, each padded with
    the whitespace of the separator text. *)
Lemma strip_split_join (a : pystr) (l : list pystr) : forall ws,
  forallb is_space ws = true ->
  forallb clean_address (a :: l) = true ->
  map str_strip
      (Reference.split_on_separators (ws ++ str_join (ws1 ++ [c] ++ ws2) (a :: l)))
  = a :: l.
Proof.
  revert a. induction l as [|b l IH]; intros a ws Hws Hclean;
    cbn [forallb] in Hclean; apply andb_true_iff in Hclean as [Ha Hl];
    destruct (clean_address_parts a Ha) as (x & rest & Hax & Hx & Hlast & Hsep).
  - cbn [str_join]. rewrite <- (app_nil_r (ws ++ a)), split_clean_prefix.
    + cbn [Reference.split_on_separators map]. rewrite app_nil_r.
      rewrite <- (app_nil_r a) at 1.
      rewrite (str_strip_padded ws [] a x rest Hws eq_refl Hax Hx Hlast).
      reflexivity.
    + rewrite forallb_app, (spaces_no_separator ws Hws), Hsep. reflexivity.
  - change (str_join (ws1 ++ [c] ++ ws2) (a :: b :: l))
      with (a ++ (ws1 ++ [c] ++ ws2) ++ str_join (ws1 ++ [c] ++ ws2) (b :: l)).
    replace (ws ++ a ++ (ws1 ++ [c] ++ ws2) ++ str_join (ws1 ++ [c] ++ ws2) (b :: l))
      with ((ws ++ a ++ ws1)
            ++ c :: (ws2 ++ str_join (ws1 ++ [c] ++ ws2) (b :: l)))
      by (rewrite <- !app_assoc; reflexivity).
    rewrite split_clean_prefix.
    + cbn [Reference.split_on_separators]. rewrite separator, app_nil_r.
      cbn [map]. rewrite (IH b ws2 spaces2 Hl).
      rewrite (str_strip_padded ws ws1 a x rest Hws spaces1 Hax Hx Hlast).
      reflexivity.
    + rewrite !forallb_app, (spaces_no_separator ws Hws),
        (spaces_no_separator ws1 spaces1), Hsep. reflexivity.
Qed.

End JoinThenSplit.

Lemma filter_clean (l : list pystr) :
  forallb clean_address l = true -> List.filter truthy_str l = l.
Proof.
  induction l as [|a l IH]; cbn [forallb List.filter]; [reflexivity |].
  intros Hl. apply andb_true_iff in Hl as [Ha Hl].
  destruct a as [|c rest]; [discriminate Ha |]. cbn. rewrite (IH Hl). reflexivity.
Qed.

(** X2: joining clean addresses with a comma or a semicolon, with any
    whitespace on either side of it, and normalising the text gives the
    addresses back, in order. *)
Theorem normalize_join_round_trip `{Runtime} (ws1 ws2 : pystr) (c : N)
    (l : list pystr) :
  forallb is_space ws1 = true ->
  forallb is_space ws2 = true ->
  Reference.is_separator c = true ->
  forallb clean_address l = true ->
  normalize_email_list (VStr (str_join (ws1 ++ [c] ++ ws2) l)) = map VStr l.
Proof.
  intros Hws1 Hws2 Hc Hl.
  unfold normalize_email_list. rewrite re_split_reference, strip_filter_commute.
  destruct l as [|a l]; [reflexivity |].
  rewrite <- (app_nil_l (str_join _ _)).
  rewrite (strip_split_join ws1 ws2 c Hws1 Hws2 Hc a l [] eq_refl Hl).
  rewrite (filter_clean _ Hl). reflexivity.
Qed.

Lemma normalize_join_round_trip_witness :
  forallb is_space (lit " ") = true
  /\ forallb is_space (lit "  ") = true
  /\ Reference.is_separator 59 = true
  /\ forallb clean_address [alice; bob; carol] = true
  /\ @normalize_email_list ascii_runtime
       (VStr (str_join (lit " " ++ [59%N] ++ lit "  ") [alice; bob; carol]))
     = map VStr [alice; bob; carol].
Proof.
  exact (conj eq_refl (conj eq_refl (conj eq_refl (conj eq_refl
    (@normalize_join_round_trip ascii_runtime (lit " ") (lit "  ") 59
       [alice; bob; carol] eq_refl eq_refl eq_refl eq_refl))))).
Defined.

(* ================================================================== *)
(** * What an accepted address looks like *)
(* ================================================================== *)

Lemma count_occ_forallb (f : N -> bool) (l : pystr) (x : N) :
  forallb f l = true -> f x = false -> count_occ N.eq_dec l x = 0.
Proof.
  intros Hl Hx. apply count_occ_not_In. intros Hin.
  rewrite forallb_forall in Hl. rewrite (Hl x Hin) in Hx. discriminate.
Qed.

Lemma forallb_weaken {A} (f g : A -> bool) (l : list A) :
  (forall x, f x = true -> g x = true) -> forallb f l = true -> forallb g l = true.
Proof.
  intros Hfg. rewrite !forallb_forall. auto.
Qed.

(** X3: a string the validator accepts is an address proper, or an
    address proper followed by one final newline, where the address proper
    holds exactly one at sign, is at least six characters long, ends in a
    word character, and is made of word characters, dots, hyphens and the
    at sign only. *)
Theorem accepted_address_shape `{Runtime} (s : pystr) :
  validate_email_format s = true ->
  exists address : pystr,
    (s = address \/ s = address ++ [10%N])
    /\ count_occ N.eq_dec address 64%N = 1
    /\ 6 <= length address
    /\ forallb (fun c => Reference.name_char c || (c =? 64)%N) address = true
    /\ (exists front c, address = front ++ [c] /\ Re.is_word c = true).
Proof.
  intros Hs. apply validate_email_format_matches in Hs
    as (name & domain & tld & tail & -> & Hname & Hn & Hdomain & Hd & Hlen & Ht & Htail).
  assert (Hchar : forall c, Reference.name_char c = true ->
            Reference.name_char c || (c =? 64)%N = true).
  { intros c Hc. rewrite Hc. reflexivity. }
  assert (Hword : forall c, Re.is_word c = true ->
            Reference.name_char c || (c =? 64)%N = true).
  { intros c Hc. unfold Reference.name_char. rewrite Hc. reflexivity. }
  exists (name ++ [64%N] ++ domain ++ [46%N] ++ tld).
  split; [| split; [| split; [| split]]].
  - destruct Htail as [-> | ->]; [left | right].
    + rewrite app_nil_r. reflexivity.
    + rewrite <- !app_assoc. reflexivity.
  - rewrite !count_occ_app.
    rewrite (count_occ_forallb _ name 64%N Hn eq_refl).
    rewrite (count_occ_forallb _ domain 64%N Hd eq_refl).
    rewrite (count_occ_forallb _ tld 64%N Ht eq_refl).
    reflexivity.
  - rewrite !length_app. cbn [length].
    destruct name; [congruence |]. destruct domain; [congruence |]. cbn [length]. lia.
  - rewrite !forallb_app.
    rewrite (forallb_weaken _ _ name Hchar Hn).
    rewrite (forallb_weaken _ _ domain Hchar Hd).
    rewrite (forallb_weaken _ _ tld Hword Ht).
    reflexivity.
  - apply full_match_last. exists name, domain, tld. auto 10.
Qed.

Lemma accepted_address_shape_witness :
  @validate_email_format ascii_runtime alice = true
  /\ exists address : pystr,
       (alice = address \/ alice = address ++ [10%N])
       /\ count_occ N.eq_dec address 64%N = 1
       /\ 6 <= length address.
Proof.
  destruct (@accepted_address_shape ascii_runtime alice eq_refl)
    as (address & Hs & Hat & Hlen & _).
  exact (conj eq_refl (ex_intro _ address (conj Hs (conj Hat Hlen)))).
Defined.

(* ================================================================== *)
(** * Texts that hold no address *)
(* ================================================================== *)

Lemma str_lstrip_all_spaces (ws : pystr) :
  forallb is_space ws = true -> str_lstrip ws = [].
Proof.
  intros Hws. rewrite <- (app_nil_r ws). rewrite str_lstrip_spaces by exact Hws.
  reflexivity.
Qed.

Lemma str_strip_all_spaces (ws : pystr) :
  forallb is_space ws = true <-> str_strip ws = [].
Proof.
  split.
  - intros Hws. unfold str_strip. rewrite str_lstrip_all_spaces by exact Hws.
    reflexivity.
  - intros Hstrip. destruct (str_strip_inside ws) as (ws1 & ws2 & Heq & H1 & H2).
    rewrite Hstrip in Heq. cbn [app] in Heq.
    rewrite Heq, forallb_app, H1, H2. reflexivity.
Qed.

(** Every character of a text is a separator or sits in one of the
    pieces. *)
Lemma split_covers (s : pystr) c :
  In c s ->
  Reference.is_separator c = true
  \/ exists p, In p (Reference.split_on_separators s) /\ In c p.
Proof.
  induction s as [|x s IH]; [intros [] |].
  cbn [Reference.split_on_separators]. intros [-> | Hin].
  - destruct (Reference.is_separator c) eqn:Hc; [left; reflexivity | right].
    destruct (Reference.split_on_separators s) as [|first pieces].
    + exists [c]. split; left; reflexivity.
    + exists (c :: first). split; left; reflexivity.
  - destruct (IH Hin) as [Hsep | (p & Hp & Hc)]; [left; exact Hsep | right].
    destruct (Reference.is_separator x).
    + exists p. split; [right; exact Hp | exact Hc].
    + destruct (Reference.split_on_separators s) as [|first pieces]; [destruct Hp |].
      destruct Hp as [<- | Hp].
      * exists (x :: first). split; [left; reflexivity | right; exact Hc].
      * exists p. split; [right; exact Hp | exact Hc].
Qed.

Lemma filter_none {A} (f : A -> bool) (l : list A) :
  (forall x, In x l -> f x = false) -> List.filter f l = [].
Proof.
  induction l as [|x l IH]; cbn [List.filter]; [reflexivity |].
  intros Hl. rewrite (Hl x (or_introl eq_refl)). apply IH.
  intros y Hy. apply Hl. right. exact Hy.
Qed.

(** X4: the normaliser returns the empty list for a string exactly when
    the string holds nothing but whitespace, commas and semicolons. *)
Theorem normalize_empty_iff_blank `{Runtime} (s : pystr) :
  normalize_email_list (VStr s) = [] <-> blank_text s = true.
Proof.
  unfold normalize_email_list, blank_text.
  rewrite re_split_reference. split.
  - intros Hnil. apply forallb_forall. intros c Hc.
    destruct (split_covers s c Hc) as [Hsep | (p & Hp & Hin)].
    + rewrite Hsep. apply orb_true_r.
    + destruct (truthy_str (str_strip p)) eqn:Hfull.
      * assert (Hitem : In (VStr (str_strip p))
                  (map (fun email => VStr (str_strip email))
                     (List.filter (fun email => truthy_str (str_strip email))
                        (Reference.split_on_separators s)))).
        { apply (in_map (fun email => VStr (str_strip email))).
          apply filter_In. auto. }
        rewrite Hnil in Hitem. destruct Hitem.
      * assert (Hstrip : str_strip p = [])
          by (destruct (str_strip p); [reflexivity | discriminate Hfull]).
        apply str_strip_all_spaces in Hstrip. rewrite forallb_forall in Hstrip.
        rewrite (Hstrip c Hin). reflexivity.
  - intros Hblank. rewrite forallb_forall in Hblank.
    rewrite filter_none; [reflexivity |]. intros p Hp.
    assert (Hspaces : forallb is_space p = true).
    { apply forallb_forall. intros c Hc.
      destruct (split_pieces_inside s p Hp) as (pre & post & Hs).
      assert (Hin : In c s) by (rewrite Hs, !in_app_iff; auto).
      pose proof (split_pieces_no_separator s p Hp) as Hsep.
      rewrite forallb_forall in Hsep. specialize (Hsep c Hc).
      apply negb_true_iff in Hsep. specialize (Hblank c Hin).
      rewrite Hsep, orb_false_r in Hblank. exact Hblank. }
    apply str_strip_all_spaces in Hspaces. rewrite Hspaces. reflexivity.
Qed.

Example normalize_blank_texts :
  map (fun s => @normalize_email_list ascii_runtime (VStr s))
      [ []; lit " "; lit ",;,"; lit " , ; " ]
  = [ []; []; []; [] ].
Proof. reflexivity. Qed.

(* ================================================================== *)
(** * The tools and the services behind them *)
(* ================================================================== *)

Lemma str_items_strings (l : list pystr) : str_items (map VStr l) = l.
Proof.
  unfold str_items. induction l as [|a l IH]; cbn; [reflexivity |].
  f_equal. exact IH.
Qed.

(** For a string argument the typed view loses nothing. *)
Lemma str_items_normalize `{Runtime} (s : pystr) :
  map VStr (str_items (normalize_email_list (VStr s))) = normalize_email_list (VStr s).
Proof.
  unfold normalize_email_list. rewrite strip_filter_commute, str_items_strings.
  reflexivity.
Qed.

(** X5: once the headers are obtained, and when every address of the CC
    and BCC texts is valid, a recipient text that holds no address (empty,
    or only whitespace, commas and semicolons) is not refused by the send
    tool: in Group mode one request with an empty TO section goes to the
    service, in Individual mode no request goes out and the result is
    [complete] with no outcome.  Under the same conditions the forward
    tool refuses such a text with the TO-required error and issues no
    request. *)
Theorem tools_blank_recipient_text `{Runtime} (w : world) (headers : pydict)
    (recipient subject body content_type cc bcc : pystr)
    (email_id additional_message : pystr) (send_individual : bool) :
  get_graph_auth_headers w = Return headers ->
  blank_text recipient = true ->
  all_valid (str_items (normalize_email_list (VStr cc))
             ++ str_items (normalize_email_list (VStr bcc))) ->
  let cc_list := str_items (normalize_email_list (VStr cc)) in
  let bcc_list := str_items (normalize_email_list (VStr bcc)) in
  let request := send_request headers subject body content_type cc_list bcc_list [] in
  send_email_tool w recipient subject body content_type cc bcc false []
    = (Return (complete_result [send_group_outcome (upstream w 0 request) []]),
       [request])
  /\ (exists message,
        req_json request = Some [ (lit "message", VDict message);
                                  (lit "saveToSentItems", VStr (lit "true")) ]
        /\ dict_get (lit "toRecipients") message = Some (VList []))
  /\ send_email_tool w recipient subject body content_type cc bcc true []
     = (Return (complete_result []), [])
  /\ forward_email_tool w email_id recipient cc bcc additional_message content_type
                        send_individual []
     = (Return (error_result (lit "At least one TO recipient is required")), []).
Proof.
  intros Hauth Hblank Hvalid cc_list bcc_list request.
  apply normalize_empty_iff_blank in Hblank.
  apply all_valid_invalid_addresses in Hvalid.
  unfold send_email_tool, forward_email_tool. rewrite Hblank. cbn [str_items flat_map].
  fold cc_list bcc_list. fold cc_list bcc_list in Hvalid.
  split; [| split; [| split]].
  - rewrite (send_outlook_email_run w headers Hauth). cbv zeta.
    cbn [app]. rewrite Hvalid. reflexivity.
  - eexists. split; reflexivity.
  - rewrite (send_outlook_email_run w headers Hauth). cbv zeta.
    cbn [app]. rewrite Hvalid. reflexivity.
  - rewrite (forward_outlook_email_run w headers Hauth). cbv zeta.
    cbn [app]. rewrite Hvalid. reflexivity.
Qed.

Lemma tools_blank_recipient_text_witness :
  get_graph_auth_headers world_ok = Return bearer_headers
  /\ blank_text (lit " ; , ") = true
  /\ @all_valid ascii_runtime
       (str_items (@normalize_email_list ascii_runtime (VStr (lit "carol@example.net")))
        ++ str_items (@normalize_email_list ascii_runtime (VStr [])))
  /\ @send_email_tool ascii_runtime world_ok (lit " ; , ") (lit "Hello") (lit "Body")
       (lit "Text") (lit "carol@example.net") [] false []
     = (Return (complete_result [group_success "sent" []]),
        [@send_request ascii_runtime bearer_headers (lit "Hello") (lit "Body")
                       (lit "Text") [carol] [] []])
  /\ @forward_email_tool ascii_runtime world_ok (lit "AAMkAD") (lit " ; , ")
       (lit "carol@example.net") [] (lit "FYI") (lit "Text") false []
     = (Return (error_result (lit "At least one TO recipient is required")), []).
Proof.
  assert (Hauth : get_graph_auth_headers world_ok = Return bearer_headers)
    by reflexivity.
  assert (Hvalid : @all_valid ascii_runtime
            (str_items (@normalize_email_list ascii_runtime
                          (VStr (lit "carol@example.net")))
             ++ str_items (@normalize_email_list ascii_runtime (VStr []))))
    by (apply all_valid_checked; reflexivity).
  destruct (@tools_blank_recipient_text ascii_runtime world_ok bearer_headers
              (lit " ; , ") (lit "Hello") (lit "Body") (lit "Text")
              (lit "carol@example.net") [] (lit "AAMkAD") (lit "FYI") false
              Hauth eq_refl Hvalid) as (Hgroup & _ & _ & Hforward).
  split; [exact Hauth |]. split; [reflexivity |]. split; [exact Hvalid |].
  split; [rewrite Hgroup; reflexivity | exact Hforward].
Defined.

(** X6: once the headers are obtained, a reply issues exactly one POST on
    the message's [/reply] address, carrying nothing but the reply body,
    and returns without raising: [success] when the reply is in the
    success range, otherwise an error whose message holds the status code
    and the body text of the response, or the description of the failure
    below HTTP. *)
Theorem reply_single_call `{Runtime} (w : world) (headers : pydict)
    (email_id reply_message content_type : pystr) :
  get_graph_auth_headers w = Return headers ->
  let request :=
    post_request (reply_url email_id) headers
                 (reply_payload reply_message content_type) in
  reply_to_outlook_email w email_id reply_message content_type []
  = (Return
       match upstream w 0 request with
       | Responded status _ body_text _ =>
           if is_success status
           then VDict [ (lit "status", VStr (lit "success"));
                        (lit "message", VStr (lit "Reply sent successfully.")) ]
           else error_result (http_error_message status body_text)
       | Failed description =>
           error_result (lit "Error sending reply: " ++ description)
       end,
     [request]).
Proof.
  intros Hauth request.
  unfold reply_to_outlook_email, bind at 1, lift. rewrite Hauth.
  unfold try_except, bind, client_post, client_call. cbn [length app].
  fold (post_request (reply_url email_id) headers
          (reply_payload reply_message content_type)). fold request.
  destruct (upstream w 0 request) as [status reason body_text body_json | d];
    [| reflexivity].
  unfold raise_for_status. cbn [status_code resp_url reason_phrase text].
  destruct (is_success status); reflexivity.
Qed.

Lemma reply_single_call_witness :
  get_graph_auth_headers world_throttled = Return bearer_headers
  /\ @reply_to_outlook_email ascii_runtime world_throttled (lit "AAMkAD")
       (lit "Thanks") (lit "Text") []
     = (Return (error_result (lit "HTTP Error 429: {quota exceeded}")),
        [post_request (lit "https://graph.microsoft.com/v1.0/me/messages/AAMkAD/reply")
                      bearer_headers (reply_payload (lit "Thanks") (lit "Text"))]).
Proof.
  assert (Hauth : get_graph_auth_headers world_throttled = Return bearer_headers)
    by reflexivity.
  split; [exact Hauth |].
  rewrite (@reply_single_call ascii_runtime world_throttled bearer_headers
             (lit "AAMkAD") (lit "Thanks") (lit "Text") Hauth).
  reflexivity.
Defined.

(** X7: once the headers are obtained, a delete issues exactly one DELETE
    on the message's address, with no body and no parameters, and returns
    without raising: [success] when the reply is in the success range,
    otherwise an error whose message holds the status code and the body
    text of the response, or the description of the failure below HTTP. *)
Theorem delete_single_call `{Runtime} (w : world) (headers : pydict)
    (email_id : pystr) :
  get_graph_auth_headers w = Return headers ->
  let request :=
    {| req_method := lit "DELETE"; req_url := delete_url email_id;
       req_headers := headers; req_params := None; req_json := None |} in
  delete_outlook_email w email_id []
  = (Return
       match upstream w 0 request with
       | Responded status _ body_text _ =>
           if is_success status
           then VDict [ (lit "status", VStr (lit "success"));
                        (lit "message", VStr (lit "Deleting email was successfull.")) ]
           else error_result (http_error_message status body_text)
       | Failed description =>
           error_result (lit "Error deleting email: " ++ description)
       end,
     [request]).
Proof.
  intros Hauth request.
  unfold delete_outlook_email, bind at 1, lift. rewrite Hauth.
  unfold try_except, bind, client_delete, client_call. cbn [length app].
  fold request.
  destruct (upstream w 0 request) as [status reason body_text body_json | d];
    [| reflexivity].
  unfold raise_for_status. cbn [status_code resp_url reason_phrase text].
  destruct (is_success status); reflexivity.
Qed.

Lemma delete_single_call_witness :
  get_graph_auth_headers world_ok = Return bearer_headers
  /\ @delete_outlook_email ascii_runtime world_ok (lit "AAMkAD") []
     = (Return (VDict [ (lit "status", VStr (lit "success"));
                        (lit "message", VStr (lit "Deleting email was successfull.")) ]),
        [ {| req_method := lit "DELETE";
             req_url := lit "https://graph.microsoft.com/v1.0/me/messages/AAMkAD";
             req_headers := bearer_headers; req_params := None;
             req_json := None |} ]).
Proof.
  assert (Hauth : get_graph_auth_headers world_ok = Return bearer_headers)
    by reflexivity.
  split; [exact Hauth |].
  rewrite (@delete_single_call ascii_runtime world_ok bearer_headers
             (lit "AAMkAD") Hauth).
  reflexivity.
Defined.

(** X8: when no token can be had, the exception of
    [get_graph_auth_headers] leaves each of the five services as it is,
    before any address is validated and before any request is issued. *)
Theorem missing_token_stops_every_service `{Runtime} (w : world) (e : exn)
    (to cc bcc : list pystr) (subject body content_type : pystr)
    (email_id additional_message reply_message folder : pystr)
    (send_individual : bool) (is_read : option bool)
    (sender fetched_id subject_filter : option pystr) (top : Z) :
  get_graph_auth_headers w = Raise e ->
  send_outlook_email w to subject body content_type send_individual cc bcc []
    = (Raise e, [])
  /\ forward_outlook_email w email_id to cc bcc additional_message content_type
                           send_individual []
    = (Raise e, [])
  /\ reply_to_outlook_email w email_id reply_message content_type [] = (Raise e, [])
  /\ delete_outlook_email w email_id [] = (Raise e, [])
  /\ fetch_outlook_emails w folder is_read sender fetched_id subject_filter top []
    = (Raise e, []).
Proof.
  intros Hauth.
  unfold send_outlook_email, forward_outlook_email, reply_to_outlook_email,
    delete_outlook_email, fetch_outlook_emails, bind, lift.
  rewrite Hauth. repeat split.
Qed.

Lemma missing_token_stops_every_service_witness :
  get_graph_auth_headers world_no_token
  = Raise (Exception (lit "Unable to acquire access token for Graph API requests"))
  /\ @send_outlook_email ascii_runtime world_no_token [lit "not an address"]
       (lit "Hello") (lit "Body") (lit "Text") false [] [] []
     = (Raise (Exception (lit "Unable to acquire access token for Graph API requests")),
        []).
Proof.
  assert (Hauth : get_graph_auth_headers world_no_token
                  = Raise (Exception
                             (lit "Unable to acquire access token for Graph API requests")))
    by reflexivity.
  destruct (@missing_token_stops_every_service ascii_runtime world_no_token _
              [lit "not an address"] [] [] (lit "Hello") (lit "Body") (lit "Text")
              (lit "AAMkAD") [] [] (lit "inbox") false None None None None 10 Hauth)
    as (Hsend & _).
  exact (conj Hauth Hsend).
Defined.

(* ================================================================== *)
(** * Running a computation step by step *)
(* ================================================================== *)

Lemma run_bind {A B} (m : M A) (k : A -> M B) log a log' :
  m log = (Return a, log') -> bind m k log = k a log'.
Proof. intros Hm. unfold bind. rewrite Hm. reflexivity. Qed.

Lemma run_bind_raise {A B} (m : M A) (k : A -> M B) log e log' :
  m log = (Raise e, log') -> bind m k log = (Raise e, log').
Proof. intros Hm. unfold bind. rewrite Hm. reflexivity. Qed.

Lemma run_try_return {A} (body : M A) (handler : exn -> M A) log a log' :
  body log = (Return a, log') -> try_except body handler log = (Return a, log').
Proof. intros Hm. unfold try_except. rewrite Hm. reflexivity. Qed.

Lemma run_try_raise {A} (body : M A) (handler : exn -> M A) log e log' :
  body log = (Raise e, log') -> try_except body handler log = handler e log'.
Proof. intros Hm. unfold try_except. rewrite Hm. reflexivity. Qed.

Lemma ensures_ret {A} (P : A -> Prop) (a : A) : P a -> ensures P (ret a).
Proof. intros Ha log x log' Heq. injection Heq as <- _. exact Ha. Qed.

Lemma ensures_raise {A} (P : A -> Prop) (e : exn) : ensures P (@raise A e).
Proof. intros log x log' Heq. discriminate Heq. Qed.

Lemma ensures_bind {A B} (P : B -> Prop) (m : M A) (k : A -> M B) :
  (forall a, ensures P (k a)) -> ensures P (bind m k).
Proof.
  intros Hk log b log'. unfold bind.
  destruct (m log) as [[a | e] log1]; [apply Hk | discriminate].
Qed.

(* ================================================================== *)
(** * Fetch: what comes back *)
(* ================================================================== *)

Section FetchFacts.
Context `{Runtime}.

Lemma from_address_ok (email : pyval) log :
  sender_ok email = true ->
  from_address email log = (Return (sender_address email), log).
Proof.
  destruct email as [| | | | | d]; try discriminate.
  unfold sender_ok, from_address, sender_address, field_or, bind. cbn [py_get ret].
  destruct (dict_get (lit "from") d) as [[| | | | | sender] |]; try discriminate;
    [| reflexivity].
  cbn [py_get ret].
  destruct (dict_get (lit "emailAddress") sender) as [[| | | | | address] |];
    try discriminate; reflexivity.
Qed.

Lemma summary_of_ok (email : pyval) log :
  sender_ok email = true -> summary_of email log = (Return (summary email), log).
Proof.
  intros Hok. destruct email as [| | | | | d]; try discriminate.
  unfold summary_of.
  do 2 (erewrite run_bind; [| reflexivity]).
  erewrite run_bind; [| apply from_address_ok; exact Hok].
  do 3 (erewrite run_bind; [| reflexivity]).
  reflexivity.
Qed.

Lemma summarize_ok (emails : list pyval) : forall summaries log,
  forallb sender_ok emails = true ->
  summarize emails summaries log = (Return (summaries ++ map summary emails), log).
Proof.
  induction emails as [|email rest IH]; intros summaries log Hok;
    cbn [summarize map forallb] in *.
  - rewrite app_nil_r. reflexivity.
  - apply andb_true_iff in Hok as [Hemail Hrest].
    rewrite (run_bind _ _ _ _ _ (summary_of_ok email log Hemail)).
    rewrite (IH _ _ Hrest), <- app_assoc. reflexivity.
Qed.

Lemma subject_matches_ok (terms : list pystr) (email : pyval) log :
  subject_ok email = true ->
  subject_matches terms email log = (Return (matches_subject terms email), log).
Proof.
  destruct email as [| | | | | d]; try discriminate.
  unfold subject_ok, subject_matches, matches_subject, subject_text, field_or, bind.
  cbn [py_get ret].
  destruct (dict_get (lit "subject") d) as [[| | | s | |] |]; try discriminate;
    reflexivity.
Qed.

Lemma filter_by_subject_ok (terms : list pystr) (emails : list pyval) :
  forall kept log,
  forallb subject_ok emails = true ->
  filter_by_subject terms emails kept log
  = (Return (kept ++ List.filter (matches_subject terms) emails), log).
Proof.
  induction emails as [|email rest IH]; intros kept log Hok;
    cbn [filter_by_subject List.filter forallb] in *.
  - rewrite app_nil_r. reflexivity.
  - apply andb_true_iff in Hok as [Hemail Hrest].
    rewrite (run_bind _ _ _ _ _ (subject_matches_ok terms email log Hemail)).
    rewrite (IH _ _ Hrest).
    destruct (matches_subject terms email); [rewrite <- app_assoc |]; reflexivity.
Qed.

(** A message whose subject is not a string stops the filter with the
    exception of the missing [lower]. *)
Lemma filter_by_subject_stops (terms : list pystr) (good : list pyval)
    (d : pydict) (v : pyval) (rest : list pyval) : forall kept log,
  forallb subject_ok good = true ->
  dict_get (lit "subject") d = Some v ->
  (forall s, v <> VStr s) ->
  filter_by_subject terms (good ++ VDict d :: rest) kept log
  = (Raise (Exception (lit "'" ++ type_name v
                       ++ lit "' object has no attribute 'lower'")), log).
Proof.
  induction good as [|email good IH]; intros kept log Hok Hsubject Hv;
    cbn [app filter_by_subject forallb] in *.
  - unfold bind, subject_matches, bind. cbn [py_get ret]. rewrite Hsubject.
    destruct v as [| | | s | |]; try reflexivity. destruct (Hv s eq_refl).
  - apply andb_true_iff in Hok as [Hemail Hgood].
    rewrite (run_bind _ _ _ _ _ (subject_matches_ok terms email log Hemail)).
    apply IH; assumption.
Qed.

(** No clause of the server-side filter is a [contains(subject, ...)]
    clause: the client-side filter is never switched off. *)
Lemma fetch_filters_no_subject_clause is_read sender :
  existsb (fun f => str_startswith f (lit "contains(subject,"))
          (fetch_filters is_read sender) = false.
Proof.
  unfold fetch_filters.
  destruct is_read as [b |], sender as [s |]; try destruct (truthy_str s);
    reflexivity.
Qed.

End FetchFacts.

(* ================================================================== *)
(** * Fetch: the page, the filter and the summaries *)
(* ================================================================== *)

(** The list branch with its request and its server-side filter spelled
    out: the clauses never start with [contains(subject,], so the guard
    on them is always passed. *)
Lemma fetch_list_steps `{Runtime} (w : world) (headers : pydict) (folder : pystr)
    (is_read : option bool) (sender subject : option pystr) (top : Z) log :
  fetch_list w headers folder is_read sender subject top log
  = try_except
      (response <~ client_call w (list_request headers folder is_read sender top) ;;
       _ <~ raise_for_status response ;;
       data <~ lift (json_body response) ;;
       emails <~ py_get data (lit "value") (VList []) ;;
       emails <~
         (match subject with
          | Some subj =>
              if truthy_str subj
              then
                items <~ py_iter emails ;;
                filtered_emails <~
                  filter_by_subject (str_split (str_lower subj)) items [] ;;
                ret (VList filtered_emails)
              else ret emails
          | None => ret emails
          end) ;;
       items <~ py_iter emails ;;
       email_summaries <~ summarize items [] ;;
       ret (VDict [ (lit "status", VStr (lit "success"));
                    (lit "emails", emails);
                    (lit "email_summaries", VList email_summaries) ]))
      (fun e =>
         match e with
         | HTTPStatusError _ status body_text =>
             ret (error_result (http_error_message status body_text))
         | Exception _ =>
             ret (error_result (lit "Error fetching emails: " ++ str_exn e))
         end) log.
Proof.
  unfold fetch_list, list_request, fetch_params, fetch_filters, client_get.
  cbv zeta.
  destruct is_read as [b |], sender as [s |], subject as [subj |];
    try destruct (truthy_str s); try destruct (truthy_str subj); reflexivity.
Qed.

Lemma fetch_outlook_emails_list `{Runtime} (w : world) (headers : pydict)
    (folder : pystr) (is_read : option bool) (sender email_id subject : option pystr)
    (top : Z) :
  get_graph_auth_headers w = Return headers ->
  truthy_opt email_id = false ->
  fetch_outlook_emails w folder is_read sender email_id subject top []
  = fetch_list w headers folder is_read sender subject top [].
Proof.
  intros Hauth Hid. unfold fetch_outlook_emails, bind at 1, lift. rewrite Hauth.
  destruct email_id as [id |]; cbn in Hid; [rewrite Hid |]; reflexivity.
Qed.

Lemma fetch_outlook_emails_by_id `{Runtime} (w : world) (headers : pydict)
    (folder : pystr) (is_read : option bool) (sender subject : option pystr)
    (id : pystr) (top : Z) :
  get_graph_auth_headers w = Return headers ->
  truthy_str id = true ->
  fetch_outlook_emails w folder is_read sender (Some id) subject top []
  = fetch_by_id w headers id [].
Proof.
  intros Hauth Hid. unfold fetch_outlook_emails, bind at 1, lift.
  rewrite Hauth, Hid. reflexivity.
Qed.

Lemma forallb_filter {A} (f g : A -> bool) (l : list A) :
  forallb f l = true -> forallb f (List.filter g l) = true.
Proof.
  rewrite !forallb_forall. intros Hl x Hx. apply filter_In in Hx as [Hx _]. auto.
Qed.

(** X9: once the headers are obtained, take a fetch without an
    [email_id] and with a subject filter, answered in the success range
    with a page all of whose messages are well formed: each is an object
    whose [subject], when present, is a string, and whose [from], when
    present, is an object whose [emailAddress], when present, is an
    object.  The fetch returns exactly the messages whose lower-cased
    subject contains every whitespace-separated term of the lower-cased
    filter, in the order of the page, whatever [is_read] and [sender] are;
    the summaries are those of the messages kept, in the same order. *)
Theorem fetch_subject_filter_keeps_matches `{Runtime} (w : world) (headers : pydict)
    (folder : pystr) (is_read : option bool) (sender email_id : option pystr)
    (subject : pystr) (top : Z)
    (status : Z) (reason body_text : pystr) (data : pydict) (emails : list pyval) :
  get_graph_auth_headers w = Return headers ->
  truthy_opt email_id = false ->
  truthy_str subject = true ->
  upstream w 0 (list_request headers folder is_read sender top)
    = Responded status reason body_text (Return (VDict data)) ->
  is_success status = true ->
  dict_get (lit "value") data = Some (VList emails) ->
  forallb subject_ok emails = true ->
  forallb sender_ok emails = true ->
  let kept := List.filter (matches_subject (str_split (str_lower subject))) emails in
  fetch_outlook_emails w folder is_read sender email_id (Some subject) top []
  = (Return (VDict [ (lit "status", VStr (lit "success"));
                     (lit "emails", VList kept);
                     (lit "email_summaries", VList (map summary kept)) ]),
     [list_request headers folder is_read sender top]).
Proof.
  intros Hauth Hid Hsubject Hreply Hsuccess Hpage Hsubjects Hsenders kept.
  rewrite (fetch_outlook_emails_list _ _ _ _ _ _ _ _ Hauth Hid), fetch_list_steps.
  erewrite run_try_return; [reflexivity |].
  erewrite run_bind;
    [| unfold client_call; cbn [length app]; rewrite Hreply; reflexivity].
  erewrite run_bind;
    [| unfold raise_for_status; cbn [status_code]; rewrite Hsuccess; reflexivity].
  erewrite run_bind; [| reflexivity].
  erewrite run_bind; [| cbn [py_get]; rewrite Hpage; reflexivity].
  rewrite Hsubject.
  erewrite run_bind;
    [| erewrite run_bind; [| reflexivity];
       erewrite run_bind; [| apply filter_by_subject_ok; exact Hsubjects];
       reflexivity].
  erewrite run_bind; [| reflexivity].
  erewrite run_bind; [| apply summarize_ok, forallb_filter; exact Hsenders].
  reflexivity.
Qed.

(** X10: once the headers are obtained, take a fetch without an
    [email_id] and without a subject filter ([None] or the empty string),
    answered in the success range with a page each of whose messages is an
    object whose [from], when present, is an object whose [emailAddress],
    when present, is an object.  The page comes back as it is, also a
    message whose subject is not a string, with one summary per message,
    in the order of the page. *)
Theorem fetch_unfiltered_page `{Runtime} (w : world) (headers : pydict)
    (folder : pystr) (is_read : option bool) (sender email_id subject : option pystr)
    (top : Z)
    (status : Z) (reason body_text : pystr) (data : pydict) (emails : list pyval) :
  get_graph_auth_headers w = Return headers ->
  truthy_opt email_id = false ->
  truthy_opt subject = false ->
  upstream w 0 (list_request headers folder is_read sender top)
    = Responded status reason body_text (Return (VDict data)) ->
  is_success status = true ->
  dict_get (lit "value") data = Some (VList emails) ->
  forallb sender_ok emails = true ->
  fetch_outlook_emails w folder is_read sender email_id subject top []
  = (Return (VDict [ (lit "status", VStr (lit "success"));
                     (lit "emails", VList emails);
                     (lit "email_summaries", VList (map summary emails)) ]),
     [list_request headers folder is_read sender top]).
Proof.
  intros Hauth Hid Hsubject Hreply Hsuccess Hpage Hsenders.
  rewrite (fetch_outlook_emails_list _ _ _ _ _ _ _ _ Hauth Hid), fetch_list_steps.
  erewrite run_try_return; [reflexivity |].
  erewrite run_bind;
    [| unfold client_call; cbn [length app]; rewrite Hreply; reflexivity].
  erewrite run_bind;
    [| unfold raise_for_status; cbn [status_code]; rewrite Hsuccess; reflexivity].
  erewrite run_bind; [| reflexivity].
  erewrite run_bind; [| cbn [py_get]; rewrite Hpage; reflexivity].
  erewrite run_bind;
    [| destruct subject as [subj |]; cbn in Hsubject; [rewrite Hsubject |];
       reflexivity].
  erewrite run_bind; [| reflexivity].
  erewrite run_bind; [| apply summarize_ok; exact Hsenders].
  reflexivity.
Qed.

(** X11: with a subject filter, one message of the page whose [subject]
    is present but not a string (a JSON [null], say) makes the whole fetch
    return the error of the missing [lower]: none of the other messages
    is returned. *)
Theorem fetch_subject_filter_malformed `{Runtime} (w : world) (headers : pydict)
    (folder : pystr) (is_read : option bool) (sender email_id : option pystr)
    (subject : pystr) (top : Z)
    (status : Z) (reason body_text : pystr) (data : pydict)
    (good : list pyval) (d : pydict) (v : pyval) (rest : list pyval) :
  get_graph_auth_headers w = Return headers ->
  truthy_opt email_id = false ->
  truthy_str subject = true ->
  upstream w 0 (list_request headers folder is_read sender top)
    = Responded status reason body_text (Return (VDict data)) ->
  is_success status = true ->
  dict_get (lit "value") data = Some (VList (good ++ VDict d :: rest)) ->
  forallb subject_ok good = true ->
  dict_get (lit "subject") d = Some v ->
  (forall s, v <> VStr s) ->
  fetch_outlook_emails w folder is_read sender email_id (Some subject) top []
  = (Return (error_result
               (lit "Error fetching emails: '" ++ type_name v
                ++ lit "' object has no attribute 'lower'")),
     [list_request headers folder is_read sender top]).
Proof.
  intros Hauth Hid Hsubject Hreply Hsuccess Hpage Hgood Hd Hv.
  rewrite (fetch_outlook_emails_list _ _ _ _ _ _ _ _ Hauth Hid), fetch_list_steps.
  erewrite run_try_raise.
  2: { erewrite run_bind;
         [| unfold client_call; cbn [length app]; rewrite Hreply; reflexivity].
       erewrite run_bind;
         [| unfold raise_for_status; cbn [status_code]; rewrite Hsuccess;
            reflexivity].
       erewrite run_bind; [| reflexivity].
       erewrite run_bind; [| cbn [py_get]; rewrite Hpage; reflexivity].
       rewrite Hsubject.
       erewrite run_bind_raise.
       2: { erewrite run_bind; [| reflexivity].
            erewrite run_bind_raise;
              [| apply filter_by_subject_stops; eassumption].
            reflexivity. }
       reflexivity. }
  reflexivity.
Qed.

(** A guarded call: when what follows the call issues no request and the
    handler neither issues one nor raises, the guarded block returns, the
    log gains exactly the call, and the value is one the continuation or
    the handler can return. *)
Lemma guarded_call_returns {A} (P : A -> Prop) (w : world) (req : request)
    (k : response -> M A) (handler : exn -> M A) log :
  (forall r, silent (k r)) ->
  (forall r, ensures P (k r)) ->
  (forall e log', exists a, handler e log' = (Return a, log') /\ P a) ->
  exists a, try_except (bind (client_call w req) k) handler log
            = (Return a, log ++ [req]) /\ P a.
Proof.
  intros Hsilent Hensures Hhandler.
  unfold try_except, bind, client_call.
  destruct (upstream w (length log) req) as [status reason body_text body_json | d];
    [| apply Hhandler].
  match goal with |- context [k ?r (log ++ [req])] =>
    specialize (Hsilent r (log ++ [req])); specialize (Hensures r (log ++ [req]));
    destruct (k r (log ++ [req])) as [[a | e] log']
  end; cbn in Hsilent; subst log'.
  - exists a. split; [reflexivity | exact (Hensures a _ eq_refl)].
  - apply Hhandler.
Qed.

(** The value is a record whose [status] is [success] or [error]. *)
Lemma status_known_success (fields : pydict) :
  let result := VDict ((lit "status", VStr (lit "success")) :: fields) in
  outcome_field (lit "status") result = Some (VStr (lit "success"))
  \/ outcome_field (lit "status") result = Some (VStr (lit "error")).
Proof. left. reflexivity. Qed.

Lemma status_known_error (message : pystr) :
  outcome_field (lit "status") (error_result message) = Some (VStr (lit "success"))
  \/ outcome_field (lit "status") (error_result message) = Some (VStr (lit "error")).
Proof. right. reflexivity. Qed.

(** X12: once the headers are obtained a fetch never raises and issues
    exactly one GET, whatever the service answers and whatever the body
    holds: the request for the message when [email_id] is given, otherwise
    the list request, whose [$filter] is there exactly when [is_read] is
    given or [sender] is not empty; the subject takes no part in the
    request.  The result is a record with status [success] or [error]. *)
Theorem fetch_always_returns `{Runtime} (w : world) (headers : pydict)
    (folder : pystr) (is_read : option bool) (sender email_id subject : option pystr)
    (top : Z) :
  get_graph_auth_headers w = Return headers ->
  (exists result,
     fetch_outlook_emails w folder is_read sender email_id subject top []
     = (Return result, [fetch_request headers folder is_read sender email_id top])
     /\ (outcome_field (lit "status") result = Some (VStr (lit "success"))
         \/ outcome_field (lit "status") result = Some (VStr (lit "error"))))
  /\ dict_has (lit "$filter") (fetch_params is_read sender top)
     = (match is_read with Some _ => true | None => false end) || truthy_opt sender.
Proof.
  intros Hauth. split.
  - unfold fetch_outlook_emails, bind at 1, lift. rewrite Hauth.
    assert (Hhandler : forall (prefix : pystr) e log', exists a,
              match e with
              | HTTPStatusError _ status body_text =>
                  ret (error_result (http_error_message status body_text))
              | Exception _ => ret (error_result (prefix ++ str_exn e))
              end log' = (Return a, log')
              /\ (outcome_field (lit "status") a = Some (VStr (lit "success"))
                  \/ outcome_field (lit "status") a = Some (VStr (lit "error")))).
    { intros prefix [message status body_text | message] log'; eexists;
        (split; [reflexivity | apply status_known_error]). }
    assert (Hlist : exists result,
              fetch_list w headers folder is_read sender subject top []
              = (Return result, [list_request headers folder is_read sender top])
              /\ (outcome_field (lit "status") result = Some (VStr (lit "success"))
                  \/ outcome_field (lit "status") result = Some (VStr (lit "error")))).
    { rewrite fetch_list_steps. apply (guarded_call_returns _ w _ _ _ []).
      - intros r. apply silent_bind; [apply silent_raise_for_status | intros _].
        apply silent_bind; [apply silent_lift | intros page].
        apply silent_bind; [apply silent_py_get | intros emails].
        apply silent_bind.
        + destruct subject as [subj |]; [| apply silent_ret].
          destruct (truthy_str subj); [| apply silent_ret].
          apply silent_bind; [apply silent_py_iter | intros items].
          apply silent_bind; [apply silent_filter_by_subject | intros kept].
          apply silent_ret.
        + intros emails'.
          apply silent_bind; [apply silent_py_iter | intros items].
          apply silent_bind; [apply silent_summarize | intros summaries].
          apply silent_ret.
      - intros r. do 6 (apply ensures_bind; intros ?).
        apply ensures_ret, status_known_success.
      - apply Hhandler. }
    unfold fetch_request.
    destruct email_id as [id |]; [destruct (truthy_str id) |]; try exact Hlist.
    unfold fetch_by_id, client_get, by_id_request.
    apply (guarded_call_returns _ w _ _ _ []).
    + intros r. apply silent_bind; [apply silent_raise_for_status | intros _].
      apply silent_bind; [apply silent_lift | intros message].
      apply silent_bind; [apply silent_py_get | intros id'].
      apply silent_bind; [apply silent_py_get | intros subject'].
      apply silent_bind; [apply silent_from_address | intros sender'].
      apply silent_ret.
    + intros r. do 5 (apply ensures_bind; intros ?).
      apply ensures_ret, status_known_success.
    + apply Hhandler.
  - unfold fetch_params, fetch_filters.
    destruct is_read as [b |], sender as [s |]; try destruct (truthy_str s) eqn:Hs;
      cbn [truthy_opt]; rewrite ?Hs; reflexivity.
Qed.

(** X13: once the headers are obtained, a fetch with an [email_id] asks
    for that message alone, with no parameters: the folder, the filters
    and the subject are not used.  When the reply is in the success range
    and its body is a message object whose [from], when present, is an
    object whose [emailAddress], when present, is an object, the result
    holds the message and, beside it, its [id], its [subject] and the
    address of its sender, the empty string standing for each one that is
    missing. *)
Theorem fetch_by_id_success `{Runtime} (w : world) (headers : pydict)
    (folder : pystr) (is_read : option bool) (sender subject : option pystr)
    (id : pystr) (top : Z)
    (status : Z) (reason body_text : pystr) (message : pyval) :
  get_graph_auth_headers w = Return headers ->
  truthy_str id = true ->
  upstream w 0 (by_id_request headers id)
    = Responded status reason body_text (Return message) ->
  is_success status = true ->
  sender_ok message = true ->
  fetch_outlook_emails w folder is_read sender (Some id) subject top []
  = (Return (VDict [ (lit "status", VStr (lit "success"));
                     (lit "email", message);
                     (lit "email_id", field_or (lit "id") (VStr []) message);
                     (lit "subject", field_or (lit "subject") (VStr []) message);
                     (lit "from", sender_address message) ]),
     [by_id_request headers id]).
Proof.
  intros Hauth Hid Hreply Hsuccess Hsender.
  rewrite (fetch_outlook_emails_by_id _ _ _ _ _ _ _ _ Hauth Hid).
  unfold fetch_by_id, client_get. unfold by_id_request in Hreply |- *.
  destruct message as [| | | | | d]; try discriminate Hsender.
  erewrite run_try_return; [reflexivity |].
  erewrite run_bind;
    [| unfold client_call; cbn [length app]; rewrite Hreply; reflexivity].
  erewrite run_bind;
    [| unfold raise_for_status; cbn [status_code]; rewrite Hsuccess; reflexivity].
  do 3 (erewrite run_bind; [| reflexivity]).
  erewrite run_bind; [| apply from_address_ok; exact Hsender].
  reflexivity.
Qed.

(** X14: a fetch with an [email_id] whose call is not answered in the
    success range returns an error and does not raise: the message holds
    the status code and the body text of the response, or the description
    of the failure below HTTP. *)
Theorem fetch_by_id_failure `{Runtime} (w : world) (headers : pydict)
    (folder : pystr) (is_read : option bool) (sender subject : option pystr)
    (id : pystr) (top : Z) :
  get_graph_auth_headers w = Return headers ->
  truthy_str id = true ->
  delivered (upstream w 0 (by_id_request headers id)) = false ->
  fetch_outlook_emails w folder is_read sender (Some id) subject top []
  = (Return (error_result
               match upstream w 0 (by_id_request headers id) with
               | Responded status _ body_text _ => http_error_message status body_text
               | Failed description => lit "Error fetching email: " ++ description
               end),
     [by_id_request headers id]).
Proof.
  intros Hauth Hid Hfailed.
  rewrite (fetch_outlook_emails_by_id _ _ _ _ _ _ _ _ Hauth Hid).
  unfold fetch_by_id, client_get, try_except, bind, client_call.
  unfold by_id_request in Hfailed |- *. cbn [length app].
  destruct (upstream w 0 _) as [status reason body_text body_json | d];
    [| reflexivity].
  cbn [delivered] in Hfailed. unfold raise_for_status. cbn [status_code text].
  rewrite Hfailed. reflexivity.
Qed.

Lemma fetch_subject_filter_keeps_matches_witness :
  get_graph_auth_headers world_inbox = Return bearer_headers
  /\ truthy_opt None = false
  /\ truthy_str (lit "NOTES meeting") = true
  /\ forallb subject_ok [message_json "m1" "Meeting Notes Q1"; message_json "m2" "Lunch"]
     = true
  /\ forallb sender_ok [message_json "m1" "Meeting Notes Q1"; message_json "m2" "Lunch"]
     = true
  /\ @fetch_outlook_emails ascii_runtime world_inbox (lit "inbox") (Some false) None
       None (Some (lit "NOTES meeting")) DEFAULT_TOP []
     = (Return (VDict [ (lit "status", VStr (lit "success"));
                        (lit "emails", VList [message_json "m1" "Meeting Notes Q1"]);
                        (lit "email_summaries",
                          VList [summary (message_json "m1" "Meeting Notes Q1")]) ]),
        [@list_request ascii_runtime bearer_headers (lit "inbox") (Some false) None
                       DEFAULT_TOP]).
Proof.
  assert (Hauth : get_graph_auth_headers world_inbox = Return bearer_headers)
    by reflexivity.
  split; [exact Hauth |]. do 4 (split; [reflexivity |]).
  rewrite (@fetch_subject_filter_keeps_matches ascii_runtime world_inbox
             bearer_headers (lit "inbox") (Some false) None None (lit "NOTES meeting")
             DEFAULT_TOP 200 (lit "OK") []
             [ (lit "value", VList [ message_json "m1" "Meeting Notes Q1";
                                     message_json "m2" "Lunch" ]) ]
             [ message_json "m1" "Meeting Notes Q1"; message_json "m2" "Lunch" ]
             Hauth eq_refl eq_refl eq_refl eq_refl eq_refl eq_refl eq_refl).
  reflexivity.
Defined.

Lemma fetch_unfiltered_page_witness :
  get_graph_auth_headers world_null_subject = Return bearer_headers
  /\ truthy_opt None = false
  /\ truthy_opt (Some []) = false
  /\ @fetch_outlook_emails ascii_runtime world_null_subject (lit "inbox") None None
       None (Some []) DEFAULT_TOP []
     = (Return (VDict
          [ (lit "status", VStr (lit "success"));
            (lit "emails",
              VList [ message_json "m1" "Meeting Notes Q1";
                      VDict [ (lit "id", VStr (lit "m2")); (lit "subject", VNone) ] ]);
            (lit "email_summaries",
              VList [ summary (message_json "m1" "Meeting Notes Q1");
                      summary (VDict [ (lit "id", VStr (lit "m2"));
                                       (lit "subject", VNone) ]) ]) ]),
        [@list_request ascii_runtime bearer_headers (lit "inbox") None None DEFAULT_TOP]).
Proof.
  assert (Hauth : get_graph_auth_headers world_null_subject = Return bearer_headers)
    by reflexivity.
  split; [exact Hauth |]. do 2 (split; [reflexivity |]).
  rewrite (@fetch_unfiltered_page ascii_runtime world_null_subject bearer_headers
             (lit "inbox") None None None (Some []) DEFAULT_TOP 200 (lit "OK") []
             [ (lit "value",
                 VList [ message_json "m1" "Meeting Notes Q1";
                         VDict [ (lit "id", VStr (lit "m2"));
                                 (lit "subject", VNone) ] ]) ]
             [ message_json "m1" "Meeting Notes Q1";
               VDict [ (lit "id", VStr (lit "m2")); (lit "subject", VNone) ] ]
             Hauth eq_refl eq_refl eq_refl eq_refl eq_refl eq_refl).
  reflexivity.
Defined.

Lemma fetch_subject_filter_malformed_witness :
  get_graph_auth_headers world_null_subject = Return bearer_headers
  /\ truthy_str (lit "meeting") = true
  /\ forallb subject_ok [message_json "m1" "Meeting Notes Q1"] = true
  /\ dict_get (lit "subject") [ (lit "id", VStr (lit "m2")); (lit "subject", VNone) ]
     = Some VNone
  /\ (forall s, VNone <> VStr s)
  /\ @fetch_outlook_emails ascii_runtime world_null_subject (lit "inbox") None None
       None (Some (lit "meeting")) DEFAULT_TOP []
     = (Return (error_result
                  (lit "Error fetching emails: 'NoneType' object has no attribute 'lower'")),
        [@list_request ascii_runtime bearer_headers (lit "inbox") None None DEFAULT_TOP]).
Proof.
  assert (Hauth : get_graph_auth_headers world_null_subject = Return bearer_headers)
    by reflexivity.
  assert (Hnull : forall s, VNone <> VStr s) by (intros s; discriminate).
  split; [exact Hauth |]. do 3 (split; [reflexivity |]). split; [exact Hnull |].
  rewrite (@fetch_subject_filter_malformed ascii_runtime world_null_subject
             bearer_headers (lit "inbox") None None None (lit "meeting") DEFAULT_TOP
             200 (lit "OK") []
             [ (lit "value",
                 VList [ message_json "m1" "Meeting Notes Q1";
                         VDict [ (lit "id", VStr (lit "m2"));
                                 (lit "subject", VNone) ] ]) ]
             [ message_json "m1" "Meeting Notes Q1" ]
             [ (lit "id", VStr (lit "m2")); (lit "subject", VNone) ] VNone []
             Hauth eq_refl eq_refl eq_refl eq_refl eq_refl eq_refl eq_refl Hnull).
  reflexivity.
Defined.

Lemma fetch_always_returns_witness :
  get_graph_auth_headers world_throttled = Return bearer_headers
  /\ exists result,
       @fetch_outlook_emails ascii_runtime world_throttled (lit "inbox") (Some true)
         (Some (lit "bob@example.org")) None (Some (lit "meeting")) DEFAULT_TOP []
       = (Return result,
          [@fetch_request ascii_runtime bearer_headers (lit "inbox") (Some true)
                          (Some (lit "bob@example.org")) None DEFAULT_TOP])
       /\ (outcome_field (lit "status") result = Some (VStr (lit "success"))
           \/ outcome_field (lit "status") result = Some (VStr (lit "error"))).
Proof.
  assert (Hauth : get_graph_auth_headers world_throttled = Return bearer_headers)
    by reflexivity.
  exact (conj Hauth
           (proj1 (@fetch_always_returns ascii_runtime world_throttled bearer_headers
                     (lit "inbox") (Some true) (Some (lit "bob@example.org")) None
                     (Some (lit "meeting")) DEFAULT_TOP Hauth))).
Defined.

(** The server-side filter of that request. *)
Example fetch_filter_text :
  dict_get (lit "$filter")
           (@fetch_params ascii_runtime (Some true) (Some (lit "bob@example.org")) 10)
  = Some (VStr (lit "isRead eq true and from/emailAddress/address eq 'bob@example.org'")).
Proof. reflexivity. Qed.

Lemma fetch_by_id_success_witness :
  get_graph_auth_headers world_message = Return bearer_headers
  /\ truthy_str (lit "m7") = true
  /\ is_success 200 = true
  /\ sender_ok stored_message = true
  /\ @fetch_outlook_emails ascii_runtime world_message (lit "drafts") (Some true) None
       (Some (lit "m7")) (Some (lit "anything")) DEFAULT_TOP []
     = (Return (VDict [ (lit "status", VStr (lit "success"));
                        (lit "email", stored_message);
                        (lit "email_id", VStr (lit "m7"));
                        (lit "subject", VStr (lit "Quarterly report"));
                        (lit "from", VStr (lit "alice@example.com")) ]),
        [@by_id_request ascii_runtime bearer_headers (lit "m7")]).
Proof.
  assert (Hauth : get_graph_auth_headers world_message = Return bearer_headers)
    by reflexivity.
  split; [exact Hauth |]. do 3 (split; [reflexivity |]).
  rewrite (@fetch_by_id_success ascii_runtime world_message bearer_headers
             (lit "drafts") (Some true) None (Some (lit "anything")) (lit "m7")
             DEFAULT_TOP 200 (lit "OK") [] stored_message
             Hauth eq_refl eq_refl eq_refl eq_refl).
  reflexivity.
Defined.

Lemma fetch_by_id_failure_witness :
  get_graph_auth_headers world_throttled = Return bearer_headers
  /\ truthy_str (lit "m7") = true
  /\ delivered (upstream world_throttled 0
                  (@by_id_request ascii_runtime bearer_headers (lit "m7"))) = false
  /\ @fetch_outlook_emails ascii_runtime world_throttled (lit "inbox") None None
       (Some (lit "m7")) None DEFAULT_TOP []
     = (Return (error_result (lit "HTTP Error 429: {quota exceeded}")),
        [@by_id_request ascii_runtime bearer_headers (lit "m7")]).
Proof.
  assert (Hauth : get_graph_auth_headers world_throttled = Return bearer_headers)
    by reflexivity.
  split; [exact Hauth |]. do 2 (split; [reflexivity |]).
  rewrite (@fetch_by_id_failure ascii_runtime world_throttled bearer_headers
             (lit "inbox") None None None (lit "m7") DEFAULT_TOP
             Hauth eq_refl eq_refl).
  reflexivity.
Defined.

(* ================================================================== *)
(** * Valid addresses through the normaliser *)
(* ================================================================== *)

Section WordCharacters.
Context `{Runtime}.

(** No alphanumeric character above the ASCII range is a whitespace
    character: one fact about the Unicode tables the lemmas below need. *)
Hypothesis alnum_not_space : forall c, unicode_isalnum c = true -> is_space c = false.

Lemma word_not_space c : Re.is_word c = true -> is_space c = false.
Proof.
  unfold Re.is_word. destruct (c <? 128)%N eqn:Hascii.
  - unfold Re.is_ascii_alnum, is_space. intros Hword.
    apply N.ltb_lt in Hascii.
    repeat rewrite ?orb_true_iff, ?andb_true_iff, ?N.leb_le, ?N.eqb_eq in Hword.
    repeat rewrite ?orb_false_iff, ?andb_false_iff, ?N.leb_gt, ?N.eqb_neq.
    lia.
  - intros Hword. apply orb_true_iff in Hword as [Hword | Hword].
    + apply alnum_not_space, Hword.
    + apply N.eqb_eq in Hword. apply N.ltb_ge in Hascii. lia.
Qed.

Lemma word_not_separator c : Re.is_word c = true -> Reference.is_separator c = false.
Proof.
  intros Hword. destruct (Reference.is_separator c) eqn:Hsep; [| reflexivity].
  unfold Reference.is_separator in Hsep.
  apply orb_true_iff in Hsep as [Heq | Heq]; apply N.eqb_eq in Heq; subst c;
    discriminate Hword.
Qed.

Lemma name_char_cases c :
  Reference.name_char c = true -> Re.is_word c = true \/ c = 46%N \/ c = 45%N.
Proof.
  unfold Reference.name_char. rewrite !orb_true_iff, !N.eqb_eq. tauto.
Qed.

Lemma name_char_not_space c : Reference.name_char c = true -> is_space c = false.
Proof.
  intros Hc. destruct (name_char_cases c Hc) as [Hword | [-> | ->]];
    [apply word_not_space, Hword | reflexivity | reflexivity].
Qed.

Lemma name_char_not_separator c :
  Reference.name_char c = true -> negb (Reference.is_separator c) = true.
Proof.
  intros Hc. destruct (name_char_cases c Hc) as [Hword | [-> | ->]];
    [rewrite (word_not_separator c Hword) | |]; reflexivity.
Qed.

Lemma last_of_address (c x d : N) (name domain front : list N) :
  List.last (c :: name ++ 64%N :: domain ++ 46%N :: front ++ [x]) d = x.
Proof.
  change (c :: name ++ 64%N :: domain ++ 46%N :: front ++ [x])
    with ((c :: name) ++ [64%N] ++ domain ++ [46%N] ++ front ++ [x]).
  rewrite !app_assoc. apply last_last.
Qed.

(** A full match of the address pattern is a clean address. *)
Lemma full_match_clean (a : pystr) : Reference.full_match a -> clean_address a = true.
Proof.
  intros (name & domain & tld & -> & Hname & Hn & Hdomain & Hd & Hlen & Ht).
  destruct name as [|c name]; [congruence |].
  destruct (exists_last (l := tld)) as (front & x & ->);
    [intros ->; cbn in Hlen; lia |].
  assert (Hwords : forall y, Re.is_word y = true ->
            negb (Reference.is_separator y) = true).
  { intros y Hy. rewrite (word_not_separator y Hy). reflexivity. }
  cbn [forallb] in Hn. apply andb_true_iff in Hn as [Hc Hn].
  rewrite forallb_app in Ht. apply andb_true_iff in Ht as [Hfront Hx].
  cbn [forallb] in Hx. rewrite andb_true_r in Hx.
  unfold clean_address. cbn [app].
  rewrite last_of_address.
  rewrite (name_char_not_space c Hc), (word_not_space x Hx). cbn [negb andb].
  cbn [forallb]. rewrite (name_char_not_separator c Hc). cbn [andb].
  rewrite forallb_app. cbn [forallb].
  rewrite forallb_app. cbn [forallb].
  rewrite forallb_app. cbn [forallb].
  rewrite (forallb_weaken _ _ name name_char_not_separator Hn).
  rewrite (forallb_weaken _ _ domain name_char_not_separator Hd).
  rewrite (forallb_weaken _ _ front Hwords Hfront).
  rewrite (Hwords x Hx).
  reflexivity.
Qed.

End WordCharacters.

(** X15: valid addresses survive the normaliser.  For a list of full
    matches of the address pattern joined by a comma or a semicolon, with
    any whitespace on either side of it, the normaliser returns exactly
    those addresses, in order, and the validation the services run on
    them finds nothing invalid.  (The Unicode tables enter through one
    fact: no alphanumeric character is a whitespace character.) *)
Theorem valid_addresses_round_trip `{Runtime} (ws1 ws2 : pystr) (c : N)
    (l : list pystr) :
  (forall x, unicode_isalnum x = true -> is_space x = false) ->
  forallb is_space ws1 = true ->
  forallb is_space ws2 = true ->
  Reference.is_separator c = true ->
  Forall Reference.full_match l ->
  normalize_email_list (VStr (str_join (ws1 ++ [c] ++ ws2) l)) = map VStr l
  /\ invalid_addresses
       (str_items (normalize_email_list (VStr (str_join (ws1 ++ [c] ++ ws2) l))))
     = [].
Proof.
  intros Htables Hws1 Hws2 Hc Hl.
  assert (Hclean : forallb clean_address l = true).
  { apply forallb_forall. intros a Ha. rewrite Forall_forall in Hl.
    apply (full_match_clean Htables), Hl. apply list_elem_of_In, Ha. }
  assert (Hround : normalize_email_list (VStr (str_join (ws1 ++ [c] ++ ws2) l))
                   = map VStr l).
  { unfold normalize_email_list. rewrite re_split_reference, strip_filter_commute.
    destruct l as [|a l]; [reflexivity |].
    rewrite <- (app_nil_l (str_join _ _)).
    rewrite (strip_split_join ws1 ws2 c Hws1 Hws2 Hc a l [] eq_refl Hclean).
    rewrite (filter_clean _ Hclean). reflexivity. }
  split; [exact Hround |].
  rewrite Hround, str_items_strings. apply all_valid_invalid_addresses.
  intros a Ha. apply full_match_accepted.
  rewrite Forall_forall in Hl. apply Hl, list_elem_of_In, Ha.
Qed.

Lemma alice_full_match : @Reference.full_match ascii_runtime alice.
Proof.
  exists (lit "alice"), (lit "example"), (lit "com").
  repeat split; try reflexivity; try discriminate. cbn. lia.
Defined.

Lemma bob_full_match : @Reference.full_match ascii_runtime bob.
Proof.
  exists (lit "bob"), (lit "example"), (lit "org").
  repeat split; try reflexivity; try discriminate. cbn. lia.
Defined.

Lemma valid_addresses_round_trip_witness :
  (forall x, @unicode_isalnum ascii_runtime x = true -> is_space x = false)
  /\ Forall (@Reference.full_match ascii_runtime) [alice; bob]
  /\ @normalize_email_list ascii_runtime
       (VStr (str_join (lit " " ++ [44%N] ++ lit " ") [alice; bob]))
     = map VStr [alice; bob]
  /\ @invalid_addresses ascii_runtime
       (str_items (@normalize_email_list ascii_runtime
                     (VStr (str_join (lit " " ++ [44%N] ++ lit " ") [alice; bob]))))
     = [].
Proof.
  assert (Htables : forall x, @unicode_isalnum ascii_runtime x = true ->
                              is_space x = false)
    by (intros x Hx; discriminate Hx).
  assert (Hl : Forall (@Reference.full_match ascii_runtime) [alice; bob]).
  { constructor; [exact alice_full_match |].
    constructor; [exact bob_full_match | constructor]. }
  exact (conj Htables (conj Hl
    (@valid_addresses_round_trip ascii_runtime (lit " ") (lit " ") 44 [alice; bob]
       Htables eq_refl eq_refl eq_refl Hl))).
Defined.

(* ================================================================== *)
(** * The token cache, login and logout *)
(* ================================================================== *)

Lemma logout_path_is_not_cache : logout_token_path <> TOKEN_CACHE_FILE.
Proof. discriminate. Qed.

Lemma load_cached_token_files (m m' : machine) :
  files m' !! TOKEN_CACHE_FILE = files m !! TOKEN_CACHE_FILE ->
  load_cached_token m' = load_cached_token m.
Proof. unfold load_cached_token. intros ->. reflexivity. Qed.

Lemma load_cached_token_object (m : machine) (d : pydict) :
  files m !! TOKEN_CACHE_FILE = Some (Json (VDict d)) ->
  load_cached_token m =
  Success (match dict_get (lit "access_token") d with Some v => v | None => VNone end).
Proof.
  unfold load_cached_token. intros ->. unfold py_contains, py_getitem, dict_has.
  destruct (dict_get (lit "access_token") d); reflexivity.
Qed.

Lemma writable_storage (m : machine) : writable m = true -> storage m = Writable.
Proof. unfold writable. destruct (storage m); [reflexivity | discriminate ..]. Qed.

Lemma save_token_run (token_result : pydict) (tok : pyval) (m : machine) :
  writable m = true ->
  dict_get (lit "access_token") token_result = Some tok ->
  save_token token_result m =
  (Success tt,
   with_files (<[TOKEN_CACHE_FILE := Json (VDict [(lit "access_token", tok)])]>
                 (files m)) m).
Proof.
  intros Hw Htok. apply writable_storage in Hw. unfold save_token.
  rewrite Hw, Htok. reflexivity.
Qed.

Lemma load_after_insert (tok : pyval) (m : machine) :
  load_cached_token
    (with_files (<[TOKEN_CACHE_FILE := Json (VDict [(lit "access_token", tok)])]>
                   (files m)) m)
  = Success tok.
Proof.
  erewrite load_cached_token_object; [| apply lookup_insert_eq]. reflexivity.
Qed.

Lemma logout_tool_files (m : machine) (p : pystr) :
  p <> logout_token_path ->
  files (snd (logout_tool m)) !! p = files m !! p.
Proof.
  intros Hp. unfold logout_tool.
  destruct (files m !! logout_token_path); [| reflexivity].
  destruct (storage m); [| reflexivity |];
    cbn [snd with_files files]; apply lookup_delete_ne; congruence.
Qed.

Lemma logout_tool_load (m : machine) :
  load_cached_token (snd (logout_tool m)) = load_cached_token m.
Proof.
  apply load_cached_token_files, logout_tool_files.
  intros Heq. apply logout_path_is_not_cache. symmetry. exact Heq.
Qed.

Lemma logout_tool_rest (m : machine) :
  storage (snd (logout_tool m)) = storage m
  /\ device_flows (snd (logout_tool m)) = device_flows m.
Proof.
  unfold logout_tool. destruct (files m !! logout_token_path); [| split; reflexivity].
  destruct (storage m) eqn:Hstorage; cbn [snd with_files storage device_flows];
    rewrite ?Hstorage; split; reflexivity.
Qed.

Lemma authenticate_run (idp : identity_provider) (tok : pyval) (m : machine) :
  writable m = true ->
  dict_has (lit "user_code") (device_flow idp) = true ->
  dict_has (lit "message") (device_flow idp) = true ->
  dict_get (lit "access_token") (flow_result idp) = Some tok ->
  authenticate_and_get_token idp m =
  (Success tok,
   {| files := <[TOKEN_CACHE_FILE := Json (VDict [(lit "access_token", tok)])]> (files m);
      storage := Writable;
      device_flows := S (device_flows m) |}).
Proof.
  intros Hw Hcode Hmessage Htok. unfold authenticate_and_get_token.
  rewrite Hcode. cbn [negb]. unfold dict_has in Hmessage |- *.
  destruct (dict_get (lit "message") (device_flow idp)); [| discriminate Hmessage].
  rewrite Htok. erewrite save_token_run; [| exact Hw | exact Htok].
  unfold py_getitem. rewrite Htok. unfold with_files. cbn [files storage device_flows].
  rewrite (writable_storage m Hw). reflexivity.
Qed.

(** X16: what [save_token] writes is what [load_cached_token] reads.  On
    a writable machine, for a token result with an access token,
    [save_token] succeeds, the cache file then holds a JSON object with
    the access token as its only entry (whatever else the token result
    carries), no other file changes, and [load_cached_token] returns that
    access token. *)
Theorem save_token_then_load (token_result : pydict) (tok : pyval) (m : machine) :
  writable m = true ->
  dict_get (lit "access_token") token_result = Some tok ->
  fst (save_token token_result m) = Success tt
  /\ files (snd (save_token token_result m)) !! TOKEN_CACHE_FILE
     = Some (Json (VDict [(lit "access_token", tok)]))
  /\ (forall p, p <> TOKEN_CACHE_FILE ->
        files (snd (save_token token_result m)) !! p = files m !! p)
  /\ load_cached_token (snd (save_token token_result m)) = Success tok.
Proof.
  intros Hw Htok. rewrite (save_token_run token_result tok m Hw Htok).
  cbn [fst snd]. split; [reflexivity |]. split; [apply lookup_insert_eq |].
  split; [| apply load_after_insert].
  intros p Hp. apply lookup_insert_ne. congruence.
Qed.

Lemma save_token_then_load_witness :
  writable machine_empty = true
  /\ dict_get (lit "access_token") token_response = Some (VStr (lit "eyJ0"))
  /\ load_cached_token (snd (save_token token_response machine_empty))
     = Success (VStr (lit "eyJ0")).
Proof.
  exact (conj eq_refl (conj eq_refl
    (proj2 (proj2 (proj2
       (save_token_then_load token_response (VStr (lit "eyJ0")) machine_empty
          eq_refl eq_refl)))))).
Defined.

(** X17: [logout_tool] does not log out.  It looks for the token at
    [mcp_server/.token.json], while the cache is
    [./services/auth/.token.json]: whatever it reports, the cache file is
    as before, [load_cached_token] returns what it returned before, and
    the next [get_token] gives the same result, the cached token included,
    after the same number of device flows. *)
Theorem logout_keeps_cached_token (idp : identity_provider) (m : machine) :
  files (snd (logout_tool m)) !! TOKEN_CACHE_FILE = files m !! TOKEN_CACHE_FILE
  /\ load_cached_token (snd (logout_tool m)) = load_cached_token m
  /\ fst (get_token idp (snd (logout_tool m))) = fst (get_token idp m)
  /\ device_flows (snd (get_token idp (snd (logout_tool m))))
     = device_flows (snd (get_token idp m)).
Proof.
  split.
  { apply logout_tool_files. intros Heq. apply logout_path_is_not_cache.
    symmetry. exact Heq. }
  split; [apply logout_tool_load |].
  unfold get_token. rewrite logout_tool_load.
  destruct (logout_tool_rest m) as [Hstorage Hflows].
  destruct (load_cached_token m) as [cached | e]; [| split; [reflexivity | exact Hflows]].
  destruct (py_truthy cached); [split; [reflexivity | exact Hflows] |].
  unfold authenticate_and_get_token.
  destruct (negb (dict_has (lit "user_code") (device_flow idp)));
    [cbn [fst snd device_flows]; rewrite Hflows; split; reflexivity |].
  destruct (dict_get (lit "message") (device_flow idp));
    [| cbn [fst snd device_flows]; rewrite Hflows; split; reflexivity].
  destruct (dict_has (lit "access_token") (flow_result idp));
    [| cbn [fst snd device_flows]; rewrite Hflows; split; reflexivity].
  unfold save_token. cbn [storage files device_flows]. rewrite Hstorage.
  destruct (storage m);
    destruct (dict_get (lit "access_token") (flow_result idp));
    cbn [fst snd with_files device_flows]; rewrite Hflows; split; reflexivity.
Qed.

(** X18: log in, log out, and the token is still there.  After a device
    flow that delivers a non-empty token on a writable machine,
    [login_tool] reports success; [logout_tool] then leaves the cache
    alone, and [get_token] returns the token of the login, without
    starting a second device flow and without changing anything. *)
Theorem login_logout_get_token (idp idp' : identity_provider) (tok : pyval)
    (m : machine) :
  writable m = true ->
  dict_has (lit "user_code") (device_flow idp) = true ->
  dict_has (lit "message") (device_flow idp) = true ->
  dict_get (lit "access_token") (flow_result idp) = Some tok ->
  py_truthy tok = true ->
  let m1 := snd (login_tool idp m) in
  let m2 := snd (logout_tool m1) in
  fst (login_tool idp m)
  = Success ([9989%N] ++ lit " Login successful. You can now use Outlook tools.")
  /\ get_token idp' m2 = (Success tok, m2)
  /\ device_flows m2 = S (device_flows m).
Proof.
  intros Hw Hcode Hmessage Htok Htruthy. unfold login_tool.
  rewrite (authenticate_run idp tok m Hw Hcode Hmessage Htok). cbn [fst snd].
  split; [reflexivity |]. split.
  - unfold get_token. rewrite logout_tool_load.
    rewrite (load_cached_token_object _ [(lit "access_token", tok)]);
      [| apply lookup_insert_eq].
    cbn [dict_get]. change (str_eqb (lit "access_token") (lit "access_token")) with true.
    cbn iota. rewrite Htruthy. reflexivity.
  - rewrite (proj2 (logout_tool_rest _)). reflexivity.
Qed.

Lemma login_logout_get_token_witness :
  writable machine_empty = true
  /\ dict_has (lit "user_code") (device_flow provider_ok) = true
  /\ dict_has (lit "message") (device_flow provider_ok) = true
  /\ dict_get (lit "access_token") (flow_result provider_ok) = Some (VStr (lit "eyJ0"))
  /\ py_truthy (VStr (lit "eyJ0")) = true
  /\ fst (get_token provider_declined
            (snd (logout_tool (snd (login_tool provider_ok machine_empty)))))
     = Success (VStr (lit "eyJ0")).
Proof.
  refine (conj eq_refl (conj eq_refl (conj eq_refl (conj eq_refl (conj eq_refl _))))).
  rewrite (proj1 (proj2
    (login_logout_get_token provider_ok provider_declined (VStr (lit "eyJ0"))
       machine_empty eq_refl eq_refl eq_refl eq_refl eq_refl))).
  reflexivity.
Defined.

(** X19: the device flow and the cache.  [authenticate_and_get_token]
    starts exactly one device flow and changes no file but the cache
    file.  When it returns a token, that token is the access token of the
    flow's result and it is in the cache already: [load_cached_token]
    returns it.  When it raises, the cache file is as it was, with one
    exception: the flow delivered a token and the file system took no more
    data after the cache file had been opened for writing.  Then the
    [OSError] of the write is raised and the cache file is left without
    its content, so that a token cached before is lost:
    [load_cached_token] returns [None]. *)
Theorem authenticate_and_cache (idp : identity_provider) (m : machine) :
  device_flows (snd (authenticate_and_get_token idp m)) = S (device_flows m)
  /\ (forall p, p <> TOKEN_CACHE_FILE ->
        files (snd (authenticate_and_get_token idp m)) !! p = files m !! p)
  /\ match fst (authenticate_and_get_token idp m) with
     | Success tok =>
         dict_get (lit "access_token") (flow_result idp) = Some tok
         /\ load_cached_token (snd (authenticate_and_get_token idp m)) = Success tok
     | Failure e =>
         files (snd (authenticate_and_get_token idp m)) = files m
         \/ (storage m = Full
             /\ dict_has (lit "access_token") (flow_result idp) = true
             /\ e = OSError
             /\ files (snd (authenticate_and_get_token idp m)) !! TOKEN_CACHE_FILE
                = Some Malformed
             /\ load_cached_token (snd (authenticate_and_get_token idp m))
                = Success VNone)
     end.
Proof.
  unfold authenticate_and_get_token.
  destruct (negb (dict_has (lit "user_code") (device_flow idp)));
    [split; [| split; [| left]]; reflexivity |].
  destruct (dict_get (lit "message") (device_flow idp)) as [instructions |];
    [| split; [| split; [| left]]; reflexivity].
  unfold dict_has, save_token, py_getitem. cbn [storage files device_flows].
  destruct (dict_get (lit "access_token") (flow_result idp)) as [tok |] eqn:Htok;
    [| split; [| split; [| left]]; reflexivity].
  destruct (storage m) eqn:Hstorage; cbn [fst snd with_files files device_flows].
  - split; [reflexivity |]. split.
    + intros p Hp. apply lookup_insert_ne. congruence.
    + split; [reflexivity |].
      erewrite load_cached_token_object; [| apply lookup_insert_eq]. reflexivity.
  - split; [| split; [| left]]; reflexivity.
  - split; [reflexivity |]. split.
    + intros p Hp. apply lookup_insert_ne. congruence.
    + right. split; [reflexivity |]. split; [reflexivity |].
      split; [reflexivity |]. split; [apply lookup_insert_eq |].
      unfold load_cached_token. cbn [files with_files].
      rewrite lookup_insert_eq. reflexivity.
Qed.

(** A login on a machine whose file system takes no more data: the token
    that was cached is gone. *)
Example failed_login_empties_cache :
  load_cached_token machine_full = Success (VStr (lit "eyJ0"))
  /\ fst (login_tool provider_ok machine_full) = Failure OSError
  /\ load_cached_token (snd (login_tool provider_ok machine_full)) = Success VNone.
Proof.
  split; [| split].
  - erewrite load_cached_token_object; [| apply lookup_singleton_eq]. reflexivity.
  - reflexivity.
  - unfold load_cached_token.
    change (files (snd (login_tool provider_ok machine_full)))
      with (<[TOKEN_CACHE_FILE := Malformed]> (files machine_full)).
    rewrite lookup_insert_eq. reflexivity.
Qed.

(** X20: the exceptions of [load_cached_token].  A missing or unreadable
    cache file, one that [json.load] rejects with a [JSONDecodeError], and
    any JSON object make it return.  It raises in two cases only: when
    [json.load] fails with an exception that is no [JSONDecodeError] (a
    [UnicodeDecodeError] for a file that is not text, a [ValueError] for
    an integer with too many digits, a [RecursionError] for too deep a
    nesting), with that exception; and when the file holds a JSON text
    that is not an object, with a [TypeError].  In both cases [get_token]
    raises the same exception without starting a device flow and without
    changing anything. *)
Theorem load_cached_token_raises (idp : identity_provider) (m : machine)
    (e : auth_exn) :
  load_cached_token m = Failure e ->
  ((exists failure, files m !! TOKEN_CACHE_FILE = Some (Unloadable failure)
                    /\ e = load_exception failure)
   \/ (e = TypeError
       /\ exists data, files m !! TOKEN_CACHE_FILE = Some (Json data)
                       /\ forall d, data <> VDict d))
  /\ get_token idp m = (Failure e, m).
Proof.
  intros Hload. split; [| unfold get_token; rewrite Hload; reflexivity].
  unfold load_cached_token in Hload.
  destruct (files m !! TOKEN_CACHE_FILE) as [[data | | failure |] |];
    try discriminate Hload.
  - right. destruct data as [| b | n | s | l | d]; cbn [py_contains] in Hload.
    + injection Hload as <-. split; [reflexivity |]. exists VNone.
      split; [reflexivity | discriminate].
    + injection Hload as <-. split; [reflexivity |]. exists (VBool b).
      split; [reflexivity | discriminate].
    + injection Hload as <-. split; [reflexivity |]. exists (VInt n).
      split; [reflexivity | discriminate].
    + destruct (str_contains s (lit "access_token")); [| discriminate Hload].
      cbn [py_getitem] in Hload. injection Hload as <-. split; [reflexivity |].
      exists (VStr s). split; [reflexivity | discriminate].
    + destruct (existsb _ l); [| discriminate Hload].
      cbn [py_getitem] in Hload. injection Hload as <-. split; [reflexivity |].
      exists (VList l). split; [reflexivity | discriminate].
    + unfold dict_has, py_getitem in Hload.
      destruct (dict_get (lit "access_token") d); discriminate Hload.
  - left. injection Hload as <-. exists failure. split; reflexivity.
Qed.

Lemma machine_null_cache_load : load_cached_token machine_null_cache = Failure TypeError.
Proof.
  unfold load_cached_token, machine_null_cache. cbn [files].
  rewrite lookup_singleton_eq. reflexivity.
Defined.

Lemma machine_binary_cache_load :
  load_cached_token machine_binary_cache = Failure UnicodeDecodeError.
Proof.
  unfold load_cached_token, machine_binary_cache. cbn [files].
  rewrite lookup_singleton_eq. reflexivity.
Defined.

Lemma load_cached_token_raises_witness :
  load_cached_token machine_null_cache = Failure TypeError
  /\ get_token provider_ok machine_null_cache = (Failure TypeError, machine_null_cache)
  /\ load_cached_token machine_binary_cache = Failure UnicodeDecodeError
  /\ get_token provider_ok machine_binary_cache
     = (Failure UnicodeDecodeError, machine_binary_cache).
Proof.
  exact (conj machine_null_cache_load
    (conj (proj2 (load_cached_token_raises provider_ok machine_null_cache TypeError
                    machine_null_cache_load))
    (conj machine_binary_cache_load
          (proj2 (load_cached_token_raises provider_ok machine_binary_cache
                    UnicodeDecodeError machine_binary_cache_load))))).
Defined.

(* ================================================================== *)
(** * Templates *)
(* ================================================================== *)

Lemma str_contains_cons (c : N) (s old : pystr) :
  str_contains (c :: s) old = false ->
  str_startswith (c :: s) old = false /\ str_contains s old = false.
Proof. cbn [str_contains]. intros Hc. apply orb_false_iff in Hc. exact Hc. Qed.

(** Replacing a text that does not occur changes nothing. *)
Lemma str_replace_absent (old new s : pystr) :
  str_contains s old = false -> str_replace old new s = s.
Proof.
  destruct old as [|o old].
  { destruct s; discriminate. }
  unfold str_replace. induction s as [|c s IH]; [reflexivity |].
  intros Hc. apply str_contains_cons in Hc as [Hhere Hrest].
  cbn [str_replace_go]. rewrite Hhere, (IH Hrest). reflexivity.
Qed.

Lemma str_replace_go_skip (old new skipped rest : pystr) :
  str_replace_go old new (length skipped) (skipped ++ rest)
  = str_replace_go old new 0 rest.
Proof.
  induction skipped as [|c skipped IH]; [reflexivity |].
  cbn [length app str_replace_go]. exact IH.
Qed.

(** An occurrence after a prefix free of the first character of [old]. *)
Lemma str_replace_go_first (o : N) (old new pre post : pystr) :
  forallb (fun c => negb (N.eqb o c)) pre = true ->
  str_replace_go (o :: old) new 0 (pre ++ (o :: old) ++ post)
  = pre ++ new ++ str_replace_go (o :: old) new 0 post.
Proof.
  induction pre as [|c pre IH]; cbn [forallb].
  - intros _. rewrite !app_nil_l.
    destruct ((o :: old) ++ post) as [|x rest] eqn:Hs; [discriminate Hs |].
    cbn [str_replace_go]. rewrite <- Hs, str_startswith_app.
    injection Hs as _ Hrest. rewrite <- Hrest.
    replace (length (o :: old) - 1) with (length old) by (cbn [length]; lia).
    rewrite str_replace_go_skip. reflexivity.
  - intros Hpre. apply andb_true_iff in Hpre as [Hc Hpre].
    rewrite <- !app_comm_cons.
    cbn [str_replace_go str_startswith]. apply negb_true_iff in Hc. rewrite Hc.
    cbn [andb]. f_equal. exact (IH Hpre).
Qed.

Lemma no_brace_no_placeholder (key s : pystr) :
  forallb (fun c => negb (N.eqb 123 c)) s = true ->
  str_contains s (placeholder key) = false.
Proof.
  induction s as [|c s IH]; [reflexivity |].
  cbn [forallb]. intros Hs. apply andb_true_iff in Hs as [Hc Hs].
  cbn [str_contains]. rewrite (IH Hs), orb_false_r.
  change (placeholder key) with (123%N :: (lit "{ " ++ key ++ lit " }}")).
  cbn [str_startswith]. apply negb_true_iff in Hc. rewrite Hc. reflexivity.
Qed.

(** X21: entries whose placeholder does not occur have no effect.  If no
    key of the context occurs in the template as [{{ key }}], spelled with
    exactly one space on either side, the template is returned as it
    is, whatever the values are. *)
Theorem render_template_absent (str_of_value : pyval -> pystr) (template : pystr)
    (context : pydict) :
  forallb (fun entry => negb (str_contains template (placeholder (fst entry)))) context
  = true ->
  render_template str_of_value template context = template.
Proof.
  induction context as [|[key value] context IH]; [reflexivity |].
  cbn [forallb fst render_template]. intros Hctx.
  apply andb_true_iff in Hctx as [Hkey Hctx]. apply negb_true_iff in Hkey.
  rewrite (str_replace_absent _ _ _ Hkey). exact (IH Hctx).
Qed.

Lemma render_template_absent_witness :
  forallb (fun entry => negb (str_contains (lit "Hello {{name}}")
                                           (placeholder (fst entry))))
          [(lit "name", VStr (lit "Ola")); (lit "code", VInt 12345)]
  = true
  /\ render_template str_of_scalar (lit "Hello {{name}}")
       [(lit "name", VStr (lit "Ola")); (lit "code", VInt 12345)]
     = lit "Hello {{name}}".
Proof.
  exact (conj eq_refl
    (render_template_absent str_of_scalar (lit "Hello {{name}}")
       [(lit "name", VStr (lit "Ola")); (lit "code", VInt 12345)] eq_refl)).
Defined.

(** X22: one placeholder, one entry.  In a template whose only braces are
    those of one placeholder [{{ key }}], rendering with an entry for
    that key puts [str(value)] in its place and leaves the text before and
    after it as it is. *)
Theorem render_template_one (str_of_value : pyval -> pystr) (key : pystr)
    (value : pyval) (before after : pystr) :
  forallb (fun c => negb (N.eqb 123 c)) before = true ->
  forallb (fun c => negb (N.eqb 123 c)) after = true ->
  render_template str_of_value (before ++ placeholder key ++ after) [(key, value)]
  = before ++ str_of_value value ++ after.
Proof.
  intros Hbefore Hafter. cbn [render_template].
  change (placeholder key) with (123%N :: (lit "{ " ++ key ++ lit " }}")).
  unfold str_replace. rewrite (str_replace_go_first _ _ _ _ _ Hbefore).
  change (123%N :: (lit "{ " ++ key ++ lit " }}")) with (placeholder key).
  pose proof (str_replace_absent (placeholder key) (str_of_value value) after
                (no_brace_no_placeholder key after Hafter)) as Hrest.
  unfold str_replace in Hrest.
  change (placeholder key) with (123%N :: (lit "{ " ++ key ++ lit " }}")) in Hrest.
  change (placeholder key) with (123%N :: (lit "{ " ++ key ++ lit " }}")).
  rewrite Hrest. reflexivity.
Qed.

Lemma render_template_one_witness :
  forallb (fun c => negb (N.eqb 123 c)) (lit "Hello ") = true
  /\ forallb (fun c => negb (N.eqb 123 c)) (lit ", welcome") = true
  /\ render_template str_of_scalar
       (lit "Hello " ++ placeholder (lit "name") ++ lit ", welcome")
       [(lit "name", VStr (lit "Ola"))]
     = lit "Hello " ++ lit "Ola" ++ lit ", welcome".
Proof.
  exact (conj eq_refl (conj eq_refl
    (render_template_one str_of_scalar (lit "name") (VStr (lit "Ola"))
       (lit "Hello ") (lit ", welcome") eq_refl eq_refl))).
Defined.
